(** * Telemetry agent: package inventory and host identity

    A shallow embedding of the two scrapers of the telemetry agent (package
    [metrics]), and the properties their specification states about them:
    - the package scraper [ScrapeInstalledPackages] with the family
      detection, the two query functions and the parsers of the output of
      [dpkg-query] and [rpm];
    - the host scraper [ScrapeHostMetrics] with the identity manager
      [getInstanceID] and the file it keeps.

    How the Go code is read:
    - a Go string is a string of bytes, a [string] here, whose characters
      are the 256 values of [ascii]; an [int] index is a [Z], [-1] standing
      for "not found";
    - a result [(T, error)] of which exactly one part means something is a
      [Result T]; where the caller looks at both parts (the file and the
      error of [os.Open]) both are kept;
    - whatever touches the machine goes through the state monad [M] over
      [World]: the file system, the commands of the package tools, the
      random source, the clock, the host information and the log. What the machine answers is
      a parameter of the world, so a property proved for every world holds
      whatever the machine answers;
    - a loop over a scanner runs on fuel, which is never used up: see
      [scanLoop_fuel], [forScan_ScanLines_fuel] and
      [forScan_customSplitFunc_fuel].

    The functions of Go's library are modelled on bytes, after their
    documentation. [strings.ToLower] reads a string that is not all ASCII
    rune by rune, as UTF-8; the lower case of a rune above ASCII comes from
    the case ranges of package [unicode], which are a parameter
    ([unicode.CaseRanges]): what is proved holds whatever the ranges are.
    The file system is flat, every path being a key of its own, with the
    failures a real file system adds left to the [fault] of the world. *)

From Stdlib Require Import String Ascii ZArith Lia List Bool.
From stdpp Require Import gmap strings list.

Open Scope string_scope.
Open Scope list_scope.
Open Scope Z_scope.

#[local] Arguments String.append !s1 s2 : simpl nomatch.

(** ** Go's [unicode/utf8] and [unicode] packages

    A rune is its code point, an [N]; a byte of a string is an [ascii], and
    [N_of_ascii] is its value. *)

Module utf8.

#[local] Open Scope N_scope.

Definition RuneError : N := 0xFFFD.
Definition RuneSelf : N := 0x80.
Definition MaxRune : N := 0x10FFFF.

Definition surrogateMin : N := 0xD800.
Definition surrogateMax : N := 0xDFFF.

Definition t2 : N := 0xC0.
Definition t3 : N := 0xE0.
Definition t4 : N := 0xF0.
Definition tx : N := 0x80.

Definition maskx : N := 0x3F.
Definition mask2 : N := 0x1F.
Definition mask3 : N := 0x0F.
Definition mask4 : N := 0x07.

Definition rune1Max : N := 0x7F.
Definition rune2Max : N := 0x7FF.
Definition rune3Max : N := 0xFFFF.

Definition locb : N := 0x80.
Definition hicb : N := 0xBF.

Definition between (lo hi b : N) : bool := ((lo <=? b) && (b <=? hi)).

(** The tables [first] and [acceptRanges] for a byte above ASCII: the size
    of the sequence the byte starts and the range its second byte has to be
    in, [None] for a byte that starts no sequence. *)
Definition first (s0 : N) : option (nat * (N * N)) :=
  if between 0xC2 0xDF s0 then Some (2%nat, (locb, hicb))
  else if (s0 =? 0xE0) then Some (3%nat, (0xA0, hicb))
  else if between 0xE1 0xEC s0 then Some (3%nat, (locb, hicb))
  else if (s0 =? 0xED) then Some (3%nat, (locb, 0x9F))
  else if between 0xEE 0xEF s0 then Some (3%nat, (locb, hicb))
  else if (s0 =? 0xF0) then Some (4%nat, (0x90, hicb))
  else if between 0xF1 0xF3 s0 then Some (4%nat, (locb, hicb))
  else if (s0 =? 0xF4) then Some (4%nat, (locb, 0x8F))
  else None.

(** [s[i]], for an index within [s] *)
Definition at_ (s : string) (i : nat) : N :=
  match String.get i s with
  | Some c => N_of_ascii c
  | None => 0
  end.

(** The rune [s] starts with and its width in bytes. A byte that starts no
    well-formed sequence is [RuneError] of width 1. *)
Definition DecodeRuneInString (s : string) : N * nat :=
  match s with
  | EmptyString => (RuneError, 0%nat)
  | String c0 _ =>
      let s0 := N_of_ascii c0 in
      if (s0 <? RuneSelf) then (s0, 1%nat)
      else
        match first s0 with
        | None => (RuneError, 1%nat)
        | Some (sz, (lo, hi)) =>
            if (String.length s <? sz)%nat then (RuneError, 1%nat)
            else
              let s1 := at_ s 1 in
              if negb (between lo hi s1) then (RuneError, 1%nat)
              else if (sz <=? 2)%nat then
                (N.lor (N.shiftl (N.land s0 mask2) 6) (N.land s1 maskx), 2%nat)
              else
                let s2 := at_ s 2 in
                if negb (between locb hicb s2) then (RuneError, 1%nat)
                else if (sz <=? 3)%nat then
                  (N.lor (N.lor (N.shiftl (N.land s0 mask3) 12) (N.shiftl (N.land s1 maskx) 6))
                         (N.land s2 maskx), 3%nat)
                else
                  let s3 := at_ s 3 in
                  if negb (between locb hicb s3) then (RuneError, 1%nat)
                  else
                    (N.lor (N.lor (N.lor (N.shiftl (N.land s0 mask4) 18)
                                         (N.shiftl (N.land s1 maskx) 12))
                                  (N.shiftl (N.land s2 maskx) 6))
                           (N.land s3 maskx), 4%nat)
        end
  end.

(** [for _, c := range s]: the runes of [s] one after the other; [skip]
    counts the bytes of the current rune that remain to be passed over. *)
Fixpoint runesFrom (s : string) (skip : nat) : list N :=
  match s with
  | EmptyString => []
  | String _ s' =>
      match skip with
      | S k => runesFrom s' k
      | O => let (c, width) := DecodeRuneInString s in c :: runesFrom s' (width - 1)
      end
  end.

Definition runes (s : string) : list N := runesFrom s 0.

(** The conversion [byte(x)]: the low eight bits. *)
Definition byte (x : N) : N := N_of_ascii (ascii_of_N x).

(** [AppendRune(nil, r)]: the encoding of [r], that of [RuneError] for a
    rune out of range or a surrogate half. *)
Definition AppendRune (r : N) : string :=
  if (r <=? rune1Max) then String (ascii_of_N (byte r)) EmptyString
  else if (r <=? rune2Max) then
    String (ascii_of_N (N.lor t2 (byte (N.shiftr r 6))))
      (String (ascii_of_N (N.lor tx (N.land (byte r) maskx))) EmptyString)
  else
    let r := if (MaxRune <? r) || between surrogateMin surrogateMax r then RuneError else r in
    if (r <=? rune3Max) then
      String (ascii_of_N (N.lor t3 (byte (N.shiftr r 12))))
        (String (ascii_of_N (N.lor tx (N.land (byte (N.shiftr r 6)) maskx)))
           (String (ascii_of_N (N.lor tx (N.land (byte r) maskx))) EmptyString))
    else
      String (ascii_of_N (N.lor t4 (byte (N.shiftr r 18))))
        (String (ascii_of_N (N.lor tx (N.land (byte (N.shiftr r 12)) maskx)))
           (String (ascii_of_N (N.lor tx (N.land (byte (N.shiftr r 6)) maskx)))
              (String (ascii_of_N (N.lor tx (N.land (byte r) maskx))) EmptyString))).

End utf8.

Module unicode.

#[local] Open Scope N_scope.

Definition MaxASCII : N := 0x7F.

(** The lower case that the case ranges of the package give for a rune
    above ASCII, [To(LowerCase, r)]. The ranges are data of Go's library,
    several thousand entries that change with the version of Unicode: they
    are a parameter here, and what is proved holds whatever they are. *)
Class CaseRanges := lowerCase : N -> N.

Definition ToLower {ranges : CaseRanges} (r : N) : N :=
  if (r <=? MaxASCII) then
    if ((65 <=? r) && (r <=? 90)) then r + 32 else r
  else lowerCase r.

End unicode.

(** ** Go's [strings] package, on byte strings *)

Module strings.

Definition len (s : string) : Z := Z.of_nat (String.length s).

(** [s[lo:hi]] *)
Definition slice (s : string) (lo hi : Z) : string :=
  String.substring (Z.to_nat lo) (Z.to_nat (hi - lo)) s.

(** [s[lo:]] *)
Definition sliceFrom (s : string) (lo : Z) : string :=
  String.substring (Z.to_nat lo) (String.length s - Z.to_nat lo) s.

Definition HasPrefix (s prefix : string) : bool := String.prefix prefix s.

Definition Index (s substr : string) : Z :=
  match String.index 0 substr s with
  | Some i => Z.of_nat i
  | None => -1
  end.

Fixpoint lastIndexFrom (s substr : string) : option nat :=
  match s with
  | EmptyString => if String.prefix substr EmptyString then Some 0%nat else None
  | String _ s' =>
      match lastIndexFrom s' substr with
      | Some i => Some (S i)
      | None => if String.prefix substr s then Some 0%nat else None
      end
  end.

Definition LastIndex (s substr : string) : Z :=
  match lastIndexFrom s substr with
  | Some i => Z.of_nat i
  | None => -1
  end.

Definition Contains (s substr : string) : bool := 0 <=? Index s substr.

(** [Split] for a non-empty separator: the pieces between the leftmost
    non-overlapping occurrences of [sep]. [skip] counts the bytes of an
    occurrence of [sep] that remain to be passed over. The result always
    has a first piece. *)
Fixpoint splitFrom (sep s : string) (skip : nat) : list string :=
  match s with
  | EmptyString => [EmptyString]
  | String c s' =>
      match skip with
      | S k => splitFrom sep s' k
      | O =>
          if String.prefix sep s
          then EmptyString :: splitFrom sep s' (String.length sep - 1)
          else match splitFrom sep s' 0 with
               | piece :: rest => String c piece :: rest
               | [] => [String c EmptyString]
               end
      end
  end.

Definition Split (s sep : string) : list string := splitFrom sep s 0.

Fixpoint Join (elems : list string) (sep : string) : string :=
  match elems with
  | [] => EmptyString
  | [e] => e
  | e :: rest => e +:+ sep +:+ Join rest sep
  end.

(** For a non-empty [old], Go's [ReplaceAll] rewrites the leftmost
    non-overlapping occurrences, which is what splitting and joining
    does. *)
Definition ReplaceAll (s old new : string) : string := Join (Split s old) new.

Fixpoint inCutset (cutset : string) (c : ascii) : bool :=
  match cutset with
  | EmptyString => false
  | String d rest => Ascii.eqb c d || inCutset rest c
  end.

Fixpoint TrimLeft (s cutset : string) : string :=
  match s with
  | EmptyString => EmptyString
  | String c s' => if inCutset cutset c then TrimLeft s' cutset else s
  end.

Fixpoint TrimRight (s cutset : string) : string :=
  match s with
  | EmptyString => EmptyString
  | String c s' =>
      match TrimRight s' cutset with
      | EmptyString => if inCutset cutset c then EmptyString else String c EmptyString
      | r => String c r
      end
  end.

(** [Trim] with a cutset of ASCII bytes, as both callers have it. *)
Definition Trim (s cutset : string) : string := TrimRight (TrimLeft s cutset) cutset.

(** The white space of [unicode.IsSpace]: six ASCII bytes, and the UTF-8
    encodings of U+0085, U+00A0, U+1680, U+2000..U+200A, U+2028, U+2029,
    U+202F, U+205F and U+3000. [spaceWidth s] is the width of the white
    space rune [s] starts with, [0] when it starts with none. *)
Definition asciiSpace (c : ascii) : bool := inCutset (String "009" (String "010" (String "011" (String "012" (String "013" " "))))) c.

Definition spaceWidth (s : string) : nat :=
  match s with
  | EmptyString => 0
  | String c rest =>
      if asciiSpace c then 1
      else match N_of_ascii c, rest with
           | 194%N, String d _ =>
               match N_of_ascii d with 133%N | 160%N => 2 | _ => 0 end
           | 225%N, String d (String e _) =>
               match N_of_ascii d, N_of_ascii e with 154%N, 128%N => 3 | _, _ => 0 end
           | 226%N, String d (String e _) =>
               match N_of_ascii d with
               | 128%N => if ((128 <=? N_of_ascii e) && (N_of_ascii e <=? 138))%N
                             || (N_of_ascii e =? 168)%N || (N_of_ascii e =? 169)%N
                             || (N_of_ascii e =? 175)%N
                          then 3 else 0
               | 129%N => if (N_of_ascii e =? 159)%N then 3 else 0
               | _ => 0
               end
           | 227%N, String d (String e _) =>
               match N_of_ascii d, N_of_ascii e with 128%N, 128%N => 3 | _, _ => 0 end
           | _, _ => 0
           end
  end%nat.

(** Leading white space goes rune by rune. *)
Fixpoint trimSpaceLeft (fuel : nat) (s : string) : string :=
  match fuel with
  | O => s
  | S n =>
      match spaceWidth s with
      | O => s
      | w => trimSpaceLeft n (String.substring w (String.length s - w) s)
      end
  end.

(** A white space rune is the last rune of [s] exactly when [s] ends with
    its encoding (a two or three byte encoding starts with a byte that is
    no continuation byte, so decoding backwards finds it). [endsWithSpace
    s] is the width of that rune, [0] when there is none. *)
Definition lastBytes (n : nat) (s : string) : string :=
  String.substring (String.length s - n) n s.

Definition endsWithSpace (s : string) : nat :=
  let n := String.length s in
  if ((1 <=? n) && (spaceWidth (lastBytes 1 s) =? 1))%nat then 1%nat
  else if ((2 <=? n) && (spaceWidth (lastBytes 2 s) =? 2))%nat then 2%nat
  else if ((3 <=? n) && (spaceWidth (lastBytes 3 s) =? 3))%nat then 3%nat
  else 0%nat.

Fixpoint trimSpaceRight (fuel : nat) (s : string) : string :=
  match fuel with
  | O => s
  | S n =>
      match endsWithSpace s with
      | O => s
      | w => trimSpaceRight n (String.substring 0 (String.length s - w) s)
      end
  end.

Definition TrimSpace (s : string) : string :=
  trimSpaceRight (String.length s) (trimSpaceLeft (String.length s) s).

(** [Map] with a mapping that gives no negative rune, as [unicode.ToLower]
    is: the result is made of the encodings of the images of the runes of
    [s], in their order. A byte of [s] that starts no well-formed sequence
    is read as [utf8.RuneError], so the three bytes of the image of that
    rune stand for it in the result. *)
Definition Map (mapping : N -> N) (s : string) : string :=
  fold_right (fun c out => utf8.AppendRune (mapping c) +:+ out) EmptyString (utf8.runes s).

(** [c += 'a' - 'A'] for an upper case letter [c] *)
Definition lowerByte (c : ascii) : ascii :=
  let n := N_of_ascii c in
  if ((65 <=? n) && (n <=? 90))%N then ascii_of_N (n + 32) else c.

Fixpoint isASCII (s : string) : bool :=
  match s with
  | EmptyString => true
  | String c s' => (N_of_ascii c <? utf8.RuneSelf)%N && isASCII s'
  end.

Fixpoint lowerASCII (s : string) : string :=
  match s with
  | EmptyString => EmptyString
  | String c s' => String (lowerByte c) (lowerASCII s')
  end.

(** [ToLower]: a string of ASCII bytes has its upper case letters lowered
    byte by byte; any other string is mapped rune by rune with
    [unicode.ToLower]. *)
Definition ToLower {ranges : unicode.CaseRanges} (s : string) : string :=
  if isASCII s then lowerASCII s
  else Map unicode.ToLower s.

End strings.

(** ** Errors, results and the outside world *)

Inductive Errno := ENOENT | EACCES | ENOTDIR | EISDIR | EIO | ENOSPC | EROFS.

(** The [error] values that reach the package: the package's own sentinel,
    [bufio.ErrTooLong], what running a command reports, [*fs.PathError]
    from the [os] calls, [os.ErrInvalid], what the host information library
    reports, and an error wrapped by [fmt.Errorf] with [%w]. *)
Inductive error :=
| errPackageNotFound
| ErrTooLong
| ExecError (msg : string)
| PathError (op path : string) (errno : Errno)
| ErrInvalid
| InfoError (msg : string)
| Wrapped (msg : string) (err : error).

Inductive Result (T : Type) :=
| Ok (v : T)
| Err (e : error).
Arguments Ok {T} v.
Arguments Err {T} e.

(** [errors.Is(err, errPackageNotFound)] *)
Fixpoint isPackageNotFound (err : error) : bool :=
  match err with
  | errPackageNotFound => true
  | Wrapped _ e => isPackageNotFound e
  | _ => false
  end.

(** [os.IsNotExist(err)] and [errors.Is(err, os.ErrNotExist)]: they agree on
    the errors of the [os] calls, which are never wrapped. *)
Definition IsNotExist (err : error) : bool :=
  match err with
  | PathError _ _ ENOENT => true
  | _ => false
  end.

Inductive Level := DebugLevel | WarnLevel | ErrorLevel.

Inductive Field :=
| FString (key value : string)
| FError (err : error).

Record LogEntry := { level : Level; message : string; fields : list Field }.

Inductive Context :=
| Background
| WithTimeout (parent : Context) (timeout : Z).

(** [goInfo.GoInfoObject] *)
Record GoInfoObject := {
  GoOS : string; Kernel : string; Core : string; Platform : string;
  OS : string; Hostname : string; CPUs : Z }.

Inductive Syscall :=
| SysStat (path : string)
| SysMkdirAll (path : string)
| SysOpen (path : string)
| SysFstat (path : string)
| SysClose (path : string)
| SysWriteFile (path : string).

(** The machine the agent runs on.
    - The file system is the set of directories and the content of the
      regular files, by path; [fault] makes a call fail with an error of
      the caller's choice, which stands for every failure the flat file
      system does not produce by itself (permissions, a full disk, a file
      where a directory is expected). An opened regular file is read whole.
    - [dirSize] is the size the file system reports for a directory.
    - [entropy] is the random source, read from position [entropyPos].
    - [hostinfo k] is what the [k]th call of [goInfo.GetInfo] reports.
    - [cmd k ctx args] is what the [k]th call of [CombinedOutput] returns
      when it is made for the command [args] under [ctx]: the combined
      output and the error, that of a program that cannot be started
      included. [execs] lists the argument vectors of these calls, latest
      first: the commands the package has had run, not the processes of the
      machine. What a library runs by its own means, as [goInfo.GetInfo]
      does, is no part of it and comes with [hostinfo].
    - [log] is what the logger received, latest first. *)
Record World := {
  dirs : gset string;
  files : gmap string string;
  fault : Syscall -> option Errno;
  dirSize : Z;
  entropy : nat -> ascii;
  entropyPos : nat;
  clock : Z;
  hostinfo : nat -> Result GoInfoObject;
  hostinfoCalls : nat;
  cmd : nat -> Context -> list string -> string * option error;
  execs : list (list string);
  log : list LogEntry }.

Definition M (A : Type) : Type := World -> A * World.

Definition ret {A} (a : A) : M A := fun w => (a, w).
Definition bind {A B} (c : M A) (k : A -> M B) : M B :=
  fun w => let (a, w') := c w in k a w'.

Notation "'let*' x ':=' c 'in' k" := (bind c (fun x => k))
  (at level 10, x pattern, c at level 100, k at level 200).
Notation "c ';;' k" := (bind c (fun _ => k))
  (at level 100, k at level 200, right associativity).

Definition withLog (l : list LogEntry) (w : World) : World :=
  {| dirs := dirs w; files := files w; fault := fault w; dirSize := dirSize w;
     entropy := entropy w; entropyPos := entropyPos w; clock := clock w;
     hostinfo := hostinfo w; hostinfoCalls := hostinfoCalls w;
     cmd := cmd w; execs := execs w; log := l |}.

Definition withDirs (d : gset string) (w : World) : World :=
  {| dirs := d; files := files w; fault := fault w; dirSize := dirSize w;
     entropy := entropy w; entropyPos := entropyPos w; clock := clock w;
     hostinfo := hostinfo w; hostinfoCalls := hostinfoCalls w;
     cmd := cmd w; execs := execs w; log := log w |}.

Definition withFiles (f : gmap string string) (w : World) : World :=
  {| dirs := dirs w; files := f; fault := fault w; dirSize := dirSize w;
     entropy := entropy w; entropyPos := entropyPos w; clock := clock w;
     hostinfo := hostinfo w; hostinfoCalls := hostinfoCalls w;
     cmd := cmd w; execs := execs w; log := log w |}.

Definition withEntropyPos (n : nat) (w : World) : World :=
  {| dirs := dirs w; files := files w; fault := fault w; dirSize := dirSize w;
     entropy := entropy w; entropyPos := n; clock := clock w;
     hostinfo := hostinfo w; hostinfoCalls := hostinfoCalls w;
     cmd := cmd w; execs := execs w; log := log w |}.

Definition withHostinfoCalls (n : nat) (w : World) : World :=
  {| dirs := dirs w; files := files w; fault := fault w; dirSize := dirSize w;
     entropy := entropy w; entropyPos := entropyPos w; clock := clock w;
     hostinfo := hostinfo w; hostinfoCalls := n;
     cmd := cmd w; execs := execs w; log := log w |}.

Definition withExecs (e : list (list string)) (w : World) : World :=
  {| dirs := dirs w; files := files w; fault := fault w; dirSize := dirSize w;
     entropy := entropy w; entropyPos := entropyPos w; clock := clock w;
     hostinfo := hostinfo w; hostinfoCalls := hostinfoCalls w;
     cmd := cmd w; execs := e; log := log w |}.

(** A call of the [zap] logger *)
Definition logw (lvl : Level) (msg : string) (fs : list Field) : M unit :=
  fun w => (tt, withLog ({| level := lvl; message := msg; fields := fs |} :: log w) w).

(** ** [bufio.Scanner]

    The scanner hands the split function what its buffer holds, and the
    buffer grows up to [maxScanTokenSize] bytes. Both split functions of the
    package look for the first line feed and need nothing after it, so the
    model calls the split function once on all the buffer can hold: first
    as long as the end of the input is not known ([atEOF = false]), and, when
    that gives no token, either the buffer is full ([ErrTooLong]) or the
    whole rest of the input is in it and the function is called again with
    [atEOF = true]. *)

Definition SplitFunc := string -> bool -> Z * option string * option error.

Record Scanner := {
  src : string;            (* the input not consumed yet *)
  token : string;          (* the last token *)
  scanErr : option error   (* the first error that is no end of input *) }.

Definition maxScanTokenSize : Z := 64 * 1024.

Definition NewScanner (input : string) : Scanner :=
  {| src := input; token := EmptyString; scanErr := None |}.

Definition Text (s : Scanner) : string := token s.
Definition ScannerErr (s : Scanner) : option error := scanErr s.

Definition deliver (s : Scanner) (r : Z * option string * option error)
    (otherwise : bool * Scanner) : bool * Scanner :=
  match r with
  | (_, _, Some e) => (false, {| src := EmptyString; token := EmptyString; scanErr := Some e |})
  | (advance, Some tok, None) =>
      (true, {| src := strings.sliceFrom (src s) advance; token := tok; scanErr := None |})
  | (_, None, None) => otherwise
  end.

Definition Scan (split : SplitFunc) (s : Scanner) : bool * Scanner :=
  match scanErr s with
  | Some _ => (false, s)
  | None =>
      if strings.len (src s) =? 0 then deliver s (split EmptyString true) (false, s)
      else if strings.len (src s) <? maxScanTokenSize then
        deliver s (split (src s) false)
          (deliver s (split (src s) true)
             (false, {| src := EmptyString; token := EmptyString; scanErr := None |}))
      else
        deliver s (split (strings.slice (src s) 0 maxScanTokenSize) false)
          (false, {| src := src s; token := EmptyString; scanErr := Some ErrTooLong |})
  end.

(** [for scanner.Scan() { ... }] where the body either goes on to the next
    token ([None]) or leaves the loop with a value ([Some v]). Every token
    consumes input, so [fuel] above the length of the input is never used
    up. *)
Fixpoint scanLoop {A} (fuel : nat) (split : SplitFunc) (body : string -> option A)
    (s : Scanner) : option A * Scanner :=
  match fuel with
  | O => (None, s)
  | S n =>
      let (more, s') := Scan split s in
      if more then
        match body (Text s') with
        | Some v => (Some v, s')
        | None => scanLoop n split body s'
        end
      else (None, s')
  end.

Definition forScan {A} (split : SplitFunc) (body : string -> option A) (s : Scanner)
  : option A * Scanner :=
  scanLoop (S (String.length (src s))) split body s.

Definition dropCR (data : string) : string :=
  if (0 <? strings.len data)
     && (String.eqb (strings.sliceFrom data (strings.len data - 1)) (String "013" EmptyString))
  then strings.slice data 0 (strings.len data - 1)
  else data.

Definition newline : string := String "010" EmptyString.

(** [bufio.ScanLines], the split function of a new scanner *)
Definition ScanLines (data : string) (atEOF : bool) : Z * option string * option error :=
  if atEOF && (strings.len data =? 0) then (0, None, None)
  else
    let i := strings.Index data newline in
    if 0 <=? i then (i + 1, Some (dropCR (strings.slice data 0 i)), None)
    else if atEOF then (strings.len data, Some (dropCR data), None)
    else (0, None, None).

(** ** The package scraper *)

Record Package := { Name : string; Version : string }.

Definition pkgResultTimeout : Z := 30 * 1000000000.

(** The version of a dpkg line: the release part after the last [.] goes,
    then the epoch up to the first [:], then [+dfsg] and what follows. *)
Definition dpkgVersion (tok : string) : string :=
  let version := tok in
  let version :=
    let pos := strings.LastIndex version "." in
    if negb (pos =? -1) then strings.slice version 0 pos else version in
  let version :=
    let pos := strings.Index version ":" in
    if negb (pos =? -1) then strings.sliceFrom version (pos + 1) else version in
  let version :=
    let pos := strings.Index version "+dfsg" in
    if negb (pos =? -1) then strings.slice version 0 pos else version in
  version.

(** The body of the loop of [parseDpkgOutput]: [Some version] when the line
    sets [version] and breaks, [None] when the loop goes on. *)
Definition dpkgLine (packageName text : string) : option string :=
  let line := strings.Trim text " '" in
  if strings.len line =? 0 then None
  else
    match strings.Split line " " with
    | [tok0; tok1; tok2] =>
        if negb (String.eqb tok0 packageName) then None
        else if String.eqb tok1 "ii" then Some (dpkgVersion tok2)
        else None
    | _ => None
    end.

Definition parseDpkgOutput (packageName dpkgOutput : string) (dpkgErr : option error)
  : M (Result Package) :=
  match dpkgErr with
  | Some e =>
      if strings.Contains dpkgOutput "no packages found matching"
      then ret (Err errPackageNotFound)
      else
        logw DebugLevel "cmd output" [FString "output" dpkgOutput] ;;
        ret (Err e)
  | None =>
      let scanner := NewScanner dpkgOutput in
      let (found, scanner) := forScan ScanLines (dpkgLine packageName) scanner in
      let version := match found with Some v => v | None => EmptyString end in
      match ScannerErr scanner with
      | Some err =>
          logw WarnLevel "failed to read output from dpkg-query" [FError err] ;;
          ret (Err err)
      | None =>
          if 0 <? strings.len version
          then ret (Ok {| Name := packageName; Version := version |})
          else ret (Err errPackageNotFound)
      end
  end.

(** The version of an rpm line, from its version and release tokens. *)
Definition rpmVersion (tok1 tok2 : string) : string :=
  let release := tok2 in
  let release :=
    let pos := strings.LastIndex release "." in
    if negb (pos =? -1) then strings.slice release 0 pos else release in
  let release := strings.ReplaceAll release "." "-" in
  strings.Join [tok1; release] "-".

Definition rpmLine (packageName text : string) : option string :=
  let line := strings.Trim text " '" in
  if strings.len line =? 0 then None
  else
    match strings.Split line " " with
    | [tok0; tok1; tok2] =>
        if negb (String.eqb tok0 packageName) then None
        else Some (rpmVersion tok1 tok2)
    | _ => None
    end.

Definition parseRpmOutput (packageName rpmOutput : string) (rpmErr : option error)
  : M (Result Package) :=
  match rpmErr with
  | Some e =>
      if strings.Contains rpmOutput "is not installed"
      then ret (Err errPackageNotFound)
      else
        logw DebugLevel "cmd output" [FString "output" rpmOutput] ;;
        ret (Err e)
  | None =>
      let scanner := NewScanner rpmOutput in
      let (found, scanner) := forScan ScanLines (rpmLine packageName) scanner in
      let version := match found with Some v => v | None => EmptyString end in
      match ScannerErr scanner with
      | Some err =>
          logw WarnLevel "failed to read output from rpm" [FError err] ;;
          ret (Err err)
      | None =>
          if 0 <? strings.len version
          then ret (Ok {| Name := packageName; Version := version |})
          else ret (Err errPackageNotFound)
      end
  end.


(** [exec.CommandContext(ctx, args[0], args[1:]...).CombinedOutput()]: the
    call is recorded and answered by the world, whether the program runs or
    cannot be started. *)
Definition CombinedOutput (ctx : Context) (args : list string) : M (string * option error) :=
  fun w => (cmd w (List.length (execs w)) ctx args, withExecs (args :: execs w) w).

(** [goInfo.GetInfo()]: the library asks the system by means of its own,
    which are not among the commands of the package; the world answers. *)
Definition GetInfo : M (Result GoInfoObject) :=
  fun w => (hostinfo w (hostinfoCalls w), withHostinfoCalls (S (hostinfoCalls w)) w).

Definition getOSInfo : M string :=
  let* r := GetInfo in
  match r with
  | Err _ => ret "unknown"
  | Ok gi => ret (OS gi +:+ " " +:+ Core gi)
  end.

Definition getHardwareInfo : M string :=
  let* r := GetInfo in
  match r with
  | Err _ => ret "unknown"
  | Ok gi => ret (Platform gi)
  end.

Definition getDeploymentInfo : M string := ret "PACKAGE".

Definition queryPkgFunc := Context -> string -> M (Result Package).

Definition queryDpkg : queryPkgFunc := fun ctx packageName =>
  let args := ["dpkg-query"; "-f"; "'${Package} ${db:Status-Abbrev}${Version}'"; "-W"; packageName] in
  logw DebugLevel "executing command" [FString "cmd" (strings.Join args " ")] ;;
  let cmdCtx := WithTimeout ctx pkgResultTimeout in
  let* (outputB, err) := CombinedOutput cmdCtx args in
  parseDpkgOutput packageName outputB err.

Definition queryRpm : queryPkgFunc := fun ctx packageName =>
  let args := ["rpm"; "-q"; packageName; "--queryformat"; "'%{NAME} %{VERSION} %{RELEASE}'"] in
  logw DebugLevel "executing command" [FString "cmd" (strings.Join args " ")] ;;
  let cmdCtx := WithTimeout ctx pkgResultTimeout in
  let* (outputB, err) := CombinedOutput cmdCtx args in
  parseRpmOutput packageName outputB err.

Definition getDebianPackages : list string :=
  [ "Percona-Server-server-5.7"; "Percona-Xtradb-Cluster-server-5.7";
    "percona-postgresql-14"; "percona-postgresql-15"; "percona-postgresql-16" ].

Definition getRhelPackages : list string :=
  [ "Percona-Server-server-57"; "Percona-XtraDB-Cluster-server-57";
    "percona-postgresql14-server"; "percona-postgresql15-server";
    "percona-postgresql16-server" ].

Definition getCommonPackages : list string :=
  [ "percona-server-server"; "percona-server-server-pro"; "percona-mysql-shell";
    "percona-mysql-router"; "percona-mysql-router-pro"; "proxysql"; "proxysql2";
    "percona-orchestrator"; "percona-xtradb-cluster-server";
    "percona-xtradb-cluster-mysql-router";
    "percona-server-mongodb-server"; "percona-server-mongodb-server-pro";
    "percona-server-mongodb-mongos"; "percona-server-mongodb-mongos-pro";
    "percona-backup-mongodb";
    "etcd"; "percona-pgbouncer";
    "percona-xtrabackup-24"; "percona-xtrabackup-80"; "percona-xtrabackup-81";
    "percona-xtrabackup-82"; "percona-xtrabackup-83";
    "percona-toolkit";
    "percona-haproxy";
    "pmm2-client";
    "percona-telemetry-agent" ].

Definition hasAnyPrefix (nameL : string) (prefixes : list string) : bool :=
  existsb (fun prefix => strings.HasPrefix nameL prefix) prefixes.

Section FamilyDetection.

Context {ranges : unicode.CaseRanges}.

Definition isDebianFamily (name : string) : bool :=
  let nameL := strings.ToLower name in
  let prefixes := ["debian"; "ubuntu"] in
  hasAnyPrefix nameL prefixes.

Definition isRHELFamily (name : string) : bool :=
  let nameL := strings.ToLower name in
  let prefixes := ["el"; "centos"; "oracle"; "rocky"; "red hat"; "amazon"; "alma"] in
  hasAnyPrefix nameL prefixes.

(** The loop of [ScrapeInstalledPackages] over [pkgList] *)
Fixpoint scrapeLoop (pkgFunc : queryPkgFunc) (ctx : Context) (pkgList : list string)
    (toReturn : list Package) : M (list Package) :=
  match pkgList with
  | [] => ret toReturn
  | pName :: rest =>
      let* r := pkgFunc ctx pName in
      match r with
      | Err err =>
          (if negb (isPackageNotFound err)
           then logw WarnLevel "failed to get package info" [FError err; FString "package" pName]
           else ret tt) ;;
          scrapeLoop pkgFunc ctx rest toReturn
      | Ok pkg => scrapeLoop pkgFunc ctx rest (toReturn ++ [pkg])
      end
  end.

Definition ScrapeInstalledPackages (ctx : Context) : M (list Package) :=
  let pkgList := getCommonPackages in
  let* localOs := getOSInfo in
  let toReturn := [] in
  if isDebianFamily localOs then
    scrapeLoop queryDpkg ctx (pkgList ++ getDebianPackages) toReturn
  else if isRHELFamily localOs then
    scrapeLoop queryRpm ctx (pkgList ++ getRhelPackages) toReturn
  else
    logw WarnLevel "unsupported package system" [FString "OS" localOs] ;;
    ret toReturn.

End FamilyDetection.

(** ** Paths, files and identifiers *)

Module filepath.

(** The elements of a path are what stands between its separators. [Clean]
    drops the empty and [.] elements and lets a [..] take back the element
    before it; a rooted path has nothing above its root, any other path
    keeps the [..] it cannot resolve. [out] is the cleaned path so far,
    last element first. *)
Fixpoint cleanElems (rooted : bool) (todo out : list string) : list string :=
  match todo with
  | [] => out
  | e :: rest =>
      if String.eqb e EmptyString || String.eqb e "." then cleanElems rooted rest out
      else if String.eqb e ".." then
        match out with
        | top :: below =>
            if String.eqb top ".." then cleanElems rooted rest (e :: out)
            else cleanElems rooted rest below
        | [] => if rooted then cleanElems rooted rest [] else cleanElems rooted rest [e]
        end
      else cleanElems rooted rest (e :: out)
  end.

Definition Clean (path : string) : string :=
  if strings.len path =? 0 then "."
  else
    let rooted := strings.HasPrefix path "/" in
    let out := rev (cleanElems rooted (strings.Split path "/") []) in
    if rooted then "/" +:+ strings.Join out "/"
    else match out with
         | [] => "."
         | _ => strings.Join out "/"
         end.

Definition Dir (path : string) : string :=
  let i := strings.LastIndex path "/" in
  Clean (strings.slice path 0 (i + 1)).

End filepath.

Module os.

(** [*os.File]: the path it was opened with and what reading it gives,
    [None] for a directory, which can be opened but not read. *)
Record File := { fname : string; fdata : option string }.

Definition ModePerm : Z := 511. (* 0o777 *)

Definition isRegular (name : string) (w : World) : bool :=
  match files w !! name with Some _ => true | None => false end.

Definition Stat (name : string) : M (option error) :=
  fun w =>
    match fault w (SysStat name) with
    | Some e => (Some (PathError "stat" name e), w)
    | None =>
        if bool_decide (name ∈ dirs w) || isRegular name w then (None, w)
        else (Some (PathError "stat" name ENOENT), w)
    end.

(** The directory and the directories above it, up to the root or to the
    current directory. *)
Fixpoint upwards (fuel : nat) (path : string) : list string :=
  match fuel with
  | O => [path]
  | S n =>
      let parent := filepath.Dir path in
      if String.eqb parent path then [path] else path :: upwards n parent
  end.

Definition MkdirAll (path : string) (perm : Z) : M (option error) :=
  fun w =>
    match fault w (SysMkdirAll path) with
    | Some e => (Some (PathError "mkdir" path e), w)
    | None =>
        if isRegular path w then (Some (PathError "mkdir" path ENOTDIR), w)
        else (None, withDirs (dirs w ∪ list_to_set (upwards (String.length path) path)) w)
    end.

(** The file comes with the error, as the caller uses both. *)
Definition Open (name : string) : M (option File * option error) :=
  fun w =>
    match fault w (SysOpen name) with
    | Some e => ((None, Some (PathError "open" name e)), w)
    | None =>
        match files w !! name with
        | Some data => ((Some {| fname := name; fdata := Some data |}, None), w)
        | None =>
            if bool_decide (name ∈ dirs w)
            then ((Some {| fname := name; fdata := None |}, None), w)
            else ((None, Some (PathError "open" name ENOENT)), w)
        end
    end.

(** [file.Stat()], of which the caller reads the size, also on the nil
    file. The size of a directory is the file system's choice. *)
Definition FileStat (file : option File) : M (Result Z) :=
  fun w =>
    match file with
    | None => (Err ErrInvalid, w)
    | Some f =>
        match fault w (SysFstat (fname f)) with
        | Some e => (Err (PathError "stat" (fname f) e), w)
        | None =>
            match fdata f with
            | Some data => (Ok (strings.len data), w)
            | None => (Ok (dirSize w), w)
            end
        end
    end.

(** [file.Close()], also on the nil file *)
Definition Close (file : option File) : M (option error) :=
  fun w =>
    match file with
    | None => (Some ErrInvalid, w)
    | Some f =>
        match fault w (SysClose (fname f)) with
        | Some e => (Some (PathError "close" (fname f) e), w)
        | None => (None, w)
        end
    end.

Definition WriteFile (name data : string) (perm : Z) : M (option error) :=
  fun w =>
    match fault w (SysWriteFile name) with
    | Some e => (Some (PathError "open" name e), w)
    | None =>
        if bool_decide (name ∈ dirs w) then (Some (PathError "open" name EISDIR), w)
        else if negb (bool_decide (filepath.Dir name ∈ dirs w))
        then (Some (PathError "open" name ENOENT), w)
        else (None, withFiles (<[name := data]> (files w)) w)
    end.

(** The scanner over an opened file: a regular file is read whole, reading
    a directory fails at once. *)
Definition NewFileScanner (file : option File) : Scanner :=
  match file with
  | None => {| src := EmptyString; token := EmptyString; scanErr := Some ErrInvalid |}
  | Some f =>
      match fdata f with
      | Some data => NewScanner data
      | None => {| src := EmptyString; token := EmptyString;
                   scanErr := Some (PathError "read" (fname f) EISDIR) |}
      end
  end.

End os.

Module uuid.

(** Sixteen bytes, each in [0, 256). *)
Definition UUID := list Z.

Definition hextable : string := "0123456789abcdef".

Definition hexDigit (v : Z) : ascii :=
  match String.get (Z.to_nat v) hextable with
  | Some c => c
  | None => "0"%char
  end.

(** [hex.Encode] *)
Fixpoint hexEncode (bs : list Z) : string :=
  match bs with
  | [] => EmptyString
  | v :: rest =>
      String (hexDigit (Z.shiftr v 4)) (String (hexDigit (Z.land v 15)) (hexEncode rest))
  end.

Definition sub (u : UUID) (lo hi : nat) : list Z := firstn (hi - lo) (skipn lo u).
Definition setByte (u : UUID) (i : nat) (f : Z -> Z) : UUID :=
  match u !! i with
  | Some v => <[i := f v]> u
  | None => u
  end.

(** [uuid.New()]: sixteen bytes of the random source, with the version
    and variant bits of a version 4 identifier. *)
Definition New : M UUID :=
  fun w =>
    let raw := map (fun k => Z.of_N (N_of_ascii (entropy w (entropyPos w + k)%nat))) (seq 0 16) in
    let u := setByte raw 6 (fun v => Z.lor (Z.land v 15) 64) in
    let u := setByte u 8 (fun v => Z.lor (Z.land v 63) 128) in
    (u, withEntropyPos (entropyPos w + 16)%nat w).

(** [UUID.String()]: xxxxxxxx-xxxx-xxxx-xxxx-xxxxxxxxxxxx *)
Definition String (u : UUID) : string :=
  hexEncode (sub u 0 4) +:+ "-" +:+ hexEncode (sub u 4 6) +:+ "-" +:+
  hexEncode (sub u 6 8) +:+ "-" +:+ hexEncode (sub u 8 10) +:+ "-" +:+
  hexEncode (sub u 10 16).

End uuid.

(** ** The host scraper *)

Definition telemetryFile : string := "/usr/local/percona/telemetry_uuid".
Definition instanceIDKey : string := "instanceId".

(** Modelled from the spec: the type [File] of package [metrics], declared
    outside the files at hand; the record of a scrape holds a timestamp, the
    path of the source file and the metrics by name. *)
Record File := {
  Timestamp : Z;
  Filename : string;
  Metrics : gmap string string }.

Definition customSplitFunc (data : string) (atEOF : bool) : Z * option string * option error :=
  if atEOF && (strings.len data =? 0) then (0, None, None)
  else if atEOF then (strings.len data, Some data, None)
  else
    let i := strings.Index data newline in
    if 0 <=? i then (i + 1, Some (strings.slice data 0 i), None)
    else (0, None, None).

Definition createTelemetryFile (instanceFile : string) : M (Result string) :=
  let* u := uuid.New in
  let instanceID := uuid.String u in
  let* err := os.WriteFile instanceFile (instanceIDKey +:+ ": " +:+ instanceID) 384 (* 0o600 *) in
  match err with
  | Some e =>
      logw ErrorLevel "failed to write Percona telemetry file" [FString "file" instanceFile; FError e] ;;
      ret (Err e)
  | None => ret (Ok instanceID)
  end.

(** The body of the loop of [getInstanceID]. *)
Definition instanceLine (text : string) : option string :=
  match strings.Split text ":" with
  | [key; value] =>
      if String.eqb key instanceIDKey then Some (strings.TrimSpace value) else None
  | _ => None
  end.

(** The deferred call of [getInstanceID], run when it returns. *)
Definition closeDeferred (file : option os.File) (fl : list Field) : M unit :=
  let* err := os.Close file in
  match err with
  | Some e => logw ErrorLevel "failed to close Percona telemetry file" (fl ++ [FError e])
  | None => ret tt
  end.

Definition getInstanceID (instanceFile : string) : M (Result string) :=
  let l := [FString "file" instanceFile] in
  logw DebugLevel "processing Percona telemetry file" l ;;
  let cleanInstanceFile := filepath.Clean instanceFile in
  let dirName := filepath.Dir cleanInstanceFile in
  let* err := os.Stat dirName in
  if match err with Some e => IsNotExist e | None => false end then
    let* err := os.MkdirAll dirName os.ModePerm in
    match err with
    | Some e =>
        logw ErrorLevel "can't create directory" (l ++ [FString "directory" dirName; FError e]) ;;
        ret (Err e)
    | None => createTelemetryFile cleanInstanceFile
    end
  else
    let* (file, err) := os.Open cleanInstanceFile in
    let* r :=
      match err with
      | Some e =>
          if negb (IsNotExist e) then
            logw ErrorLevel "failed to read Percona telemetry file, skipping" (l ++ [FError e]) ;;
            ret (Err e)
          else createTelemetryFile cleanInstanceFile
      | None =>
          let* st := os.FileStat file in
          match st with
          | Err e =>
              logw ErrorLevel "failed to get file info" (l ++ [FError e]) ;;
              ret (Err e)
          | Ok size =>
              if size =? 0 then createTelemetryFile cleanInstanceFile
              else
                let scanner := os.NewFileScanner file in
                let (found, _) := forScan customSplitFunc instanceLine scanner in
                let instanceID := match found with Some v => v | None => EmptyString end in
                (if strings.len instanceID =? 0
                 then logw ErrorLevel "failed to get Percona telemetry instanceID, it is empty" l
                 else ret tt) ;;
                ret (Ok instanceID)
          end
      end in
    closeDeferred file l ;;
    ret r.

Definition Now : M Z := fun w => (clock w, w).

Definition ScrapeHostMetrics : M (Result File) :=
  let* r := getInstanceID telemetryFile in
  match r with
  | Err err => ret (Err (Wrapped "can't get Percona telemetry instanceID" err))
  | Ok instanceID =>
      let* now := Now in
      let metrics : gmap string string := ∅ in
      let metrics := <[instanceIDKey := instanceID]> metrics in
      let* osInfo := getOSInfo in
      let metrics := <["OS" := osInfo]> metrics in
      let* deployment := getDeploymentInfo in
      let metrics := <["deployment" := deployment]> metrics in
      let* hardware := getHardwareInfo in
      let metrics := <["hardware_arch" := hardware]> metrics in
      ret (Ok {| Timestamp := now; Filename := telemetryFile; Metrics := metrics |})
  end.


(** ** The notions the properties are stated with

    These definitions do not come from the code: they say in the most direct
    way what a line, a family or a state of the identity file is, and the
    theorems compare the code with them. *)

(** *** Scanning *)

(** The value of the first element on which [body] leaves the loop. *)
Fixpoint firstSome {A B} (body : A -> option B) (l : list A) : option B :=
  match l with
  | [] => None
  | x :: rest =>
      match body x with
      | Some v => Some v
      | None => firstSome body rest
      end
  end.

(** All the tokens a scanner delivers, and the error it ends with. *)
Fixpoint scanAll (fuel : nat) (split : SplitFunc) (s : Scanner) : list string * option error :=
  match fuel with
  | O => ([], scanErr s)
  | S n =>
      let (more, s') := Scan split s in
      if more then
        let (toks, e) := scanAll n split s' in (Text s' :: toks, e)
      else ([], scanErr s')
  end.

(** The lines of the output of a package tool, as the parsers see them. *)
Definition outputLines (output : string) : list string * option error :=
  scanAll (S (String.length output)) ScanLines (NewScanner output).

(** [s] up to the first [c], and what follows that [c] when there is one. *)
Fixpoint breakAt (c : ascii) (s : string) : string * option string :=
  match s with
  | EmptyString => (EmptyString, None)
  | String a s' =>
      if Ascii.eqb a c then (EmptyString, Some s')
      else let (l, r) := breakAt c s' in (String a l, r)
  end.

(** The lines of a text: what stands between its line feeds. *)
Definition fileLines (content : string) : list string := strings.Split content newline.

(** A scanner makes progress when every token consumes input, which is what
    a split function gives when its tokens come with an advance of at least
    one byte, within the data. *)
Definition Progress (split : SplitFunc) : Prop :=
  forall s s', Scan split s = (true, s') ->
    (String.length (src s') < String.length (src s))%nat.

Definition Advances (split : SplitFunc) : Prop :=
  forall data atEOF advance tok e,
    split data atEOF = (advance, Some tok, e) -> 1 <= advance <= strings.len data.

(** The lines of a text as a reader of lines has them: every line feed
    ends a line, and what follows the last line feed is a line when it is
    not empty. *)
Fixpoint textLines (s : string) : list string :=
  match s with
  | EmptyString => []
  | String a s' =>
      if Ascii.eqb a "010" then EmptyString :: textLines s'
      else match textLines s' with
           | line :: rest => String a line :: rest
           | [] => [String a EmptyString]
           end
  end.

(** A line that fits the buffer of a scanner with the line feed that ends
    it. *)
Definition shortLine (line : string) : bool := strings.len line <? maxScanTokenSize.

(** The lines a scanner gets to: those before the first line that does not
    fit its buffer, at which the scan ends with [ErrTooLong]. *)
Fixpoint scannedLines (lines : list string) : list string * option error :=
  match lines with
  | [] => ([], None)
  | line :: rest =>
      if shortLine line
      then let (toks, e) := scannedLines rest in (line :: toks, e)
      else ([], Some ErrTooLong)
  end.

(** [line] without the carriage return it ends with, when it ends with
    one. *)
Fixpoint withoutCR (line : string) : string :=
  match line with
  | EmptyString => EmptyString
  | String a rest =>
      match rest with
      | EmptyString => if Ascii.eqb a "013" then EmptyString else line
      | String _ _ => String a (withoutCR rest)
      end
  end.

(** The lines of the output that a parser gets to read, and the error its
    reading ends with: the lines before the first that does not fit the
    buffer, each without the carriage return it ends with. *)
Definition readLines (output : string) : list string * option error :=
  let (lines, e) := scannedLines (textLines output) in (map withoutCR lines, e).

(** *** Versions *)

(** [s] up to its last [c], all of [s] when it has none. *)
Fixpoint uptoLast (c : ascii) (s : string) : option string :=
  match s with
  | EmptyString => None
  | String a s' =>
      match uptoLast c s' with
      | Some r => Some (String a r)
      | None => if Ascii.eqb a c then Some EmptyString else None
      end
  end.

Definition withoutLastSegment (c : ascii) (s : string) : string :=
  match uptoLast c s with Some r => r | None => s end.

(** [s] after its first [c], all of [s] when it has none. *)
Fixpoint afterFirst (c : ascii) (s : string) : option string :=
  match s with
  | EmptyString => None
  | String a s' => if Ascii.eqb a c then Some s' else afterFirst c s'
  end.

Definition withoutEpoch (s : string) : string :=
  match afterFirst ":" s with Some r => r | None => s end.

(** [s] up to the first occurrence of [marker], all of [s] when it has
    none. *)
Fixpoint cutAt (marker s : string) : string :=
  if String.prefix marker s then EmptyString
  else match s with
       | EmptyString => EmptyString
       | String a s' => String a (cutAt marker s')
       end.

Fixpoint replaceByte (old new : ascii) (s : string) : string :=
  match s with
  | EmptyString => EmptyString
  | String a s' => String (if Ascii.eqb a old then new else a) (replaceByte old new s')
  end.

(** A line qualifies for a package when, trimmed, it is the package name, a
    status and a version with one space between them. *)
Definition threeTokens (text : string) : option (string * string * string) :=
  match strings.Split (strings.Trim text " '") " " with
  | [a; b; c] => Some (a, b, c)
  | _ => None
  end.

(** The bytes a line is trimmed of: the space and the quote. *)
Definition blankOrQuote (a : ascii) : bool := Ascii.eqb a " " || Ascii.eqb a "'".

(** [l] from its first element that [drop] does not take. *)
Fixpoint skipWhile {A} (drop : A -> bool) (l : list A) : list A :=
  match l with
  | [] => []
  | a :: l' => if drop a then skipWhile drop l' else l
  end.

(** [text] without the spaces and quotes it starts with and ends with. *)
Definition trimmedLine (text : string) : string :=
  string_of_list_ascii
    (rev (skipWhile blankOrQuote (rev (skipWhile blankOrQuote (list_ascii_of_string text))))).

(** What stands before, between and after the occurrences of the byte [c]
    in [s]. *)
Fixpoint fieldsAt (c : ascii) (s : string) : list string :=
  match s with
  | EmptyString => [EmptyString]
  | String a s' =>
      if Ascii.eqb a c then EmptyString :: fieldsAt c s'
      else match fieldsAt c s' with
           | field :: rest => String a field :: rest
           | [] => [String a EmptyString]
           end
  end.

(** The version a line gives for a package: the line, trimmed, is the name
    of the package, the status [ii] and a version with one space between
    them; the version loses what follows its last dot, then the epoch up to
    its first colon, then [+dfsg] and what follows. *)
Definition installedVersion (packageName text : string) : option string :=
  match fieldsAt " " (trimmedLine text) with
  | [name; status; version] =>
      if String.eqb name packageName && String.eqb status "ii"
      then Some (cutAt "+dfsg" (withoutEpoch (withoutLastSegment "." version)))
      else None
  | _ => None
  end.

(** The outcome of a parser, from the value its loop ends with. *)
Definition parsed (packageName : string) (found : option string) (scanned : option error)
  : Result Package :=
  match found with
  | Some EmptyString => Err errPackageNotFound
  | Some version => Ok {| Name := packageName; Version := version |}
  | None =>
      match scanned with
      | Some err => Err err
      | None => Err errPackageNotFound
      end
  end.

(** [s] has the byte [c]. *)
Fixpoint hasByte (c : ascii) (s : string) : bool :=
  match s with
  | EmptyString => false
  | String a s' => Ascii.eqb a c || hasByte c s'
  end.

(** The version of a package as [dpkg-query] prints it for the packages of
    the catalogue: an epoch and a colon when there is an epoch, the version,
    [+dfsg] and what comes with it when the sources were repacked, and after
    a last dot the name of the distribution. *)
Definition debianVersion (epoch : option string) (version : string) (repack : option string)
    (distribution : string) : string :=
  (match epoch with Some e => e +:+ ":" | None => EmptyString end)
  +:+ version
  +:+ (match repack with Some x => "+dfsg" +:+ x | None => EmptyString end)
  +:+ "." +:+ distribution.

(** [s] has none of the bytes of [cutset]. *)
Fixpoint noneOf (cutset s : string) : bool :=
  match s with
  | EmptyString => true
  | String a s' => negb (strings.inCutset cutset a) && noneOf cutset s'
  end.

(** A word of the output of a package tool: not empty, and without space,
    quote or line feed. *)
Definition isWord (s : string) : bool :=
  negb (String.eqb s EmptyString) && noneOf (String " " (String "'" newline)) s.

(** The line a package tool prints for three words under the format of the
    queries, which puts them between quotes. *)
Definition quotedLine (a b c : string) : string :=
  "'" +:+ a +:+ " " +:+ b +:+ " " +:+ c +:+ "'".

(** *** Families *)

Inductive Family := DebianFamily | RhelFamily | Unsupported.

Definition debianPrefixes : list string := ["debian"; "ubuntu"].
Definition rhelPrefixes : list string :=
  ["el"; "centos"; "oracle"; "rocky"; "red hat"; "amazon"; "alma"].

(** The runes [codes] start with the bytes of [prefix]. *)
Fixpoint startsWithCodes (prefix : string) (codes : list N) : bool :=
  match prefix, codes with
  | EmptyString, _ => true
  | String p prefix', r :: codes' => (r =? N_of_ascii p)%N && startsWithCodes prefix' codes'
  | String _ _, [] => false
  end.

Section Casing.

Context {ranges : unicode.CaseRanges}.

Definition familyOf (name : string) : Family :=
  if isDebianFamily name then DebianFamily
  else if isRHELFamily name then RhelFamily
  else Unsupported.

(** [name] starts with [prefix] when the case of its runes is left aside:
    the lower cases of its first runes are the bytes of [prefix]. *)
Definition startsWithCasing (prefix name : string) : bool :=
  startsWithCodes prefix (map unicode.ToLower (utf8.runes name)).

End Casing.

(** Two bytes that differ at most by the case of an ASCII letter. *)
Definition sameLetter (a b : ascii) : bool :=
  Ascii.eqb a b
  || (let x := N_of_ascii a in let y := N_of_ascii b in
      ((65 <=? x) && (x <=? 90) && (y =? x + 32))%N
      || ((65 <=? y) && (y <=? 90) && (x =? y + 32))%N).

(** [s] is [t] in another casing of the ASCII letters. *)
Fixpoint equalFold (s t : string) : bool :=
  match s, t with
  | EmptyString, EmptyString => true
  | String a s', String b t' => sameLetter a b && equalFold s' t'
  | _, _ => false
  end.

(** [s] starts with [prefix] in some casing of the ASCII letters. *)
Fixpoint startsWithFold (prefix s : string) : bool :=
  match prefix, s with
  | EmptyString, _ => true
  | String p prefix', String a s' => sameLetter a p && startsWithFold prefix' s'
  | String _ _, EmptyString => false
  end.

(** A string of ASCII bytes. *)
Fixpoint asciiText (s : string) : bool :=
  match s with
  | EmptyString => true
  | String c s' => (N_of_ascii c <? 128)%N && asciiText s'
  end.

(** A string of ASCII bytes none of which is an upper case letter. *)
Fixpoint lowerCased (s : string) : bool :=
  match s with
  | EmptyString => true
  | String c s' =>
      (N_of_ascii c <? 128)%N && negb ((65 <=? N_of_ascii c) && (N_of_ascii c <=? 90))%N
      && lowerCased s'
  end.

(** *** Probes *)

(** The packages of the probes that succeeded, in the order of the probes. *)
Fixpoint foundPackages (outcomes : list (Result Package)) : list Package :=
  match outcomes with
  | [] => []
  | Ok pkg :: rest => pkg :: foundPackages rest
  | Err _ :: rest => foundPackages rest
  end.

(** What the [k]th command makes of the probe of one package. *)
Definition dpkgProbe (ctx : Context) (w : World) (k : nat) (packageName : string) : Result Package :=
  let args := ["dpkg-query"; "-f"; "'${Package} ${db:Status-Abbrev}${Version}'"; "-W"; packageName] in
  let (output, err) := cmd w k (WithTimeout ctx pkgResultTimeout) args in
  fst (parseDpkgOutput packageName output err w).

Definition rpmProbe (ctx : Context) (w : World) (k : nat) (packageName : string) : Result Package :=
  let args := ["rpm"; "-q"; packageName; "--queryformat"; "'%{NAME} %{VERSION} %{RELEASE}'"] in
  let (output, err) := cmd w k (WithTimeout ctx pkgResultTimeout) args in
  fst (parseRpmOutput packageName output err w).

(** The outcomes of the probes of a catalogue, the first of them being the
    [k]th command. *)
Fixpoint probeOutcomes (probe : nat -> string -> Result Package) (k : nat)
    (catalogue : list string) : list (Result Package) :=
  match catalogue with
  | [] => []
  | packageName :: rest => probe k packageName :: probeOutcomes probe (S k) rest
  end.

(** The command of a probe, by family. *)
Definition dpkgCommand (packageName : string) : list string :=
  ["dpkg-query"; "-f"; "'${Package} ${db:Status-Abbrev}${Version}'"; "-W"; packageName].

Definition rpmCommand (packageName : string) : list string :=
  ["rpm"; "-q"; packageName; "--queryformat"; "'%{NAME} %{VERSION} %{RELEASE}'"].

Definition commandOf (family : Family) (packageName : string) : list string :=
  match family with
  | DebianFamily => dpkgCommand packageName
  | RhelFamily => rpmCommand packageName
  | Unsupported => []
  end.

(** The packages a scrape asks for, by family. *)
Definition catalogueOf (family : Family) : list string :=
  match family with
  | DebianFamily => getCommonPackages ++ getDebianPackages
  | RhelFamily => getCommonPackages ++ getRhelPackages
  | Unsupported => []
  end.

Definition probeOf (family : Family) (ctx : Context) (w : World) (k : nat) (packageName : string)
  : Result Package :=
  match family with
  | DebianFamily => dpkgProbe ctx w k packageName
  | RhelFamily => rpmProbe ctx w k packageName
  | Unsupported => Err errPackageNotFound
  end.

(** The package a log entry warns about, when it is the warning of the
    loop of the scraper. *)
Definition probeWarning (entry : LogEntry) : option string :=
  match level entry, fields entry with
  | WarnLevel, [FError _; FString "package" packageName] =>
      if String.eqb (message entry) "failed to get package info" then Some packageName else None
  | _, _ => None
  end.

(** The packages a log warns about, latest first as the log is. *)
Fixpoint warnedPackages (entries : list LogEntry) : list string :=
  match entries with
  | [] => []
  | entry :: rest =>
      match probeWarning entry with
      | Some packageName => packageName :: warnedPackages rest
      | None => warnedPackages rest
      end
  end.

(** The packages of a catalogue whose probe failed for another reason than
    the package not being installed. *)
Fixpoint unexpectedFailures (catalogue : list string) (outcomes : list (Result Package))
  : list string :=
  match catalogue, outcomes with
  | packageName :: catalogue', Err err :: outcomes' =>
      if isPackageNotFound err then unexpectedFailures catalogue' outcomes'
      else packageName :: unexpectedFailures catalogue' outcomes'
  | _ :: catalogue', Ok _ :: outcomes' => unexpectedFailures catalogue' outcomes'
  | _, _ => []
  end.

(** The words by which a package tool says that a package is not
    installed. *)
Definition notInstalledMark (family : Family) : string :=
  match family with
  | DebianFamily => "no packages found matching"
  | RhelFamily => "is not installed"
  | Unsupported => EmptyString
  end.

(** The line a package tool prints for an installed package. *)
Definition installedLine (family : Family) (packageName version release : string) : string :=
  match family with
  | DebianFamily => quotedLine packageName "ii" version
  | _ => quotedLine packageName version release
  end.

(** The version a parser reports for an installed package. *)
Definition reportedVersion (family : Family) (version release : string) : string :=
  match family with
  | DebianFamily => dpkgVersion version
  | _ => rpmVersion version release
  end.

(** *** The identity file *)

(** A line that gives the identifier: two parts around one colon, the first
    being the key. *)
Definition isIdentityLine (line : string) : Prop :=
  exists value, strings.Split line ":" = [instanceIDKey; value].

Definition noFault (w : World) : Prop := forall call, fault w call = None.

(** The directories [MkdirAll] makes sure of. *)
Definition madeDirs (dirName : string) : gset string :=
  list_to_set (os.upwards (String.length dirName) dirName).

(** The host after [n] calls of the identity manager. *)
Fixpoint afterCalls (n : nat) (instanceFile : string) (w : World) : World :=
  match n with
  | O => w
  | S k => snd (getInstanceID instanceFile (afterCalls k instanceFile w))
  end.

Definition isHexDigit (c : ascii) : bool := strings.inCutset uuid.hextable c.

(** A version 4 identifier in its canonical text. *)
Definition isUUIDv4 (s : string) : bool :=
  match list_ascii_of_string s with
  | [a1; a2; a3; a4; a5; a6; a7; a8; d1; b1; b2; b3; b4; d2; c1; c2; c3; c4; d3;
     e1; e2; e3; e4; d4; f1; f2; f3; f4; f5; f6; f7; f8; f9; f10; f11; f12] =>
      forallb isHexDigit
        [a1; a2; a3; a4; a5; a6; a7; a8; b1; b2; b3; b4; c1; c2; c3; c4;
         e1; e2; e3; e4; f1; f2; f3; f4; f5; f6; f7; f8; f9; f10; f11; f12]
      && forallb (Ascii.eqb "-") [d1; d2; d3; d4]
      && Ascii.eqb c1 "4"
      && strings.inCutset "89ab" e1
  | _ => false
  end.

(** The identifier the random source holds at its current position. *)
Definition nextUUID (w : World) : string := uuid.String (fst (uuid.New w)).

(** The bytes of the text of an identifier: hexadecimal digits and the
    dash. *)
Definition plainByte (c : ascii) : bool := isHexDigit c || Ascii.eqb "-" c.

Fixpoint plainString (s : string) : bool :=
  match s with
  | EmptyString => true
  | String c s' => plainByte c && plainString s'
  end.

(** The failure of a call of [os] other than reading. *)
Definition isOsFailure (err : error) : bool :=
  match err with
  | PathError op _ _ => negb (String.eqb op "read")
  | _ => false
  end.

(** A computation that only adds to the log, and whose value is as [post]
    says. *)
Definition Logs {A} (c : M A) (post : A -> Prop) : Prop :=
  forall w, (exists added, log (snd (c w)) = added ++ log w) /\ post (fst (c w)).

(** A computation that reports what goes wrong: it only adds to the log;
    when it fails, the error is the failure of a call of [os] other than
    reading and one of
    the entries it adds is of the error level and bears the error; when it
    returns the empty identifier, one of the entries it adds says so at the
    error level. *)
Definition Reports (c : M (Result string)) : Prop :=
  forall w, exists added,
    log (snd (c w)) = added ++ log w
    /\ match fst (c w) with
       | Err e =>
           isOsFailure e = true
           /\ exists entry,
                In entry added /\ level entry = ErrorLevel /\ In (FError e) (fields entry)
       | Ok instanceID =>
           instanceID = EmptyString ->
           exists entry,
             In entry added /\ level entry = ErrorLevel
             /\ message entry = "failed to get Percona telemetry instanceID, it is empty"
       end.

(** A computation that leaves the files as they are and takes no
    directory away. *)
Definition KeepsFiles {A} (c : M A) : Prop :=
  forall w, files (snd (c w)) = files w /\ dirs w ⊆ dirs (snd (c w)).

(** A computation that takes no directory away and changes no file but
    [path]; when it returns an identifier, [path] is as it was or holds the
    line of that identifier, a version 4 identifier. *)
Definition WritesIdentity (path : string) (c : M (Result string)) : Prop :=
  forall w,
    dirs w ⊆ dirs (snd (c w))
    /\ (forall other, other <> path -> files (snd (c w)) !! other = files w !! other)
    /\ match fst (c w) with
       | Ok instanceID =>
           files (snd (c w)) = files w
           \/ (isUUIDv4 instanceID = true
               /\ files (snd (c w)) = <[path := instanceIDKey +:+ ": " +:+ instanceID]> (files w))
       | Err _ => True
       end.

(** *** The host *)

(** Two worlds with the same machine around the file system: the same
    collaborators, faults and clock. *)
Definition sameHost (w w' : World) : Prop :=
  hostinfo w' = hostinfo w /\ hostinfoCalls w' = hostinfoCalls w
  /\ cmd w' = cmd w /\ execs w' = execs w
  /\ fault w' = fault w /\ dirSize w' = dirSize w
  /\ entropy w' = entropy w /\ clock w' = clock w.

(** A computation that leaves the machine around the file system as it
    is. *)
Definition Preserves {A} (c : M A) : Prop := forall w, sameHost w (snd (c w)).

(** What the host information gives for the operating system and for the
    hardware. *)
Definition osOf (r : Result GoInfoObject) : string :=
  match r with
  | Ok gi => OS gi +:+ " " +:+ Core gi
  | Err _ => "unknown"
  end.

Definition hardwareOf (r : Result GoInfoObject) : string :=
  match r with
  | Ok gi => Platform gi
  | Err _ => "unknown"
  end.

(** The host after [n] scrapes of the host metrics. *)
Fixpoint afterScrapes (n : nat) (w : World) : World :=
  match n with
  | O => w
  | S k => snd (ScrapeHostMetrics (afterScrapes k w))
  end.

(** ** Hosts to run the code on *)

(** Case ranges to run the code with: they lower the two letters above
    ASCII whose lower case is an ASCII letter, the Kelvin sign to [k] and
    the capital I with a dot to [i], and leave every other rune above ASCII
    as it is. *)
Definition sampleRanges : unicode.CaseRanges :=
  fun r => if (r =? 0x212A)%N then 0x6B%N else if (r =? 0x130)%N then 0x69%N else r.

(** [roc], the Kelvin sign in UTF-8, and [y linux 9]. *)
Definition kelvinRocky : string :=
  "roc" +:+ String "226" (String "132" (String "170" "y linux 9")).

Definition quietWorld : World :=
  {| dirs := ∅; files := ∅; fault := fun _ => None; dirSize := 4096;
     entropy := fun k => ascii_of_nat (17 * k + 3); entropyPos := 0;
     clock := 0;
     hostinfo := fun _ => Err (InfoError "uname failed"); hostinfoCalls := 0;
     cmd := fun _ _ _ => (EmptyString, None); execs := [];
     log := [] |}.

(** A host with an identity file of the given content. *)
Definition worldWithFile (content : string) : World :=
  withFiles {[ telemetryFile := content ]}
    (withDirs {[ "/usr/local/percona"; "/usr/local"; "/usr"; "/" ]} quietWorld).

(** A host whose identity file holds no identifier, and whose host
    information answers the first query and fails from the second on. *)
Definition flakyWorld : World :=
  {| dirs := dirs (worldWithFile "owner: percona");
     files := files (worldWithFile "owner: percona");
     fault := fun _ => None; dirSize := 4096;
     entropy := fun k => ascii_of_nat (17 * k + 3); entropyPos := 0;
     clock := 1700000000;
     hostinfo := fun k =>
       match k with
       | O => Ok {| GoOS := "linux"; Kernel := "Linux"; Core := "6.1.0-18-amd64";
                    Platform := "x86_64"; OS := "GNU/Linux"; Hostname := "db1"; CPUs := 4 |}
       | S _ => Err (InfoError "uname failed")
       end;
     hostinfoCalls := 0;
     cmd := fun _ _ _ => (EmptyString, None); execs := [];
     log := [] |}.

(** An identity file with a comment, the identifier on a line that ends
    with a carriage return, and a second identifier that is not read. *)
Definition annotatedIdentity : string :=
  "# percona" +:+ newline
  +:+ "instanceId: 1bed5f0d-cc3a-11ee-bd8a-c84bd64e0277" +:+ String "013" newline
  +:+ "instanceId: 00000000-0000-4000-8000-000000000000".

(** A line of [n] bytes. *)
Fixpoint padding (n : nat) : string :=
  match n with
  | O => EmptyString
  | S k => String "a" (padding k)
  end.

(** A text whose first line is as long as the buffer of a scanner, with the
    line of a package and the line of an identifier after it. *)
Definition overlongText : string :=
  padding (Z.to_nat maxScanTokenSize) +:+ newline
  +:+ "pkgA ii 1.0-1.jammy" +:+ newline +:+ "instanceId: 0a1b".

(** An output of three lines: another package, then the queried one between
    quotes, indented and with a carriage return, then the queried one
    again. *)
Definition dpkgSample : string :=
  "pkgB ii 1.0-1.jammy" +:+ newline
  +:+ "  'pkgA ii 2:8.1.0-1-1.jammy'" +:+ String "013" newline
  +:+ "pkgA ii 9.9-9.jammy".

(** A debian host. [answer] is what its [dpkg-query] makes of the package
    it is asked for, the last argument of the command. *)
Definition debianWorld (answer : string -> string * option error) : World :=
  {| dirs := ∅; files := ∅; fault := fun _ => None; dirSize := 4096;
     entropy := fun k => ascii_of_nat (17 * k + 3); entropyPos := 0;
     clock := 1700000000;
     hostinfo := fun _ =>
       Ok {| GoOS := "linux"; Kernel := "Linux"; Core := "5.15.0-91-generic";
             Platform := "x86_64"; OS := "Ubuntu"; Hostname := "db1"; CPUs := 4 |};
     hostinfoCalls := 0;
     cmd := fun _ _ args => answer (List.last args EmptyString); execs := [];
     log := [] |}.

(** * Properties *)

(** ** Byte strings *)

Section StringFacts.

Lemma substring_all (s : string) : String.substring 0 (String.length s) s = s.
Proof. induction s as [|a s IH]; simpl; [reflexivity | now rewrite IH]. Qed.

Lemma substring_none (s : string) (n : nat) : String.substring n 0 s = EmptyString.
Proof. revert n; induction s as [|a s IH]; intros [|n]; simpl; auto. Qed.

Lemma substring_length (s : string) (n m : nat) :
  (n + m <= String.length s)%nat -> String.length (String.substring n m s) = m.
Proof.
  revert n m; induction s as [|a s IH]; intros [|n] [|m]; simpl; intros H;
    try reflexivity; try lia.
  - f_equal. apply (IH 0%nat). lia.
  - apply (IH n 0%nat). lia.
  - apply (IH n (S m)). lia.
Qed.

Lemma substring_append_l (s t : string) :
  String.substring 0 (String.length s) (s +:+ t) = s.
Proof. induction s as [|a s IH]; simpl; [apply substring_none | now rewrite IH]. Qed.

Lemma substring_append_r (s t : string) (m : nat) :
  String.substring (String.length s) m (s +:+ t) = String.substring 0 m t.
Proof. induction s as [|a s IH]; simpl; auto. Qed.

Lemma length_append (s t : string) :
  String.length (s +:+ t) = (String.length s + String.length t)%nat.
Proof. induction s as [|a s IH]; simpl; auto. Qed.

Lemma prefix_single (c a : ascii) (s : string) :
  String.prefix (String c EmptyString) (String a s) = Ascii.eqb a c.
Proof.
  simpl. destruct (ascii_dec c a) as [->|Hne].
  - rewrite Ascii.eqb_refl. now destruct s.
  - symmetry. apply Ascii.eqb_neq. congruence.
Qed.

(** [breakAt] is what [Index] and the slices compute. *)
Lemma index_breakAt (c : ascii) (s : string) :
  String.index 0 (String c EmptyString) s =
  match breakAt c s with
  | (l, Some _) => Some (String.length l)
  | (_, None) => None
  end.
Proof.
  induction s as [|a s IH].
  - reflexivity.
  - cbn [String.index breakAt]. rewrite prefix_single.
    destruct (Ascii.eqb a c); [reflexivity|].
    rewrite IH. destruct (breakAt c s) as [l [r|]]; reflexivity.
Qed.

Lemma breakAt_Some (c : ascii) (s l r : string) :
  breakAt c s = (l, Some r) -> s = l +:+ String c r.
Proof.
  revert l; induction s as [|a s IH]; intros l; simpl; [discriminate|].
  destruct (Ascii.eqb_spec a c) as [->|Hne].
  - intros [= <- <-]. reflexivity.
  - destruct (breakAt c s) as [l' r'] eqn:E. intros [= <- ->].
    simpl. f_equal. now apply IH.
Qed.

Lemma breakAt_None (c : ascii) (s l : string) :
  breakAt c s = (l, None) -> l = s.
Proof.
  revert l; induction s as [|a s IH]; intros l; simpl.
  - now intros [= <-].
  - destruct (Ascii.eqb a c); [discriminate|].
    destruct (breakAt c s) as [l' r'] eqn:E. intros [= <- ->].
    f_equal. now apply IH.
Qed.

Lemma Index_single (c : ascii) (s : string) :
  strings.Index s (String c EmptyString) =
  match breakAt c s with
  | (l, Some _) => strings.len l
  | (_, None) => -1
  end.
Proof.
  unfold strings.Index. rewrite index_breakAt.
  destruct (breakAt c s) as [l [r|]]; reflexivity.
Qed.

Lemma slice_upto (l t : string) :
  strings.slice (l +:+ t) 0 (strings.len l) = l.
Proof.
  unfold strings.slice, strings.len. rewrite Z.sub_0_r, Nat2Z.id. simpl.
  apply substring_append_l.
Qed.

Lemma sliceFrom_after (l t : string) (c : ascii) :
  strings.sliceFrom (l +:+ String c t) (strings.len l + 1) = t.
Proof.
  unfold strings.sliceFrom, strings.len.
  replace (Z.to_nat (Z.of_nat (String.length l) + 1)) with (String.length (l +:+ String c EmptyString)).
  2:{ rewrite length_append. simpl. lia. }
  replace (l +:+ String c t) with ((l +:+ String c EmptyString) +:+ t).
  2:{ clear. induction l as [|a l IH]; simpl; [reflexivity | now rewrite IH]. }
  rewrite substring_append_r. rewrite length_append.
  replace (String.length (l +:+ String c EmptyString) + String.length t
           - String.length (l +:+ String c EmptyString))%nat with (String.length t) by lia.
  apply substring_all.
Qed.

Lemma sliceFrom_end (s : string) : strings.sliceFrom s (strings.len s) = EmptyString.
Proof.
  unfold strings.sliceFrom, strings.len. rewrite Nat2Z.id, Nat.sub_diag.
  apply substring_none.
Qed.

(** [Split] at a single byte cuts at every occurrence of it. *)
Lemma Split_single (c : ascii) (s : string) :
  strings.Split s (String c EmptyString) =
  match breakAt c s with
  | (l, Some r) => l :: strings.Split r (String c EmptyString)
  | (l, None) => [l]
  end.
Proof.
  unfold strings.Split. induction s as [|a s IH].
  - reflexivity.
  - cbn [strings.splitFrom breakAt]. rewrite prefix_single.
    destruct (Ascii.eqb a c); [reflexivity|].
    rewrite IH. destruct (breakAt c s) as [l [r|]]; reflexivity.
Qed.

End StringFacts.

(** ** The scanner *)

Lemma substring_length_le (s : string) (n m : nat) :
  (String.length (String.substring n m s) <= String.length s - n)%nat.
Proof.
  revert n m; induction s as [|a s IH]; intros [|n] [|m]; simpl; try lia.
  - specialize (IH 0%nat m). lia.
  - apply IH.
  - apply IH.
Qed.

Lemma sliceFrom_length (s : string) (lo : Z) :
  (String.length (strings.sliceFrom s lo) <= String.length s - Z.to_nat lo)%nat.
Proof. apply substring_length_le. Qed.

Lemma deliver_true (s s' : Scanner) r otherwise :
  deliver s r otherwise = (true, s') ->
  (exists advance tok, r = (advance, Some tok, None)
     /\ s' = {| src := strings.sliceFrom (src s) advance; token := tok; scanErr := None |})
  \/ ((exists advance, r = (advance, None, None)) /\ otherwise = (true, s')).
Proof.
  destruct r as [[advance [tok|]] [e|]]; simpl; intros H; try discriminate.
  - left. exists advance, tok. split; congruence.
  - right. eauto.
Qed.

Lemma Scan_true_ok (split : SplitFunc) (s s' : Scanner) :
  Scan split s = (true, s') -> scanErr s' = None.
Proof.
  unfold Scan. destruct (scanErr s) eqn:E; [discriminate|].
  repeat match goal with
         | |- context [if ?b then _ else _] => destruct b
         end;
    intros H;
    repeat match goal with
           | H : deliver _ _ _ = (true, _) |- _ =>
               apply deliver_true in H as [(a & t & _ & ->)|[_ H]]; [reflexivity|]
           end;
    try discriminate; congruence.
Qed.

Lemma slice_length_le (s : string) (hi : Z) :
  strings.len (strings.slice s 0 hi) <= strings.len s.
Proof.
  unfold strings.slice, strings.len.
  pose proof (substring_length_le s (Z.to_nat 0) (Z.to_nat (hi - 0))). lia.
Qed.

Lemma deliver_progress (split : SplitFunc) (s s' : Scanner) data atEOF otherwise :
  Advances split ->
  strings.len data <= strings.len (src s) ->
  deliver s (split data atEOF) otherwise = (true, s') ->
  (String.length (src s') < String.length (src s))%nat \/ otherwise = (true, s').
Proof.
  intros Hadv Hle H.
  apply deliver_true in H as [(a & t & Heq & ->)|[_ H]]; [left|now right].
  apply Hadv in Heq. simpl.
  pose proof (sliceFrom_length (src s) a). unfold strings.len in *. lia.
Qed.

Lemma Advances_Progress (split : SplitFunc) : Advances split -> Progress split.
Proof.
  intros Hadv s s'. unfold Scan.
  destruct (scanErr s); [discriminate|].
  destruct (strings.len (src s) =? 0) eqn:E0; [|destruct (strings.len (src s) <? maxScanTokenSize)].
  - intros H. apply (deliver_progress split s s' _ _ _ Hadv) in H as [H|H]; [exact H| discriminate |].
    unfold strings.len. simpl. lia.
  - intros H. apply (deliver_progress split s s' _ _ _ Hadv) in H as [H|H]; [exact H| | lia].
    apply (deliver_progress split s s' _ _ _ Hadv) in H as [H|H]; [exact H| discriminate | lia].
  - intros H. apply (deliver_progress split s s' _ _ _ Hadv) in H as [H|H]; [exact H| discriminate |].
    apply slice_length_le.
Qed.

Lemma Index_bounds (s sub : string) :
  0 < strings.len sub ->
  -1 <= strings.Index s sub /\ (0 <= strings.Index s sub -> strings.Index s sub + strings.len sub <= strings.len s).
Proof.
  unfold strings.Index, strings.len. intros Hsub.
  destruct (String.index 0 sub s) as [i|] eqn:E; [|lia].
  split; [lia|]. intros _.
  apply index_correct1 in E.
  assert (String.length (String.substring i (String.length sub) s) = String.length sub) by now rewrite E.
  pose proof (substring_length_le s i (String.length sub)). lia.
Qed.

Lemma ScanLines_Advances : Advances ScanLines.
Proof.
  intros data atEOF advance tok e. unfold ScanLines.
  destruct (atEOF && (strings.len data =? 0)) eqn:E0; [discriminate|].
  pose proof (Index_bounds data newline ltac:(reflexivity)) as [Hlo Hhi].
  destruct (0 <=? strings.Index data newline) eqn:Ei.
  - intros [= <- _ _]. apply Z.leb_le in Ei. specialize (Hhi Ei).
    change (strings.len newline) with 1 in Hhi. lia.
  - destruct atEOF; [|discriminate]. intros [= <- _ _].
    simpl in E0. apply Z.eqb_neq in E0. unfold strings.len in *. lia.
Qed.

Lemma customSplitFunc_Advances : Advances customSplitFunc.
Proof.
  intros data atEOF advance tok e. unfold customSplitFunc.
  destruct (atEOF && (strings.len data =? 0)) eqn:E0; [discriminate|].
  destruct atEOF.
  - intros [= <- _ _]. simpl in E0. apply Z.eqb_neq in E0. unfold strings.len in *. lia.
  - pose proof (Index_bounds data newline ltac:(reflexivity)) as [Hlo Hhi].
    destruct (0 <=? strings.Index data newline) eqn:Ei; [|discriminate].
    intros [= <- _ _]. apply Z.leb_le in Ei. specialize (Hhi Ei).
    change (strings.len newline) with 1 in Hhi. lia.
Qed.

(** The loop and the list of tokens *)
Lemma scanLoop_scanAll {A} (fuel : nat) (split : SplitFunc) (body : string -> option A)
    (s : Scanner) :
  fst (scanLoop fuel split body s) = firstSome body (fst (scanAll fuel split s))
  /\ scanErr (snd (scanLoop fuel split body s)) =
       match firstSome body (fst (scanAll fuel split s)) with
       | Some _ => None
       | None => snd (scanAll fuel split s)
       end.
Proof.
  revert s; induction fuel as [|n IH]; intros s; simpl; [auto|].
  destruct (Scan split s) as [[|] s'] eqn:E; simpl; [|auto].
  specialize (IH s'). destruct (scanAll n split s') as [toks e]. simpl in *.
  destruct (body (Text s')) eqn:Eb; simpl.
  - split; [reflexivity|]. now apply Scan_true_ok in E.
  - exact IH.
Qed.

(** Fuel above the length of the input is never used up. *)
Lemma scanAll_fuel (split : SplitFunc) (n m : nat) (s : Scanner) :
  Progress split ->
  (String.length (src s) < n)%nat -> (String.length (src s) < m)%nat ->
  scanAll n split s = scanAll m split s.
Proof.
  intros Hp. revert m s; induction n as [|n IH]; intros [|m] s Hn Hm; try lia.
  simpl. destruct (Scan split s) as [[|] s'] eqn:E; [|reflexivity].
  apply Hp in E. rewrite (IH m s'); [reflexivity| lia | lia].
Qed.

Lemma scanLoop_fuel {A} (split : SplitFunc) (body : string -> option A) (n m : nat) (s : Scanner) :
  Progress split ->
  (String.length (src s) < n)%nat -> (String.length (src s) < m)%nat ->
  scanLoop n split body s = scanLoop m split body s.
Proof.
  intros Hp. revert m s; induction n as [|n IH]; intros [|m] s Hn Hm; try lia.
  simpl. destruct (Scan split s) as [[|] s'] eqn:E; [|reflexivity].
  apply Hp in E. destruct (body (Text s')); [reflexivity|].
  apply IH; lia.
Qed.

(** With enough fuel the scanner is run to its end: the next call of [Scan]
    gives no token. *)
Lemma scanAll_complete (split : SplitFunc) (n : nat) (s : Scanner) :
  Progress split -> (String.length (src s) < n)%nat ->
  exists k, (k <= n)%nat /\ forall m, (k <= m)%nat -> scanAll m split s = scanAll k split s.
Proof.
  intros Hp Hn. exists (S (String.length (src s))). split; [lia|].
  intros m Hm. apply scanAll_fuel; auto; lia.
Qed.

(** ** Enough fuel *)

Lemma forScan_ScanLines_fuel {A} (body : string -> option A) (input : string) (n : nat) :
  (String.length input < n)%nat ->
  scanLoop n ScanLines body (NewScanner input) = forScan ScanLines body (NewScanner input).
Proof.
  intros H. unfold forScan. apply scanLoop_fuel.
  - apply Advances_Progress, ScanLines_Advances.
  - exact H.
  - simpl. lia.
Qed.

Lemma forScan_customSplitFunc_fuel {A} (body : string -> option A) (input : string) (n : nat) :
  (String.length input < n)%nat ->
  scanLoop n customSplitFunc body (NewScanner input)
  = forScan customSplitFunc body (NewScanner input).
Proof.
  intros H. unfold forScan. apply scanLoop_fuel.
  - apply Advances_Progress, customSplitFunc_Advances.
  - exact H.
  - simpl. lia.
Qed.

Lemma outputLines_fuel (output : string) (n : nat) :
  (String.length output < n)%nat ->
  scanAll n ScanLines (NewScanner output) = outputLines output.
Proof.
  intros H. unfold outputLines. apply scanAll_fuel.
  - apply Advances_Progress, ScanLines_Advances.
  - exact H.
  - simpl. lia.
Qed.

Lemma spaceWidth_le (s : string) : (strings.spaceWidth s <= String.length s)%nat.
Proof.
  unfold strings.spaceWidth.
  repeat match goal with
         | |- context [match ?x with _ => _ end] => destruct x
         end; simpl; lia.
Qed.

Lemma endsWithSpace_le (s : string) : (strings.endsWithSpace s <= String.length s)%nat.
Proof.
  unfold strings.endsWithSpace. cbv zeta.
  repeat match goal with
         | |- context [if ?b then _ else _] =>
             let E := fresh "E" in
             destruct b eqn:E;
             [apply andb_prop in E as [E _]; apply Nat.leb_le in E; exact E|]
         end.
  lia.
Qed.

(** The two loops of [TrimSpace] have the fuel to run to their end: nothing
    is left to trim. *)
Lemma trimSpaceLeft_done (n : nat) (s : string) :
  (String.length s <= n)%nat -> strings.spaceWidth (strings.trimSpaceLeft n s) = 0%nat.
Proof.
  revert s; induction n as [|n IH]; intros s H.
  - destruct s; [reflexivity | simpl in H; lia].
  - simpl. destruct (strings.spaceWidth s) as [|k] eqn:E; [exact E|].
    apply IH. pose proof (spaceWidth_le s). pose proof (substring_length_le s (S k) (String.length s - S k)).
    lia.
Qed.

Lemma trimSpaceRight_done (n : nat) (s : string) :
  (String.length s <= n)%nat -> strings.endsWithSpace (strings.trimSpaceRight n s) = 0%nat.
Proof.
  revert s; induction n as [|n IH]; intros s H.
  - destruct s; [reflexivity | simpl in H; lia].
  - simpl. destruct (strings.endsWithSpace s) as [|k] eqn:E; [exact E|].
    apply IH. pose proof (endsWithSpace_le s).
    rewrite substring_length by lia. lia.
Qed.

Lemma trimSpaceLeft_length (n : nat) (s : string) :
  (String.length (strings.trimSpaceLeft n s) <= String.length s)%nat.
Proof.
  revert s; induction n as [|n IH]; intros s; simpl; [lia|].
  destruct (strings.spaceWidth s) as [|k]; [lia|].
  etransitivity; [apply IH|]. pose proof (substring_length_le s (S k) (String.length s - S k)). lia.
Qed.

Lemma TrimSpace_done (s : string) : strings.endsWithSpace (strings.TrimSpace s) = 0%nat.
Proof. unfold strings.TrimSpace. apply trimSpaceRight_done, trimSpaceLeft_length. Qed.

(** ** The version transforms *)

Lemma lastIndexFrom_uptoLast (c : ascii) (s : string) :
  strings.lastIndexFrom s (String c EmptyString) =
  match uptoLast c s with Some r => Some (String.length r) | None => None end.
Proof.
  induction s as [|a s IH]; [reflexivity|].
  cbn [strings.lastIndexFrom uptoLast]. rewrite IH, prefix_single.
  destruct (uptoLast c s); [reflexivity|]. now destruct (Ascii.eqb a c).
Qed.

Lemma uptoLast_substring (c : ascii) (s r : string) :
  uptoLast c s = Some r -> String.substring 0 (String.length r) s = r.
Proof.
  revert r; induction s as [|a s IH]; intros r; simpl; [discriminate|].
  destruct (uptoLast c s) as [r'|].
  - intros [= <-]. simpl. f_equal. now apply IH.
  - destruct (Ascii.eqb a c); [|discriminate]. now intros [= <-].
Qed.

Lemma stripLast_spec (c : ascii) (s : string) :
  (let pos := strings.LastIndex s (String c EmptyString) in
   if negb (pos =? -1) then strings.slice s 0 pos else s) = withoutLastSegment c s.
Proof.
  unfold strings.LastIndex, withoutLastSegment. rewrite lastIndexFrom_uptoLast.
  destruct (uptoLast c s) as [r|] eqn:E; cbn zeta.
  - replace (Z.of_nat (String.length r) =? -1) with false by (symmetry; apply Z.eqb_neq; lia).
    simpl. unfold strings.slice. rewrite Z.sub_0_r, Nat2Z.id. change (Z.to_nat 0) with 0%nat.
    now apply (uptoLast_substring c).
  - reflexivity.
Qed.

Lemma afterFirst_breakAt (c : ascii) (s : string) : afterFirst c s = snd (breakAt c s).
Proof.
  induction s as [|a s IH]; [reflexivity|]. simpl.
  destruct (Ascii.eqb a c); [reflexivity|]. rewrite IH. now destruct (breakAt c s).
Qed.

Lemma stripEpoch_spec (s : string) :
  (let pos := strings.Index s ":" in
   if negb (pos =? -1) then strings.sliceFrom s (pos + 1) else s) = withoutEpoch s.
Proof.
  unfold withoutEpoch. rewrite afterFirst_breakAt.
  change ":" with (String ":" EmptyString) at 1. rewrite Index_single.
  destruct (breakAt ":" s) as [l [r|]] eqn:E; cbn zeta; simpl snd.
  - replace (strings.len l =? -1) with false by (symmetry; apply Z.eqb_neq; unfold strings.len; lia).
    simpl. apply breakAt_Some in E. subst s. apply sliceFrom_after.
  - reflexivity.
Qed.

Lemma index_cutAt (marker s : string) :
  match String.index 0 marker s with
  | Some i => String.substring 0 i s = cutAt marker s
  | None => cutAt marker s = s
  end.
Proof.
  induction s as [|a s IH].
  - simpl. destruct marker; reflexivity.
  - cbn [String.index cutAt]. destruct (String.prefix marker (String a s)); [reflexivity|].
    destruct (String.index 0 marker s); simpl in *. all: now rewrite IH.
Qed.

Lemma cutMarker_spec (marker s : string) :
  (let pos := strings.Index s marker in
   if negb (pos =? -1) then strings.slice s 0 pos else s) = cutAt marker s.
Proof.
  unfold strings.Index. pose proof (index_cutAt marker s) as H.
  destruct (String.index 0 marker s) as [i|]; cbn zeta.
  - replace (Z.of_nat i =? -1) with false by (symmetry; apply Z.eqb_neq; lia).
    simpl. unfold strings.slice. now rewrite Z.sub_0_r, Nat2Z.id.
  - now rewrite H.
Qed.

Lemma splitFrom_nonempty (sep s : string) (skip : nat) : strings.splitFrom sep s skip <> [].
Proof.
  revert skip; induction s as [|a s IH]; intros skip; cbn [strings.splitFrom]; [easy|].
  destruct skip; [|apply IH].
  destruct (String.prefix sep (String a s)); [easy|].
  destruct (strings.splitFrom sep s 0); easy.
Qed.

Lemma Join_cons (e sep : string) (rest : list string) :
  rest <> [] -> strings.Join (e :: rest) sep = e +:+ sep +:+ strings.Join rest sep.
Proof. destruct rest; [congruence | reflexivity]. Qed.

Lemma ReplaceAll_byte (old new : ascii) (s : string) :
  strings.ReplaceAll s (String old EmptyString) (String new EmptyString) = replaceByte old new s.
Proof.
  unfold strings.ReplaceAll, strings.Split. induction s as [|a s IH]; [reflexivity|].
  cbn [strings.splitFrom replaceByte]. rewrite prefix_single.
  destruct (Ascii.eqb a old).
  - change (String.length (String old EmptyString) - 1)%nat with 0%nat.
    rewrite Join_cons by apply splitFrom_nonempty. rewrite IH. reflexivity.
  - rewrite <- IH. pose proof (splitFrom_nonempty (String old EmptyString) s 0) as Hne.
    destruct (strings.splitFrom (String old EmptyString) s 0) as [|piece rest]; [congruence|].
    destruct rest; reflexivity.
Qed.

Lemma dpkgVersion_spec (tok : string) :
  dpkgVersion tok = cutAt "+dfsg" (withoutEpoch (withoutLastSegment "." tok)).
Proof.
  unfold dpkgVersion. cbv zeta.
  pose proof (stripLast_spec "." tok) as H1. cbv zeta in H1. rewrite H1.
  pose proof (stripEpoch_spec (withoutLastSegment "." tok)) as H2. cbv zeta in H2. rewrite H2.
  apply cutMarker_spec.
Qed.

Lemma rpmVersion_spec (version release : string) :
  rpmVersion version release =
  version +:+ "-" +:+ replaceByte "." "-" (withoutLastSegment "." release).
Proof.
  unfold rpmVersion. cbv zeta.
  pose proof (stripLast_spec "." release) as H1. cbv zeta in H1. rewrite H1.
  rewrite (ReplaceAll_byte "." "-"). reflexivity.
Qed.

Lemma dpkgLine_spec (packageName text : string) :
  dpkgLine packageName text =
  match threeTokens text with
  | Some (name, status, version) =>
      if String.eqb name packageName && String.eqb status "ii"
      then Some (dpkgVersion version) else None
  | None => None
  end.
Proof.
  unfold dpkgLine, threeTokens.
  destruct (strings.len (strings.Trim text " '") =? 0) eqn:E.
  - apply Z.eqb_eq in E. unfold strings.len in E.
    destruct (strings.Trim text " '"); [reflexivity | simpl in E; lia].
  - destruct (strings.Split (strings.Trim text " '") " ") as [|a [|b [|c [|d l]]]]; try reflexivity.
    destruct (String.eqb a packageName); reflexivity.
Qed.

Lemma rpmLine_spec (packageName text : string) :
  rpmLine packageName text =
  match threeTokens text with
  | Some (name, version, release) =>
      if String.eqb name packageName then Some (rpmVersion version release) else None
  | None => None
  end.
Proof.
  unfold rpmLine, threeTokens.
  destruct (strings.len (strings.Trim text " '") =? 0) eqn:E.
  - apply Z.eqb_eq in E. unfold strings.len in E.
    destruct (strings.Trim text " '"); [reflexivity | simpl in E; lia].
  - destruct (strings.Split (strings.Trim text " '") " ") as [|a [|b [|c [|d l]]]]; try reflexivity.
    destruct (String.eqb a packageName); reflexivity.
Qed.

(** ** The parsers *)

Lemma forScan_lines {A} (body : string -> option A) (output : string) :
  fst (forScan ScanLines body (NewScanner output)) = firstSome body (fst (outputLines output))
  /\ scanErr (snd (forScan ScanLines body (NewScanner output))) =
       match firstSome body (fst (outputLines output)) with
       | Some _ => None
       | None => snd (outputLines output)
       end.
Proof. apply scanLoop_scanAll. Qed.

Lemma nonempty_len (s : string) : (0 <? strings.len s) = negb (String.eqb s EmptyString).
Proof. destruct s; reflexivity. Qed.

Lemma parseDpkgOutput_lines (packageName dpkgOutput : string) (w : World) :
  fst (parseDpkgOutput packageName dpkgOutput None w) =
  parsed packageName (firstSome (dpkgLine packageName) (fst (outputLines dpkgOutput)))
                     (snd (outputLines dpkgOutput)).
Proof.
  unfold parseDpkgOutput.
  pose proof (forScan_lines (dpkgLine packageName) dpkgOutput) as [Hf He].
  destruct (forScan ScanLines (dpkgLine packageName) (NewScanner dpkgOutput)) as [found scanner].
  simpl in Hf, He. unfold ScannerErr. rewrite He, <- Hf.
  destruct found as [v|]; simpl.
  - destruct v; reflexivity.
  - destruct (snd (outputLines dpkgOutput)); reflexivity.
Qed.

Lemma parseRpmOutput_lines (packageName rpmOutput : string) (w : World) :
  fst (parseRpmOutput packageName rpmOutput None w) =
  parsed packageName (firstSome (rpmLine packageName) (fst (outputLines rpmOutput)))
                     (snd (outputLines rpmOutput)).
Proof.
  unfold parseRpmOutput.
  pose proof (forScan_lines (rpmLine packageName) rpmOutput) as [Hf He].
  destruct (forScan ScanLines (rpmLine packageName) (NewScanner rpmOutput)) as [found scanner].
  simpl in Hf, He. unfold ScannerErr. rewrite He, <- Hf.
  destruct found as [v|]; simpl.
  - destruct v; reflexivity.
  - destruct (snd (outputLines rpmOutput)); reflexivity.
Qed.

(** A parser that finds its line leaves the world as it is. *)
Lemma parseDpkgOutput_found_pure (packageName dpkgOutput : string) (w : World) (pkg : Package) :
  fst (parseDpkgOutput packageName dpkgOutput None w) = Ok pkg ->
  snd (parseDpkgOutput packageName dpkgOutput None w) = w.
Proof.
  unfold parseDpkgOutput.
  destruct (forScan ScanLines (dpkgLine packageName) (NewScanner dpkgOutput)) as [found scanner].
  destruct (ScannerErr scanner); [discriminate|].
  destruct (0 <? strings.len _); reflexivity.
Qed.

(** The result of a parser does not depend on the world it runs in. *)
Lemma parseDpkgOutput_world (packageName dpkgOutput : string) (err : option error) (w w' : World) :
  fst (parseDpkgOutput packageName dpkgOutput err w) =
  fst (parseDpkgOutput packageName dpkgOutput err w').
Proof.
  unfold parseDpkgOutput. destruct err.
  - destruct (strings.Contains _ _); reflexivity.
  - destruct (forScan _ _ _) as [found scanner].
    destruct (ScannerErr scanner); [reflexivity|].
    destruct (0 <? strings.len _); reflexivity.
Qed.

Lemma parseRpmOutput_world (packageName rpmOutput : string) (err : option error) (w w' : World) :
  fst (parseRpmOutput packageName rpmOutput err w) =
  fst (parseRpmOutput packageName rpmOutput err w').
Proof.
  unfold parseRpmOutput. destruct err.
  - destruct (strings.Contains _ _); reflexivity.
  - destruct (forScan _ _ _) as [found scanner].
    destruct (ScannerErr scanner); [reflexivity|].
    destruct (0 <? strings.len _); reflexivity.
Qed.

Lemma rpmVersion_nonempty (version release : string) : rpmVersion version release <> EmptyString.
Proof.
  rewrite rpmVersion_spec. destruct version; simpl; discriminate.
Qed.

Lemma firstSome_In {A B} (body : A -> option B) (l : list A) (v : B) :
  firstSome body l = Some v -> exists x, In x l /\ body x = Some v.
Proof.
  induction l as [|x l IH]; simpl; [discriminate|].
  destruct (body x) eqn:E.
  - intros [= <-]. eauto.
  - intros H. destruct (IH H) as (y & Hy & Hb). eauto.
Qed.

Lemma firstSome_skip {A B} (body : A -> option B) (before rest : list A) :
  Forall (fun x => body x = None) before ->
  firstSome body (before ++ rest) = firstSome body rest.
Proof.
  induction 1 as [|x before Hx _ IH]; [reflexivity|].
  cbn [app firstSome]. now rewrite Hx.
Qed.

(** C1, as the specification words it, fails on its own sample: the release
    [1.1.el8] loses its last segment, so no [el8] is left in the version. *)
Lemma rpm_sample_version_has_no_el8 :
  fst (parseRpmOutput "pkgA" "pkgA 8.1.0 1.1.el8" None quietWorld)
  <> Ok {| Name := "pkgA"; Version := "8.1.0-1-1-el8" |}.
Proof. vm_compute. discriminate. Qed.

(** C1 (amended): with a nil runner error, the queried name [pkgA] and the
    output [pkgA 8.1.0 1.1.el8], the rpm parser returns the version
    [8.1.0-1-1]: the release token loses its final [.]-delimited segment,
    the [.] that remain become [-], and the result is joined to the version
    token with [-]. *)
Theorem rpm_sample_version (w : World) :
  parseRpmOutput "pkgA" "pkgA 8.1.0 1.1.el8" None w
    = (Ok {| Name := "pkgA"; Version := "8.1.0-1-1" |}, w)
  /\ (forall packageName text,
        rpmLine packageName text =
        match threeTokens text with
        | Some (name, version, release) =>
            if String.eqb name packageName then Some (rpmVersion version release) else None
        | None => None
        end)
  /\ (forall version release,
        rpmVersion version release =
        version +:+ "-" +:+ replaceByte "." "-" (withoutLastSegment "." release)).
Proof.
  split; [vm_compute; reflexivity|].
  split; [apply rpmLine_spec | apply rpmVersion_spec].
Qed.

(** C9: a package returned by either parser bears the queried name and a
    version that is not empty; when the version computed from the matching
    dpkg line is empty the outcome is the not-found sentinel, and the
    version computed from an rpm line is never empty. *)
Theorem parsers_name_and_version (packageName output : string) (err : option error)
    (w : World) :
  (forall pkg,
      fst (parseDpkgOutput packageName output err w) = Ok pkg
      \/ fst (parseRpmOutput packageName output err w) = Ok pkg ->
      Name pkg = packageName /\ Version pkg <> EmptyString)
  /\ (firstSome (dpkgLine packageName) (fst (outputLines output)) = Some EmptyString ->
      fst (parseDpkgOutput packageName output None w) = Err errPackageNotFound)
  /\ (forall text, rpmLine packageName text <> Some EmptyString).
Proof.
  split; [|split].
  - intros pkg H. destruct err as [e|].
    + destruct H as [H|H]; [unfold parseDpkgOutput in H | unfold parseRpmOutput in H];
        destruct (strings.Contains _ _); discriminate.
    + assert (Hp : exists found scanned, parsed packageName found scanned = Ok pkg).
      { destruct H as [H|H];
          [rewrite parseDpkgOutput_lines in H | rewrite parseRpmOutput_lines in H]; eauto. }
      destruct Hp as ([[|c v]|] & scanned & Hp); simpl in Hp;
        try discriminate; [|destruct scanned; discriminate].
      injection Hp as <-. simpl. split; [reflexivity | discriminate].
  - intros Hf. rewrite parseDpkgOutput_lines, Hf. reflexivity.
  - intros text. rewrite rpmLine_spec.
    destruct (threeTokens text) as [[[name version] release]|]; [|discriminate].
    destruct (String.eqb name packageName); [|discriminate].
    intros [= Hv]. now apply rpmVersion_nonempty in Hv.
Qed.

Lemma parsers_name_and_version_witness :
  (Name {| Name := "pkgA"; Version := "8.1.0-1-1" |} = "pkgA"
   /\ Version {| Name := "pkgA"; Version := "8.1.0-1-1" |} <> EmptyString)
  /\ fst (parseDpkgOutput "pkgA" "pkgA ii .jammy" None quietWorld) = Err errPackageNotFound.
Proof.
  split.
  - apply (proj1 (parsers_name_and_version "pkgA" "pkgA ii 2:8.1.0-1-1.jammy" None quietWorld)).
    left. vm_compute. reflexivity.
  - apply (proj1 (proj2 (parsers_name_and_version "pkgA" "pkgA ii .jammy" None quietWorld))).
    vm_compute. reflexivity.
Defined.

(** ** The package scraper *)

Lemma parseDpkgOutput_logs (packageName dpkgOutput : string) (err : option error) (w : World) :
  exists l, snd (parseDpkgOutput packageName dpkgOutput err w) = withLog l w.
Proof.
  assert (Hw : w = withLog (log w) w) by now destruct w.
  unfold parseDpkgOutput. destruct err.
  - destruct (strings.Contains _ _); simpl; eauto.
  - destruct (forScan _ _ _) as [found scanner].
    destruct (ScannerErr scanner); simpl; eauto.
    destruct (0 <? strings.len _); simpl; eauto.
Qed.

Lemma parseRpmOutput_logs (packageName rpmOutput : string) (err : option error) (w : World) :
  exists l, snd (parseRpmOutput packageName rpmOutput err w) = withLog l w.
Proof.
  assert (Hw : w = withLog (log w) w) by now destruct w.
  unfold parseRpmOutput. destruct err.
  - destruct (strings.Contains _ _); simpl; eauto.
  - destruct (forScan _ _ _) as [found scanner].
    destruct (ScannerErr scanner); simpl; eauto.
    destruct (0 <? strings.len _); simpl; eauto.
Qed.

(** A probe runs one command and leaves the oracle as it is. *)
Lemma queryDpkg_probe (ctx : Context) (packageName : string) (w : World) :
  fst (queryDpkg ctx packageName w) = dpkgProbe ctx w (List.length (execs w)) packageName
  /\ cmd (snd (queryDpkg ctx packageName w)) = cmd w
  /\ List.length (execs (snd (queryDpkg ctx packageName w))) = S (List.length (execs w)).
Proof.
  unfold queryDpkg, dpkgProbe, bind, logw, CombinedOutput. simpl.
  destruct (cmd w _ _ _) as [output err].
  match goal with |- context [parseDpkgOutput _ _ _ ?w1] =>
    destruct (parseDpkgOutput_logs packageName output err w1) as [l Hl];
    rewrite (parseDpkgOutput_world packageName output err w1 w)
  end.
  rewrite Hl. simpl. auto.
Qed.

Lemma queryRpm_probe (ctx : Context) (packageName : string) (w : World) :
  fst (queryRpm ctx packageName w) = rpmProbe ctx w (List.length (execs w)) packageName
  /\ cmd (snd (queryRpm ctx packageName w)) = cmd w
  /\ List.length (execs (snd (queryRpm ctx packageName w))) = S (List.length (execs w)).
Proof.
  unfold queryRpm, rpmProbe, bind, logw, CombinedOutput. simpl.
  destruct (cmd w _ _ _) as [output err].
  match goal with |- context [parseRpmOutput _ _ _ ?w1] =>
    destruct (parseRpmOutput_logs packageName output err w1) as [l Hl];
    rewrite (parseRpmOutput_world packageName output err w1 w)
  end.
  rewrite Hl. simpl. auto.
Qed.

Lemma dpkgProbe_oracle (ctx : Context) (w w' : World) (k : nat) (packageName : string) :
  cmd w' = cmd w -> dpkgProbe ctx w' k packageName = dpkgProbe ctx w k packageName.
Proof.
  intros H. unfold dpkgProbe. rewrite H. destruct (cmd w _ _ _). apply parseDpkgOutput_world.
Qed.

Lemma rpmProbe_oracle (ctx : Context) (w w' : World) (k : nat) (packageName : string) :
  cmd w' = cmd w -> rpmProbe ctx w' k packageName = rpmProbe ctx w k packageName.
Proof.
  intros H. unfold rpmProbe. rewrite H. destruct (cmd w _ _ _). apply parseRpmOutput_world.
Qed.

Lemma probeOutcomes_ext (p q : nat -> string -> Result Package) (k : nat) (l : list string) :
  (forall i n, p i n = q i n) -> probeOutcomes p k l = probeOutcomes q k l.
Proof.
  intros H. revert k; induction l as [|n l IH]; intros k; simpl; [reflexivity|].
  now rewrite H, IH.
Qed.

Section ScrapeLoop.

Variable pkgFunc : queryPkgFunc.
Variable probe : Context -> World -> nat -> string -> Result Package.
Hypothesis pkgFunc_probe : forall ctx packageName w,
  fst (pkgFunc ctx packageName w) = probe ctx w (List.length (execs w)) packageName
  /\ cmd (snd (pkgFunc ctx packageName w)) = cmd w
  /\ List.length (execs (snd (pkgFunc ctx packageName w))) = S (List.length (execs w)).
Hypothesis probe_oracle : forall ctx w w' k packageName,
  cmd w' = cmd w -> probe ctx w' k packageName = probe ctx w k packageName.

Lemma scrapeLoop_found (ctx : Context) (pkgList : list string) (toReturn : list Package)
    (w : World) :
  fst (scrapeLoop pkgFunc ctx pkgList toReturn w) =
  toReturn ++ foundPackages (probeOutcomes (probe ctx w) (List.length (execs w)) pkgList).
Proof.
  revert toReturn w; induction pkgList as [|pName rest IH]; intros toReturn w.
  - simpl. now rewrite app_nil_r.
  - cbn [scrapeLoop probeOutcomes]. unfold bind at 1.
    destruct (pkgFunc_probe ctx pName w) as (Hr & Hc & He).
    destruct (pkgFunc ctx pName w) as [r w1]. simpl in Hr, Hc, He. rewrite <- Hr.
    assert (Hext : forall k, probeOutcomes (probe ctx w1) k rest
                             = probeOutcomes (probe ctx w) k rest).
    { intros k. apply probeOutcomes_ext. intros. now apply probe_oracle. }
    destruct r as [pkg|err]; cbn [foundPackages].
    + rewrite IH, He, Hext, <- app_assoc. reflexivity.
    + unfold bind.
      assert (Hlog : forall l, fst (scrapeLoop pkgFunc ctx rest toReturn (withLog l w1))
                               = fst (scrapeLoop pkgFunc ctx rest toReturn w1)).
      { intros l. rewrite !IH. simpl. f_equal. f_equal.
        apply probeOutcomes_ext. intros. now apply probe_oracle. }
      destruct (negb (isPackageNotFound err)); simpl.
      * unfold logw. rewrite Hlog, IH, He, Hext. reflexivity.
      * rewrite IH, He, Hext. reflexivity.
Qed.

End ScrapeLoop.

Lemma foundPackages_app (l1 l2 : list (Result Package)) :
  foundPackages (l1 ++ l2) = foundPackages l1 ++ foundPackages l2.
Proof.
  induction l1 as [|[pkg|e] l1 IH]; simpl; [reflexivity| now rewrite IH | exact IH].
Qed.

Lemma getOSInfo_frame (w : World) :
  cmd (snd (getOSInfo w)) = cmd w /\ execs (snd (getOSInfo w)) = execs w.
Proof.
  unfold getOSInfo, bind, GetInfo. destruct (hostinfo w (hostinfoCalls w)); simpl; auto.
Qed.

Section BestEffort.

Context {ranges : unicode.CaseRanges}.

(** C3: the package scraper has no error to return: whatever the context and
    the outcomes of the probes, it returns the packages of the probes that
    succeeded, in the order of the catalogue; a probe that fails leaves out
    its own package and no other. *)
Theorem scrape_is_best_effort (ctx : Context) (w : World) :
  let localOs := fst (getOSInfo w) in
  let k := List.length (execs w) in
  fst (ScrapeInstalledPackages ctx w) =
    match familyOf localOs with
    | DebianFamily =>
        foundPackages (probeOutcomes (dpkgProbe ctx w) k (getCommonPackages ++ getDebianPackages))
    | RhelFamily =>
        foundPackages (probeOutcomes (rpmProbe ctx w) k (getCommonPackages ++ getRhelPackages))
    | Unsupported => []
    end
  /\ (forall before after err,
        foundPackages (before ++ Err err :: after) = foundPackages before ++ foundPackages after)
  /\ (forall before after pkg,
        foundPackages (before ++ Ok pkg :: after)
        = foundPackages before ++ pkg :: foundPackages after).
Proof.
  cbv zeta. split; [|split; intros; now rewrite foundPackages_app].
  unfold ScrapeInstalledPackages, familyOf. unfold bind at 1.
  destruct (getOSInfo_frame w) as [Hc He].
  destruct (getOSInfo w) as [localOs w1]. cbn [fst snd] in Hc, He |- *.
  destruct (isDebianFamily localOs); [|destruct (isRHELFamily localOs)].
  - rewrite (scrapeLoop_found queryDpkg dpkgProbe queryDpkg_probe dpkgProbe_oracle).
    rewrite He. change (@nil Package ++ ?l) with l. f_equal.
    apply probeOutcomes_ext. intros. now apply dpkgProbe_oracle.
  - rewrite (scrapeLoop_found queryRpm rpmProbe queryRpm_probe rpmProbe_oracle).
    rewrite He. change (@nil Package ++ ?l) with l. f_equal.
    apply probeOutcomes_ext. intros. now apply rpmProbe_oracle.
  - reflexivity.
Qed.

End BestEffort.

(** ** Family detection *)

(** ** Runes and their encodings *)

Lemma AppendRune_ascii (r : N) :
  (r < 128)%N -> utf8.AppendRune r = String (ascii_of_N r) EmptyString.
Proof.
  intros H. unfold utf8.AppendRune, utf8.rune1Max.
  replace (r <=? 127)%N with true by (symmetry; apply N.leb_le; lia).
  unfold utf8.byte. now rewrite ascii_N_embedding.
Qed.

Lemma lead_byte_high (t : N) (c : ascii) :
  t = utf8.t2 \/ t = utf8.t3 \/ t = utf8.t4 ->
  (128 <= N_of_ascii (ascii_of_N (N.lor t (N_of_ascii c))))%N.
Proof.
  intros [->| [->| ->]]; destruct c as [[] [] [] [] [] [] [] []]; vm_compute; discriminate.
Qed.

(** The encoding of a rune above ASCII starts with a byte above ASCII. *)
Lemma AppendRune_high (r : N) :
  (128 <= r)%N ->
  exists b rest, utf8.AppendRune r = String b rest /\ (128 <= N_of_ascii b)%N.
Proof.
  intros H. unfold utf8.AppendRune, utf8.rune1Max.
  replace (r <=? 127)%N with false by (symmetry; apply N.leb_gt; lia).
  destruct (r <=? utf8.rune2Max)%N.
  - eexists _, _. split; [reflexivity|]. apply lead_byte_high. auto.
  - cbv zeta.
    destruct (_ <=? utf8.rune3Max)%N;
      (eexists _, _; split; [reflexivity|]; apply lead_byte_high; auto).
Qed.

(** A byte of ASCII is a rune of its own. *)
Lemma runes_ascii (c : ascii) (s : string) :
  (N_of_ascii c < 128)%N -> utf8.runes (String c s) = N_of_ascii c :: utf8.runes s.
Proof.
  intros H. unfold utf8.runes. cbn [utf8.runesFrom utf8.DecodeRuneInString].
  unfold utf8.RuneSelf.
  replace (N_of_ascii c <? 128)%N with true by (symmetry; apply N.ltb_lt; lia).
  reflexivity.
Qed.

(** An encoded text starts with ASCII bytes exactly when its first runes
    are these bytes. *)
Lemma prefix_encoded (prefix : string) (codes : list N) :
  asciiText prefix = true ->
  String.prefix prefix
    (fold_right (fun c out => utf8.AppendRune c +:+ out) EmptyString codes)
  = startsWithCodes prefix codes.
Proof.
  revert codes; induction prefix as [|p prefix IH]; intros codes Hp.
  - destruct codes; cbn [startsWithCodes]; [reflexivity|]. cbn [fold_right].
    now destruct (utf8.AppendRune n +:+ _).
  - cbn [asciiText] in Hp. apply andb_prop in Hp as [Hp Hl]. apply N.ltb_lt in Hp.
    destruct codes as [|r codes]; [reflexivity|].
    cbn [fold_right startsWithCodes].
    destruct (N.lt_ge_cases r 128) as [Hr|Hr].
    + rewrite (AppendRune_ascii r Hr). cbn [String.append String.prefix].
      rewrite (IH codes Hl).
      destruct (ascii_dec p (ascii_of_N r)) as [->|Hne].
      * rewrite N_ascii_embedding by lia. now rewrite N.eqb_refl.
      * replace (r =? N_of_ascii p)%N with false; [reflexivity|].
        symmetry. apply N.eqb_neq. intros ->. apply Hne. now rewrite ascii_N_embedding.
    + destruct (AppendRune_high r Hr) as (b & rest & -> & Hb).
      cbn [String.append String.prefix].
      destruct (ascii_dec p b) as [->|_]; [lia|].
      replace (r =? N_of_ascii p)%N with false; [reflexivity|].
      symmetry. apply N.eqb_neq. lia.
Qed.

Lemma Map_runes (mapping : N -> N) (s : string) :
  strings.Map mapping s
  = fold_right (fun c out => utf8.AppendRune c +:+ out) EmptyString (map mapping (utf8.runes s)).
Proof.
  unfold strings.Map.
  induction (utf8.runes s) as [|c codes IH]; [reflexivity|]. cbn [fold_right map]. now rewrite IH.
Qed.

Lemma lowerCased_asciiText (s : string) : lowerCased s = true -> asciiText s = true.
Proof.
  induction s as [|c s IH]; [reflexivity|]. cbn [lowerCased asciiText].
  intros H. apply andb_prop in H as [H Hs]. apply andb_prop in H as [-> _]. now rewrite IH.
Qed.

Lemma lowerByte_fixed_sameLetter (c p : ascii) :
  strings.lowerByte p = p ->
  Ascii.eqb (strings.lowerByte c) p = sameLetter c p.
Proof.
  unfold strings.lowerByte, sameLetter. intros Hp.
  pose proof (N_ascii_bounded c) as Hc. pose proof (N_ascii_bounded p) as Hpb.
  set (x := N_of_ascii c) in *. set (y := N_of_ascii p) in *.
  assert (Hy : ((65 <=? y) && (y <=? 90))%N = false).
  { destruct ((65 <=? y) && (y <=? 90))%N eqn:E; [|reflexivity].
    exfalso. apply andb_prop in E as [E1 E2].
    apply N.leb_le in E1. apply N.leb_le in E2.
    assert (Hn : N_of_ascii (ascii_of_N (y + 32)) = N_of_ascii p) by now rewrite Hp.
    rewrite N_ascii_embedding in Hn by lia. fold y in Hn. lia. }
  rewrite Hy. rewrite orb_false_r.
  destruct ((65 <=? x) && (x <=? 90))%N eqn:E.
  - apply andb_prop in E as [E1 E2]. apply N.leb_le in E1. apply N.leb_le in E2.
    destruct (Ascii.eqb_spec c p) as [->|Hne].
    + subst x y. exfalso. rewrite (proj2 (N.leb_le _ _) E1), (proj2 (N.leb_le _ _) E2) in Hy.
      discriminate.
    + simpl. destruct (N.eqb_spec y (x + 32)) as [Hyx|Hyx].
      * apply Ascii.eqb_eq. rewrite <- Hyx. subst y. apply ascii_N_embedding.
      * apply Ascii.eqb_neq. intros Heq. apply Hyx. subst y. rewrite <- Heq.
        rewrite N_ascii_embedding by lia. reflexivity.
  - rewrite orb_false_r. reflexivity.
Qed.

(** A byte that is an ASCII byte up to case is an ASCII byte. *)
Lemma sameLetter_ascii (a p : ascii) :
  sameLetter a p = true -> (N_of_ascii p < 128)%N -> (N_of_ascii a < 128)%N.
Proof.
  unfold sameLetter. intros H Hp.
  destruct (Ascii.eqb_spec a p) as [->|_]; [exact Hp|]. simpl in H.
  apply orb_prop in H as [H|H];
    apply andb_prop in H as [H H3]; apply andb_prop in H as [H1 H2];
    apply N.leb_le in H1; apply N.leb_le in H2; apply N.eqb_eq in H3; lia.
Qed.

Lemma sameLetter_refl (a : ascii) : sameLetter a a = true.
Proof. unfold sameLetter. now rewrite Ascii.eqb_refl. Qed.

(** A casing of a string that starts with [prefix] starts with [prefix] in
    some casing. *)
Lemma equalFold_startsWithFold (prefix name rest : string) :
  equalFold name (prefix +:+ rest) = true ->
  startsWithFold prefix name = true.
Proof.
  revert name; induction prefix as [|p prefix IH]; intros name He.
  - reflexivity.
  - destruct name as [|a name]; [discriminate|].
    cbn [String.append equalFold] in He. apply andb_prop in He as [Hab He].
    cbn [startsWithFold]. rewrite Hab. simpl. now apply IH.
Qed.

(** No string starts with a prefix of both families. *)
Lemma hasAnyPrefix_apart (nameL : string) :
  hasAnyPrefix nameL ["debian"; "ubuntu"] = true ->
  hasAnyPrefix nameL ["el"; "centos"; "oracle"; "rocky"; "red hat"; "amazon"; "alma"] = false.
Proof.
  unfold hasAnyPrefix, strings.HasPrefix.
  destruct nameL as [|c nameL]; [discriminate|].
  cbn [existsb String.prefix].
  destruct (ascii_dec "d" c) as [<-|Hd].
  - intros _. reflexivity.
  - destruct (ascii_dec "u" c) as [<-|Hu]; [intros _; reflexivity | discriminate].
Qed.

Section FamilyFacts.

Context {ranges : unicode.CaseRanges}.

Lemma ToLower_byte (c : ascii) :
  (N_of_ascii c < 128)%N -> unicode.ToLower (N_of_ascii c) = N_of_ascii (strings.lowerByte c).
Proof.
  intros H. unfold unicode.ToLower, unicode.MaxASCII, strings.lowerByte. cbv zeta.
  replace (N_of_ascii c <=? 127)%N with true by (symmetry; apply N.leb_le; lia).
  destruct ((65 <=? N_of_ascii c) && (N_of_ascii c <=? 90))%N; [|reflexivity].
  rewrite N_ascii_embedding by lia. reflexivity.
Qed.

Lemma lowerByte_ascii (c : ascii) :
  (N_of_ascii c < 128)%N -> (N_of_ascii (strings.lowerByte c) < 128)%N.
Proof.
  intros H. unfold strings.lowerByte. cbv zeta.
  destruct ((65 <=? N_of_ascii c) && (N_of_ascii c <=? 90))%N eqn:E; [|exact H].
  apply andb_prop in E as [_ E]. apply N.leb_le in E.
  rewrite N_ascii_embedding by lia. lia.
Qed.

(** On a string of ASCII bytes, lowering byte by byte is mapping rune by
    rune: [ToLower] is [Map unicode.ToLower] on every string. *)
Lemma lowerASCII_Map (s : string) :
  strings.isASCII s = true -> strings.lowerASCII s = strings.Map unicode.ToLower s.
Proof.
  unfold strings.Map.
  induction s as [|c s IH]; [reflexivity|].
  cbn [strings.isASCII strings.lowerASCII]. intros H.
  apply andb_prop in H as [Hc Hs]. apply N.ltb_lt in Hc. unfold utf8.RuneSelf in Hc.
  rewrite (runes_ascii c s Hc). cbn [fold_right].
  rewrite <- (IH Hs), (ToLower_byte c Hc), AppendRune_ascii by now apply lowerByte_ascii.
  rewrite ascii_N_embedding. reflexivity.
Qed.

Lemma ToLower_Map (s : string) : strings.ToLower s = strings.Map unicode.ToLower s.
Proof.
  unfold strings.ToLower. destruct (strings.isASCII s) eqn:E; [|reflexivity].
  now apply lowerASCII_Map.
Qed.

Lemma HasPrefix_ToLower (prefix name : string) :
  asciiText prefix = true ->
  strings.HasPrefix (strings.ToLower name) prefix = startsWithCasing prefix name.
Proof.
  intros Hp. unfold strings.HasPrefix, startsWithCasing.
  rewrite ToLower_Map, Map_runes. now apply prefix_encoded.
Qed.

Lemma hasAnyPrefix_casing (name : string) (prefixes : list string) :
  forallb asciiText prefixes = true ->
  hasAnyPrefix (strings.ToLower name) prefixes
  = existsb (fun prefix => startsWithCasing prefix name) prefixes.
Proof.
  unfold hasAnyPrefix. induction prefixes as [|p l IH]; [reflexivity|].
  cbn [forallb existsb]. intros H. apply andb_prop in H as [Hp Hl].
  now rewrite IH, HasPrefix_ToLower.
Qed.

Lemma isDebianFamily_casing (name : string) :
  isDebianFamily name = existsb (fun prefix => startsWithCasing prefix name) debianPrefixes.
Proof. unfold isDebianFamily. now apply hasAnyPrefix_casing. Qed.

Lemma isRHELFamily_casing (name : string) :
  isRHELFamily name = existsb (fun prefix => startsWithCasing prefix name) rhelPrefixes.
Proof. unfold isRHELFamily. now apply hasAnyPrefix_casing. Qed.

Lemma familyOf_casing (name : string) :
  familyOf name =
  if existsb (fun prefix => startsWithCasing prefix name) debianPrefixes then DebianFamily
  else if existsb (fun prefix => startsWithCasing prefix name) rhelPrefixes then RhelFamily
  else Unsupported.
Proof. unfold familyOf. now rewrite isDebianFamily_casing, isRHELFamily_casing. Qed.

(** Where a string starts with an ASCII byte, leaving the case of its runes
    aside is leaving the case of that byte aside. *)
Lemma startsWithCasing_byte (p a : ascii) (prefix name : string) :
  lowerCased (String p prefix) = true ->
  (N_of_ascii a < 128)%N ->
  startsWithCasing (String p prefix) (String a name)
  = sameLetter a p && startsWithCasing prefix name.
Proof.
  intros Hp Ha. unfold startsWithCasing.
  rewrite (runes_ascii a name Ha). cbn [map startsWithCodes].
  rewrite (ToLower_byte a Ha). f_equal.
  cbn [lowerCased] in Hp. apply andb_prop in Hp as [Hp _]. apply andb_prop in Hp as [_ Hp].
  assert (Hfix : strings.lowerByte p = p).
  { unfold strings.lowerByte. cbv zeta. apply negb_true_iff in Hp. now rewrite Hp. }
  rewrite <- (lowerByte_fixed_sameLetter a p Hfix).
  destruct (Ascii.eqb_spec (strings.lowerByte a) p) as [<-|Hne].
  - apply N.eqb_refl.
  - apply N.eqb_neq. intros Heq. apply Hne.
    now rewrite <- (ascii_N_embedding (strings.lowerByte a)), Heq, ascii_N_embedding.
Qed.

Lemma lowerCased_tail (p : ascii) (prefix : string) :
  lowerCased (String p prefix) = true ->
  (N_of_ascii p < 128)%N /\ lowerCased prefix = true.
Proof.
  cbn [lowerCased]. intros H. apply andb_prop in H as [H Hl]. apply andb_prop in H as [H _].
  apply N.ltb_lt in H. auto.
Qed.

(** On a string of ASCII bytes, the two ways of leaving the case aside
    agree. *)
Lemma startsWithCasing_ascii (prefix name : string) :
  lowerCased prefix = true -> asciiText name = true ->
  startsWithCasing prefix name = startsWithFold prefix name.
Proof.
  revert name; induction prefix as [|p prefix IH]; intros name Hp Hn.
  - destruct name; reflexivity.
  - destruct name as [|a name]; [reflexivity|].
    cbn [asciiText] in Hn. apply andb_prop in Hn as [Ha Hn]. apply N.ltb_lt in Ha.
    rewrite (startsWithCasing_byte p a prefix name Hp Ha). cbn [startsWithFold].
    destruct (lowerCased_tail p prefix Hp) as [_ Hl]. now rewrite (IH name Hl Hn).
Qed.

(** A string that starts with a prefix in some casing of the ASCII letters
    starts with it when the case of its runes is left aside, whatever
    follows. *)
Lemma startsWithFold_casing (prefix name : string) :
  lowerCased prefix = true ->
  startsWithFold prefix name = true -> startsWithCasing prefix name = true.
Proof.
  revert name; induction prefix as [|p prefix IH]; intros name Hp Hf.
  - reflexivity.
  - destruct name as [|a name]; [discriminate|].
    cbn [startsWithFold] in Hf. apply andb_prop in Hf as [Hap Hf].
    destruct (lowerCased_tail p prefix Hp) as [Hpa Hl].
    rewrite (startsWithCasing_byte p a prefix name Hp (sameLetter_ascii a p Hap Hpa)).
    now rewrite Hap, (IH name Hl Hf).
Qed.

Lemma existsb_casing_ascii (name : string) (prefixes : list string) :
  forallb lowerCased prefixes = true -> asciiText name = true ->
  existsb (fun prefix => startsWithCasing prefix name) prefixes
  = existsb (fun prefix => startsWithFold prefix name) prefixes.
Proof.
  intros Hp Hn. induction prefixes as [|p l IH]; [reflexivity|].
  cbn [forallb existsb] in *. apply andb_prop in Hp as [Hp Hl].
  now rewrite (startsWithCasing_ascii p name Hp Hn), (IH Hl).
Qed.

Lemma lowerCased_prefixes (prefix : string) :
  In prefix (debianPrefixes ++ rhelPrefixes) -> lowerCased prefix = true.
Proof.
  intros H. assert (Hall : forallb lowerCased (debianPrefixes ++ rhelPrefixes) = true)
    by reflexivity.
  rewrite forallb_forall in Hall. now apply Hall.
Qed.

Lemma families_apart (name : string) :
  isDebianFamily name = true -> isRHELFamily name = false.
Proof. unfold isDebianFamily, isRHELFamily. apply hasAnyPrefix_apart. Qed.

(** C6: the family of a string is that of the first prefix it starts with
    when the case of its runes is left aside, the prefixes of the debian
    family coming first, and a string that starts with none is unsupported;
    on a string of ASCII bytes that is leaving the case of the ASCII letters
    aside. So a string that is, in any casing, a string starting with
    [debian] or [ubuntu] is of the debian family, and one that is, in any
    casing, a string starting with [el], [centos], [oracle], [rocky],
    [red hat], [amazon] or [alma] is of the rhel family. On an unsupported
    string the package scraper returns the empty sequence and probes no
    package. *)
Theorem family_detection (name : string) :
  familyOf name =
    (if existsb (fun prefix => startsWithCasing prefix name) debianPrefixes then DebianFamily
     else if existsb (fun prefix => startsWithCasing prefix name) rhelPrefixes then RhelFamily
     else Unsupported)
  /\ (asciiText name = true ->
      familyOf name =
        (if existsb (fun prefix => startsWithFold prefix name) debianPrefixes then DebianFamily
         else if existsb (fun prefix => startsWithFold prefix name) rhelPrefixes then RhelFamily
         else Unsupported))
  /\ (forall prefix rest,
        In prefix debianPrefixes -> equalFold name (prefix +:+ rest) = true ->
        familyOf name = DebianFamily)
  /\ (forall prefix rest,
        In prefix rhelPrefixes -> equalFold name (prefix +:+ rest) = true ->
        familyOf name = RhelFamily)
  /\ ((forall prefix, In prefix (debianPrefixes ++ rhelPrefixes) ->
         startsWithCasing prefix name = false) ->
      familyOf name = Unsupported)
  /\ (forall ctx w,
        fst (getOSInfo w) = name -> familyOf name = Unsupported ->
        fst (ScrapeInstalledPackages ctx w) = []
        /\ execs (snd (ScrapeInstalledPackages ctx w)) = execs w).
Proof.
  split; [apply familyOf_casing|].
  split; [|split; [|split; [|split]]].
  - intros Hn. rewrite familyOf_casing.
    now rewrite !existsb_casing_ascii by (exact Hn || reflexivity).
  - intros prefix rest Hin He. unfold familyOf.
    replace (isDebianFamily name) with true; [reflexivity|].
    symmetry. rewrite isDebianFamily_casing. apply existsb_exists.
    exists prefix. split; [exact Hin|].
    apply startsWithFold_casing.
    + apply lowerCased_prefixes, in_or_app. now left.
    + now apply (equalFold_startsWithFold prefix name rest).
  - intros prefix rest Hin He. unfold familyOf.
    assert (Hr : isRHELFamily name = true).
    { rewrite isRHELFamily_casing. apply existsb_exists.
      exists prefix. split; [exact Hin|].
      apply startsWithFold_casing.
      - apply lowerCased_prefixes, in_or_app. now right.
      - now apply (equalFold_startsWithFold prefix name rest). }
    destruct (isDebianFamily name) eqn:Hd.
    + apply families_apart in Hd. congruence.
    + now rewrite Hr.
  - intros Hnone. rewrite familyOf_casing.
    assert (Hex : forall l, (forall p, In p l -> In p (debianPrefixes ++ rhelPrefixes)) ->
                            existsb (fun prefix => startsWithCasing prefix name) l = false).
    { intros l Hl. destruct (existsb _ l) eqn:E; [|reflexivity].
      apply existsb_exists in E as (p & Hp & Hs). rewrite (Hnone p (Hl p Hp)) in Hs. discriminate. }
    rewrite (Hex debianPrefixes), (Hex rhelPrefixes); [reflexivity| |];
      intros p Hp; apply in_or_app; auto.
  - intros ctx w Hos Hfam.
    unfold familyOf in Hfam.
    destruct (isDebianFamily name) eqn:Hd; [discriminate|].
    destruct (isRHELFamily name) eqn:Hr; [discriminate|].
    destruct (getOSInfo_frame w) as [_ He].
    assert (H : exists l, ScrapeInstalledPackages ctx w = ([], withLog l (snd (getOSInfo w)))).
    { unfold ScrapeInstalledPackages, bind.
      destruct (getOSInfo w) as [localOs w1]. cbn [fst snd] in Hos |- *. subst localOs.
      rewrite Hd, Hr. unfold logw, ret. eauto. }
    destruct H as [l ->]. cbn [fst snd]. split; [reflexivity|exact He].
Qed.

End FamilyFacts.

Section FamilySamples.

#[local] Existing Instance sampleRanges.

Lemma family_detection_witness :
  familyOf "Ubuntu 22.04" = DebianFamily
  /\ familyOf "Red Hat Enterprise Linux 9" = RhelFamily
  /\ familyOf "GNU/Linux 6.1" = Unsupported
  /\ familyOf kelvinRocky = RhelFamily
  /\ familyOf "unknown" = Unsupported
  /\ (fst (ScrapeInstalledPackages Background quietWorld) = []
      /\ execs (snd (ScrapeInstalledPackages Background quietWorld)) = execs quietWorld).
Proof.
  split; [|split; [|split; [|split; [|split]]]].
  - apply (proj1 (proj2 (proj2 (family_detection "Ubuntu 22.04")))) with (prefix := "ubuntu")
      (rest := " 22.04").
    + right. left. reflexivity.
    + vm_compute. reflexivity.
  - apply (proj1 (proj2 (proj2 (proj2 (family_detection "Red Hat Enterprise Linux 9")))))
      with (prefix := "red hat") (rest := " enterprise linux 9").
    + do 4 right. left. reflexivity.
    + vm_compute. reflexivity.
  - apply (proj1 (proj2 (proj2 (proj2 (proj2 (family_detection "GNU/Linux 6.1")))))).
    intros prefix Hin. simpl in Hin.
    repeat (destruct Hin as [<-|Hin]; [vm_compute; reflexivity|]). destruct Hin.
  - rewrite (proj1 (family_detection kelvinRocky)). vm_compute. reflexivity.
  - rewrite (proj1 (proj2 (family_detection "unknown"))) by reflexivity. vm_compute. reflexivity.
  - apply (proj2 (proj2 (proj2 (proj2 (proj2 (family_detection "unknown")))))).
    + vm_compute. reflexivity.
    + vm_compute. reflexivity.
Defined.

End FamilySamples.

(** ** The identity file *)

Lemma sameHost_refl (w : World) : sameHost w w.
Proof. repeat split. Qed.

Lemma sameHost_trans (w1 w2 w3 : World) : sameHost w1 w2 -> sameHost w2 w3 -> sameHost w1 w3.
Proof.
  unfold sameHost. intros (a1 & a2 & a3 & a4 & a5 & a6 & a7 & a8) (b1 & b2 & b3 & b4 & b5 & b6 & b7 & b8).
  repeat split; congruence.
Qed.

Lemma Preserves_ret {A} (a : A) : Preserves (ret a).
Proof. intros w. apply sameHost_refl. Qed.

Lemma Preserves_bind {A B} (c : M A) (k : A -> M B) :
  Preserves c -> (forall a, Preserves (k a)) -> Preserves (bind c k).
Proof.
  intros Hc Hk w. unfold bind. specialize (Hc w). destruct (c w) as [a w1].
  eapply sameHost_trans; [exact Hc | apply Hk].
Qed.

Lemma Preserves_logw lvl msg fs : Preserves (logw lvl msg fs).
Proof. intros w. repeat split. Qed.

Lemma Preserves_Stat name : Preserves (os.Stat name).
Proof.
  intros w. unfold os.Stat. destruct (fault w _); [apply sameHost_refl|].
  destruct (_ || _); apply sameHost_refl.
Qed.

Lemma Preserves_MkdirAll path perm : Preserves (os.MkdirAll path perm).
Proof.
  intros w. unfold os.MkdirAll. destruct (fault w _); [apply sameHost_refl|].
  destruct (os.isRegular path w); [apply sameHost_refl | repeat split].
Qed.

Lemma Preserves_Open name : Preserves (os.Open name).
Proof.
  intros w. unfold os.Open. destruct (fault w _); [apply sameHost_refl|].
  destruct (files w !! name); [apply sameHost_refl|].
  destruct (bool_decide _); apply sameHost_refl.
Qed.

Lemma Preserves_FileStat file : Preserves (os.FileStat file).
Proof.
  intros w. unfold os.FileStat. destruct file as [f|]; [|apply sameHost_refl].
  destruct (fault w _); [apply sameHost_refl|].
  destruct (os.fdata f); apply sameHost_refl.
Qed.

Lemma Preserves_Close file : Preserves (os.Close file).
Proof.
  intros w. unfold os.Close. destruct file as [f|]; [|apply sameHost_refl].
  destruct (fault w _); apply sameHost_refl.
Qed.

Lemma Preserves_WriteFile name data perm : Preserves (os.WriteFile name data perm).
Proof.
  intros w. unfold os.WriteFile. destruct (fault w _); [apply sameHost_refl|].
  destruct (bool_decide _); [apply sameHost_refl|].
  destruct (negb _); [apply sameHost_refl | repeat split].
Qed.

Lemma Preserves_New : Preserves uuid.New.
Proof. intros w. repeat split. Qed.

Ltac preserves :=
  repeat first
    [ apply Preserves_ret | apply Preserves_logw | apply Preserves_Stat
    | apply Preserves_MkdirAll | apply Preserves_Open | apply Preserves_FileStat
    | apply Preserves_Close | apply Preserves_WriteFile | apply Preserves_New
    | apply Preserves_bind; [|intros]
    | match goal with
      | |- Preserves (match ?x with _ => _ end) => destruct x
      end ].

Lemma Preserves_createTelemetryFile instanceFile : Preserves (createTelemetryFile instanceFile).
Proof. unfold createTelemetryFile. preserves. Qed.

Lemma Preserves_getInstanceID instanceFile : Preserves (getInstanceID instanceFile).
Proof.
  unfold getInstanceID, closeDeferred.
  pose proof Preserves_createTelemetryFile as Hc.
  preserves; apply Hc.
Qed.

Lemma getInstanceID_sameHost (instanceFile : string) (w : World) :
  sameHost w (snd (getInstanceID instanceFile w)).
Proof. apply Preserves_getInstanceID. Qed.

(** ** The host scraper *)

Lemma ScrapeHostMetrics_ok (w w1 : World) (instanceID : string) :
  getInstanceID telemetryFile w = (Ok instanceID, w1) ->
  fst (ScrapeHostMetrics w) =
  Ok {| Timestamp := clock w; Filename := telemetryFile;
        Metrics := <["hardware_arch" := hardwareOf (hostinfo w (S (hostinfoCalls w)))]>
                     (<["deployment" := "PACKAGE"]>
                        (<["OS" := osOf (hostinfo w (hostinfoCalls w))]>
                           (<[instanceIDKey := instanceID]> ∅))) |}.
Proof.
  intros H. pose proof (getInstanceID_sameHost telemetryFile w) as Hs.
  rewrite H in Hs. destruct Hs as (Hi & Hc & _ & _ & _ & _ & _ & Hk). cbn [snd] in Hi, Hc, Hk.
  unfold ScrapeHostMetrics. unfold bind at 1. rewrite H.
  unfold Now, getOSInfo, getHardwareInfo, getDeploymentInfo, GetInfo, bind, ret.
  cbn [fst snd hostinfo hostinfoCalls withHostinfoCalls]. rewrite Hi, Hc, Hk.
  destruct (hostinfo w (hostinfoCalls w));
    cbn [fst snd hostinfo hostinfoCalls withHostinfoCalls]; rewrite ?Hi, ?Hc;
    destruct (hostinfo w (S (hostinfoCalls w))); reflexivity.
Qed.

Lemma ScrapeHostMetrics_err (w w1 : World) (err : error) :
  getInstanceID telemetryFile w = (Err err, w1) ->
  ScrapeHostMetrics w = (Err (Wrapped "can't get Percona telemetry instanceID" err), w1).
Proof. intros H. unfold ScrapeHostMetrics, bind. now rewrite H. Qed.

(** C7, as the specification words it, fails for the deployment: on a host
    whose host information fails at every call the deployment metric is
    not [unknown]. *)
Lemma deployment_is_not_unknown :
  (forall k, hostinfo quietWorld k = Err (InfoError "uname failed"))
  /\ exists m, fst (ScrapeHostMetrics quietWorld) = Ok m
               /\ Metrics m !! "OS" = Some "unknown"
               /\ Metrics m !! "hardware_arch" = Some "unknown"
               /\ Metrics m !! "deployment" <> Some "unknown".
Proof.
  split; [reflexivity|].
  eexists. split; [vm_compute; reflexivity|].
  vm_compute. repeat split. discriminate.
Qed.

(** C7 (amended): in the record of the host scraper the OS and the hardware
    architecture come each from its own query of the host information and
    each is [unknown] when that query fails, whatever the other does; the
    deployment is the constant [PACKAGE], for which nothing is queried. *)
Theorem host_facts (w : World) (m : File) :
  fst (ScrapeHostMetrics w) = Ok m ->
  let osQuery := hostinfo w (hostinfoCalls w) in
  let hardwareQuery := hostinfo w (S (hostinfoCalls w)) in
  Metrics m !! "OS" =
    Some (match osQuery with Ok gi => OS gi +:+ " " +:+ Core gi | Err _ => "unknown" end)
  /\ Metrics m !! "hardware_arch" =
       Some (match hardwareQuery with Ok gi => Platform gi | Err _ => "unknown" end)
  /\ Metrics m !! "deployment" = Some "PACKAGE"
  /\ fst (getDeploymentInfo w) = "PACKAGE".
Proof.
  intros H. cbv zeta.
  destruct (getInstanceID telemetryFile w) as [[instanceID|err] w1] eqn:E.
  - rewrite (ScrapeHostMetrics_ok _ _ _ E) in H. injection H as <-.
    cbn [Metrics]. unfold instanceIDKey. split; [|split; [|split]].
    + rewrite lookup_insert_ne, lookup_insert_ne by discriminate. now rewrite lookup_insert_eq.
    + now rewrite lookup_insert_eq.
    + rewrite lookup_insert_ne by discriminate. now rewrite lookup_insert_eq.
    + reflexivity.
  - rewrite (ScrapeHostMetrics_err _ _ _ E) in H. discriminate.
Qed.

Lemma host_facts_witness :
  exists m, fst (ScrapeHostMetrics flakyWorld) = Ok m
            /\ Metrics m !! "OS" = Some "GNU/Linux 6.1.0-18-amd64"
            /\ Metrics m !! "hardware_arch" = Some "unknown"
            /\ Metrics m !! "deployment" = Some "PACKAGE".
Proof.
  destruct (fst (ScrapeHostMetrics flakyWorld)) as [m|err] eqn:E;
    [|vm_compute in E; discriminate].
  exists m. split; [reflexivity|].
  destruct (host_facts flakyWorld m E) as (Hos & Hhw & Hdep & _).
  split; [exact Hos | split; [exact Hhw | exact Hdep]].
Defined.

(** C10: when the identity manager returns without an error the host
    scraper returns a record without an error, also when the identifier is
    empty; the metrics of the record hold the identifier under [instanceId]
    and values under [OS], [deployment] and [hardware_arch]. *)
Theorem host_record_with_any_identifier (w : World) (instanceID : string) :
  fst (getInstanceID telemetryFile w) = Ok instanceID ->
  exists m,
    fst (ScrapeHostMetrics w) = Ok m
    /\ Metrics m !! "instanceId" = Some instanceID
    /\ is_Some (Metrics m !! "OS")
    /\ is_Some (Metrics m !! "deployment")
    /\ is_Some (Metrics m !! "hardware_arch").
Proof.
  intros H. destruct (getInstanceID telemetryFile w) as [r w1] eqn:E.
  cbn [fst] in H. subst r.
  eexists. split; [apply (ScrapeHostMetrics_ok _ _ _ E)|].
  cbn [Metrics]. unfold instanceIDKey. split; [|split; [|split]].
  - rewrite !lookup_insert_ne by discriminate. now rewrite lookup_insert_eq.
  - rewrite lookup_insert_ne, lookup_insert_ne by discriminate. rewrite lookup_insert_eq. eauto.
  - rewrite lookup_insert_ne by discriminate. rewrite lookup_insert_eq. eauto.
  - rewrite lookup_insert_eq. eauto.
Qed.

Lemma host_record_with_any_identifier_witness :
  fst (getInstanceID telemetryFile flakyWorld) = Ok EmptyString
  /\ exists m,
       fst (ScrapeHostMetrics flakyWorld) = Ok m
       /\ Metrics m !! "instanceId" = Some EmptyString
       /\ is_Some (Metrics m !! "OS")
       /\ is_Some (Metrics m !! "deployment")
       /\ is_Some (Metrics m !! "hardware_arch").
Proof.
  assert (H : fst (getInstanceID telemetryFile flakyWorld) = Ok EmptyString)
    by (vm_compute; reflexivity).
  split; [exact H|].
  exact (host_record_with_any_identifier flakyWorld EmptyString H).
Defined.

(** ** Scanning the identity file *)

Lemma breakAt_window (c : ascii) (s l r' : string) (n : nat) :
  breakAt c (String.substring 0 n s) = (l, Some r') ->
  exists r, breakAt c s = (l, Some r).
Proof.
  revert n l r'; induction s as [|a s IH]; intros [|n] l r'; simpl; try discriminate.
  destruct (Ascii.eqb a c).
  - intros [= <- _]. eauto.
  - destruct (breakAt c (String.substring 0 n s)) as [l0 o] eqn:E. intros [= <- ->].
    destruct (IH n l0 r' E) as [r Hr]. rewrite Hr. eauto.
Qed.

(** One step of the scanner of the identity file: the token is the input up
    to its first line feed, and the input goes on after it; without a line
    feed the whole input is the last token. *)
Lemma Scan_custom_token (s s' : Scanner) :
  Scan customSplitFunc s = (true, s') ->
  (exists r, breakAt "010" (src s) = (token s', Some r) /\ src s' = r)
  \/ (breakAt "010" (src s) = (token s', None) /\ src s' = EmptyString).
Proof.
  unfold Scan. destruct (scanErr s); [discriminate|].
  destruct (strings.len (src s) =? 0) eqn:E0.
  { unfold customSplitFunc. simpl. discriminate. }
  assert (Hsplit : forall data,
             customSplitFunc data false =
             match breakAt "010" data with
             | (l, Some _) => (strings.len l + 1, Some l, None)
             | (_, None) => (0, None, None)
             end).
  { intros data. unfold customSplitFunc. simpl andb. cbv iota.
    unfold newline. rewrite Index_single.
    destruct (breakAt "010" data) as [l [r|]] eqn:E.
    - replace (0 <=? strings.len l) with true by (symmetry; apply Z.leb_le; unfold strings.len; lia).
      apply breakAt_Some in E. subst data. now rewrite slice_upto.
    - reflexivity. }
  destruct (strings.len (src s) <? maxScanTokenSize).
  - rewrite Hsplit. destruct (breakAt "010" (src s)) as [l [r|]] eqn:E.
    + simpl. intros [= <-]. simpl. left. exists r. split; [reflexivity|].
      apply breakAt_Some in E. rewrite E. apply sliceFrom_after.
    + simpl. unfold customSplitFunc. rewrite E0. simpl. intros [= <-]. simpl. right.
      apply breakAt_None in E. subst l. split; [reflexivity | apply sliceFrom_end].
  - rewrite Hsplit.
    destruct (breakAt "010" (strings.slice (src s) 0 maxScanTokenSize)) as [l [r'|]] eqn:E;
      simpl; [|discriminate].
    intros [= <-]. simpl. left.
    apply breakAt_window in E as [r Hr]. exists r. split; [exact Hr|].
    apply breakAt_Some in Hr. rewrite Hr. apply sliceFrom_after.
Qed.

Lemma fileLines_step (s l r : string) :
  breakAt "010" s = (l, Some r) -> fileLines s = l :: fileLines r.
Proof. intros H. unfold fileLines, newline. now rewrite Split_single, H. Qed.

Lemma fileLines_last (s l : string) :
  breakAt "010" s = (l, None) -> fileLines s = [l].
Proof. intros H. unfold fileLines, newline. now rewrite Split_single, H. Qed.

Lemma scanAll_custom_empty (fuel : nat) (s : Scanner) :
  src s = EmptyString -> fst (scanAll fuel customSplitFunc s) = [].
Proof.
  intros H. destruct fuel; [reflexivity|]. simpl. unfold Scan. rewrite H.
  destruct (scanErr s); reflexivity.
Qed.

(** Every token of the scanner of the identity file is a line of the
    file. *)
Lemma custom_tokens_are_lines (fuel : nat) (s : Scanner) :
  forall t, In t (fst (scanAll fuel customSplitFunc s)) -> In t (fileLines (src s)).
Proof.
  revert s; induction fuel as [|n IH]; intros s t; simpl; [tauto|].
  destruct (Scan customSplitFunc s) as [[|] s'] eqn:E; [|simpl; tauto].
  specialize (IH s' t). pose proof (scanAll_custom_empty n s') as Hempty.
  destruct (scanAll n customSplitFunc s') as [toks e].
  simpl in *. unfold Text.
  apply Scan_custom_token in E as [(r & Hb & Hr)|[Hb Hr]].
  - rewrite (fileLines_step _ _ _ Hb). intros [<-|Hin]; [now left|].
    right. rewrite <- Hr. auto.
  - rewrite (fileLines_last _ _ Hb). intros [<-|Hin]; [now left|].
    rewrite (Hempty Hr) in Hin. destruct Hin.
Qed.

Lemma instanceLine_identity (line value : string) :
  instanceLine line = Some value -> isIdentityLine line.
Proof.
  unfold instanceLine, isIdentityLine.
  destruct (strings.Split line ":") as [|key [|v [|x l]]]; try discriminate.
  destruct (String.eqb_spec key instanceIDKey) as [->|]; [|discriminate].
  eauto.
Qed.

(** A file without a line that gives the identifier: the loop ends without
    a value. *)
Lemma forScan_no_identity (content : string) :
  (forall line, In line (fileLines content) -> ~ isIdentityLine line) ->
  fst (forScan customSplitFunc instanceLine (NewScanner content)) = None.
Proof.
  intros H. unfold forScan.
  rewrite (proj1 (scanLoop_scanAll _ customSplitFunc instanceLine (NewScanner content))).
  destruct (firstSome instanceLine _) as [v|] eqn:E; [|reflexivity].
  exfalso. apply firstSome_In in E as (t & Hin & Ht).
  apply custom_tokens_are_lines in Hin. simpl in Hin.
  apply (H t Hin). now apply instanceLine_identity in Ht.
Qed.

(** ** The lines of the output of a package tool *)

Lemma Scan_ScanLines_token (s s' : Scanner) :
  Scan ScanLines s = (true, s') ->
  (exists l r, breakAt "010" (src s) = (l, Some r) /\ token s' = dropCR l /\ src s' = r)
  \/ (exists l, breakAt "010" (src s) = (l, None) /\ token s' = dropCR l
                /\ src s' = EmptyString).
Proof.
  unfold Scan. destruct (scanErr s); [discriminate|].
  destruct (strings.len (src s) =? 0) eqn:E0.
  { unfold ScanLines. simpl. discriminate. }
  assert (Hsplit : forall data,
             ScanLines data false =
             match breakAt "010" data with
             | (l, Some _) => (strings.len l + 1, Some (dropCR l), None)
             | (_, None) => (0, None, None)
             end).
  { intros data. unfold ScanLines. simpl andb. cbv iota.
    unfold newline. rewrite Index_single.
    destruct (breakAt "010" data) as [l [r|]] eqn:E.
    - replace (0 <=? strings.len l) with true by (symmetry; apply Z.leb_le; unfold strings.len; lia).
      apply breakAt_Some in E. subst data. now rewrite slice_upto.
    - reflexivity. }
  destruct (strings.len (src s) <? maxScanTokenSize).
  - rewrite Hsplit. destruct (breakAt "010" (src s)) as [l [r|]] eqn:E.
    + simpl. intros [= <-]. simpl. left. exists l, r. split; [reflexivity|]. split; [reflexivity|].
      apply breakAt_Some in E. rewrite E. apply sliceFrom_after.
    + simpl. unfold ScanLines. rewrite E0. simpl andb. cbv iota.
      unfold newline. rewrite Index_single, E. simpl (0 <=? -1). cbv iota.
      simpl. intros [= <-]. simpl. right. exists l.
      apply breakAt_None in E. subst l.
      split; [reflexivity|]. split; [reflexivity | apply sliceFrom_end].
  - rewrite Hsplit.
    destruct (breakAt "010" (strings.slice (src s) 0 maxScanTokenSize)) as [l [r'|]] eqn:E;
      simpl; [|discriminate].
    intros [= <-]. simpl. left.
    apply breakAt_window in E as [r Hr]. exists l, r. split; [exact Hr|]. split; [reflexivity|].
    apply breakAt_Some in Hr. rewrite Hr. apply sliceFrom_after.
Qed.

Lemma scanAll_ScanLines_empty (fuel : nat) (s : Scanner) :
  src s = EmptyString -> fst (scanAll fuel ScanLines s) = [].
Proof.
  intros H. destruct fuel; [reflexivity|]. simpl. unfold Scan. rewrite H.
  destruct (scanErr s); reflexivity.
Qed.

(** Every line the parsers see is a piece of the output between two line
    feeds, without the carriage return it may end with. *)
Lemma ScanLines_tokens_are_lines (fuel : nat) (s : Scanner) :
  forall t, In t (fst (scanAll fuel ScanLines s)) ->
            exists piece, In piece (fileLines (src s)) /\ t = dropCR piece.
Proof.
  revert s; induction fuel as [|n IH]; intros s t; simpl; [tauto|].
  destruct (Scan ScanLines s) as [[|] s'] eqn:E; [|simpl; tauto].
  specialize (IH s' t). pose proof (scanAll_ScanLines_empty n s') as Hempty.
  destruct (scanAll n ScanLines s') as [toks e].
  simpl in *. unfold Text.
  apply Scan_ScanLines_token in E as [(l & r & Hb & Ht & Hr)|(l & Hb & Ht & Hr)].
  - rewrite (fileLines_step _ _ _ Hb). intros [<-|Hin].
    + exists l. split; [now left | exact Ht].
    + rewrite Hr in IH. destruct (IH Hin) as (piece & Hp & ->). exists piece. split; [now right|reflexivity].
  - rewrite (fileLines_last _ _ Hb). intros [<-|Hin].
    + exists l. split; [now left | exact Ht].
    + rewrite (Hempty Hr) in Hin. destruct Hin.
Qed.

Lemma outputLines_are_lines (output line : string) :
  In line (fst (outputLines output)) ->
  exists piece, In piece (fileLines output) /\ line = dropCR piece.
Proof. intros H. now apply ScanLines_tokens_are_lines in H. Qed.

(** ** Identifiers *)

Lemma plainByte_cases (c : ascii) :
  plainByte c = true ->
  (forall rest, strings.spaceWidth (String c rest) = 0%nat)
  /\ Ascii.eqb c ":" = false /\ Ascii.eqb c "010" = false.
Proof.
  destruct c as [[] [] [] [] [] [] [] []]; intros H; try discriminate H;
    (split; [intros rest; reflexivity | split; reflexivity]).
Qed.

Lemma breakAt_plain (c : ascii) (s : string) :
  (forall a, plainByte a = true -> Ascii.eqb a c = false) ->
  plainString s = true -> breakAt c s = (s, None).
Proof.
  intros Hc. induction s as [|a s IH]; simpl; [reflexivity|].
  intros H. apply andb_prop in H as [Ha Hs].
  rewrite (Hc a Ha), (IH Hs). reflexivity.
Qed.

Lemma plainString_substring (s : string) (n m : nat) :
  plainString s = true -> plainString (String.substring n m s) = true.
Proof.
  revert n m; induction s as [|a s IH]; intros [|n] [|m] H; simpl; try reflexivity;
    simpl in H; apply andb_prop in H as [Ha Hs].
  - now rewrite Ha, IH.
  - now apply IH.
  - now apply IH.
Qed.

Lemma spaceWidth_plain (s : string) :
  plainString s = true -> strings.spaceWidth s = 0%nat.
Proof.
  destruct s as [|a s]; [reflexivity|]. simpl plainString. intros H.
  apply andb_prop in H as [Ha _]. now apply plainByte_cases.
Qed.

Lemma endsWithSpace_plain (s : string) :
  plainString s = true -> strings.endsWithSpace s = 0%nat.
Proof.
  intros H. unfold strings.endsWithSpace, strings.lastBytes.
  rewrite !spaceWidth_plain by now apply plainString_substring.
  simpl. rewrite !andb_false_r. reflexivity.
Qed.

Lemma TrimSpace_plain (s : string) :
  plainString s = true -> strings.TrimSpace (String " " s) = s.
Proof.
  intros H. unfold strings.TrimSpace.
  cbn [String.length strings.trimSpaceLeft].
  change (strings.spaceWidth (String " " s)) with 1%nat. cbv iota.
  replace (String.substring 1 (S (String.length s) - 1) (String " " s)) with s.
  2:{ simpl. rewrite Nat.sub_0_r. symmetry. apply substring_all. }
  assert (Hl : forall n, strings.trimSpaceLeft n s = s).
  { intros [|n]; simpl; [reflexivity|]. now rewrite spaceWidth_plain. }
  rewrite Hl. simpl. now rewrite endsWithSpace_plain.
Qed.

(** The line written for an identifier gives that identifier back. *)
Lemma instanceLine_written (u : string) :
  plainString u = true ->
  instanceLine (instanceIDKey +:+ ": " +:+ u) = Some u.
Proof.
  intros H. unfold instanceLine.
  change ":" with (String ":" EmptyString) at 1. rewrite Split_single.
  change (breakAt ":" (instanceIDKey +:+ ": " +:+ u))
    with (instanceIDKey, Some (String " " u)).
  cbv beta iota. rewrite Split_single.
  assert (Hb : breakAt ":" (String " " u) = (String " " u, None)).
  { simpl. rewrite (breakAt_plain ":" u); [reflexivity| |exact H].
    intros a Ha. now apply plainByte_cases. }
  rewrite Hb. rewrite String.eqb_refl. now rewrite TrimSpace_plain.
Qed.

(** The scanner reads a short input without line feed as one token. *)
Lemma Scan_custom_single (content : string) :
  0 < strings.len content < maxScanTokenSize ->
  breakAt "010" content = (content, None) ->
  Scan customSplitFunc (NewScanner content)
  = (true, {| src := EmptyString; token := content; scanErr := None |}).
Proof.
  intros Hlen Hb. unfold Scan, NewScanner. cbn [scanErr src].
  replace (strings.len content =? 0) with false by (symmetry; apply Z.eqb_neq; lia).
  replace (strings.len content <? maxScanTokenSize) with true
    by (symmetry; apply Z.ltb_lt; lia).
  unfold customSplitFunc.
  replace (strings.len content =? 0) with false by (symmetry; apply Z.eqb_neq; lia).
  simpl andb. cbv iota.
  unfold newline. rewrite Index_single, Hb. simpl (0 <=? -1). cbv iota.
  unfold deliver. cbn [src]. now rewrite sliceFrom_end.
Qed.

Lemma forScan_written (u : string) :
  plainString u = true -> strings.len u < 1000 ->
  fst (forScan customSplitFunc instanceLine (NewScanner (instanceIDKey +:+ ": " +:+ u)))
  = Some u.
Proof.
  intros H Hlen. unfold forScan.
  set (content := instanceIDKey +:+ ": " +:+ u).
  assert (Hc : strings.len content = 12 + strings.len u).
  { unfold content, strings.len. rewrite !length_append. simpl. lia. }
  assert (Hu : 0 <= strings.len u) by (unfold strings.len; lia).
  assert (Hb : breakAt "010" content = (content, None)).
  { unfold content. simpl. rewrite (breakAt_plain "010" u); [reflexivity| |exact H].
    intros a Ha. now apply plainByte_cases. }
  cbn [scanLoop]. rewrite (Scan_custom_single content); [|unfold maxScanTokenSize; lia|exact Hb].
  unfold Text. cbn [token]. unfold content. now rewrite instanceLine_written.
Qed.

(** ** Fresh identifiers *)

Lemma byte_hex (b : ascii) :
  let v := Z.of_N (N_of_ascii b) in
  isHexDigit (uuid.hexDigit (Z.shiftr v 4)) = true
  /\ isHexDigit (uuid.hexDigit (Z.land v 15)) = true
  /\ uuid.hexDigit (Z.shiftr (Z.lor (Z.land v 15) 64) 4) = "4"%char
  /\ isHexDigit (uuid.hexDigit (Z.land (Z.lor (Z.land v 15) 64) 15)) = true
  /\ strings.inCutset "89ab" (uuid.hexDigit (Z.shiftr (Z.lor (Z.land v 63) 128) 4)) = true
  /\ isHexDigit (uuid.hexDigit (Z.shiftr (Z.lor (Z.land v 63) 128) 4)) = true
  /\ isHexDigit (uuid.hexDigit (Z.land (Z.lor (Z.land v 63) 128) 15)) = true.
Proof.
  destruct b as [[] [] [] [] [] [] [] []]; vm_compute; repeat split.
Qed.

(** The text of a fresh identifier, byte by byte. *)
Lemma nextUUID_text (w : World) :
  nextUUID w =
    (String (uuid.hexDigit (Z.shiftr (Z.of_N (N_of_ascii (entropy w (entropyPos w + 0)%nat))) 4))
      (String (uuid.hexDigit (Z.land (Z.of_N (N_of_ascii (entropy w (entropyPos w + 0)%nat))) 15))
      (String (uuid.hexDigit (Z.shiftr (Z.of_N (N_of_ascii (entropy w (entropyPos w + 1)%nat))) 4))
      (String (uuid.hexDigit (Z.land (Z.of_N (N_of_ascii (entropy w (entropyPos w + 1)%nat))) 15))
      (String (uuid.hexDigit (Z.shiftr (Z.of_N (N_of_ascii (entropy w (entropyPos w + 2)%nat))) 4))
      (String (uuid.hexDigit (Z.land (Z.of_N (N_of_ascii (entropy w (entropyPos w + 2)%nat))) 15))
      (String (uuid.hexDigit (Z.shiftr (Z.of_N (N_of_ascii (entropy w (entropyPos w + 3)%nat))) 4))
      (String (uuid.hexDigit (Z.land (Z.of_N (N_of_ascii (entropy w (entropyPos w + 3)%nat))) 15))
      (String "-"%char
      (String (uuid.hexDigit (Z.shiftr (Z.of_N (N_of_ascii (entropy w (entropyPos w + 4)%nat))) 4))
      (String (uuid.hexDigit (Z.land (Z.of_N (N_of_ascii (entropy w (entropyPos w + 4)%nat))) 15))
      (String (uuid.hexDigit (Z.shiftr (Z.of_N (N_of_ascii (entropy w (entropyPos w + 5)%nat))) 4))
      (String (uuid.hexDigit (Z.land (Z.of_N (N_of_ascii (entropy w (entropyPos w + 5)%nat))) 15))
      (String "-"%char
      (String (uuid.hexDigit (Z.shiftr (Z.lor (Z.land (Z.of_N (N_of_ascii (entropy w (entropyPos w + 6)%nat))) 15) 64) 4))
      (String (uuid.hexDigit (Z.land (Z.lor (Z.land (Z.of_N (N_of_ascii (entropy w (entropyPos w + 6)%nat))) 15) 64) 15))
      (String (uuid.hexDigit (Z.shiftr (Z.of_N (N_of_ascii (entropy w (entropyPos w + 7)%nat))) 4))
      (String (uuid.hexDigit (Z.land (Z.of_N (N_of_ascii (entropy w (entropyPos w + 7)%nat))) 15))
      (String "-"%char
      (String (uuid.hexDigit (Z.shiftr (Z.lor (Z.land (Z.of_N (N_of_ascii (entropy w (entropyPos w + 8)%nat))) 63) 128) 4))
      (String (uuid.hexDigit (Z.land (Z.lor (Z.land (Z.of_N (N_of_ascii (entropy w (entropyPos w + 8)%nat))) 63) 128) 15))
      (String (uuid.hexDigit (Z.shiftr (Z.of_N (N_of_ascii (entropy w (entropyPos w + 9)%nat))) 4))
      (String (uuid.hexDigit (Z.land (Z.of_N (N_of_ascii (entropy w (entropyPos w + 9)%nat))) 15))
      (String "-"%char
      (String (uuid.hexDigit (Z.shiftr (Z.of_N (N_of_ascii (entropy w (entropyPos w + 10)%nat))) 4))
      (String (uuid.hexDigit (Z.land (Z.of_N (N_of_ascii (entropy w (entropyPos w + 10)%nat))) 15))
      (String (uuid.hexDigit (Z.shiftr (Z.of_N (N_of_ascii (entropy w (entropyPos w + 11)%nat))) 4))
      (String (uuid.hexDigit (Z.land (Z.of_N (N_of_ascii (entropy w (entropyPos w + 11)%nat))) 15))
      (String (uuid.hexDigit (Z.shiftr (Z.of_N (N_of_ascii (entropy w (entropyPos w + 12)%nat))) 4))
      (String (uuid.hexDigit (Z.land (Z.of_N (N_of_ascii (entropy w (entropyPos w + 12)%nat))) 15))
      (String (uuid.hexDigit (Z.shiftr (Z.of_N (N_of_ascii (entropy w (entropyPos w + 13)%nat))) 4))
      (String (uuid.hexDigit (Z.land (Z.of_N (N_of_ascii (entropy w (entropyPos w + 13)%nat))) 15))
      (String (uuid.hexDigit (Z.shiftr (Z.of_N (N_of_ascii (entropy w (entropyPos w + 14)%nat))) 4))
      (String (uuid.hexDigit (Z.land (Z.of_N (N_of_ascii (entropy w (entropyPos w + 14)%nat))) 15))
      (String (uuid.hexDigit (Z.shiftr (Z.of_N (N_of_ascii (entropy w (entropyPos w + 15)%nat))) 4))
      (String (uuid.hexDigit (Z.land (Z.of_N (N_of_ascii (entropy w (entropyPos w + 15)%nat))) 15))
      EmptyString)))))))))))))))))))))))))))))))))))).
Proof. reflexivity. Qed.

(** A fresh identifier is a version 4 identifier in canonical text. *)
Lemma nextUUID_v4 (w : World) : isUUIDv4 (nextUUID w) = true.
Proof.
  rewrite nextUUID_text. unfold isUUIDv4. cbn [list_ascii_of_string]. cbv beta iota.
  cbn [forallb].
  destruct (byte_hex (entropy w (entropyPos w + 0)%nat)) as (H0a & H0b & H0c & H0d & H0e & H0f & H0g).
  destruct (byte_hex (entropy w (entropyPos w + 1)%nat)) as (H1a & H1b & H1c & H1d & H1e & H1f & H1g).
  destruct (byte_hex (entropy w (entropyPos w + 2)%nat)) as (H2a & H2b & H2c & H2d & H2e & H2f & H2g).
  destruct (byte_hex (entropy w (entropyPos w + 3)%nat)) as (H3a & H3b & H3c & H3d & H3e & H3f & H3g).
  destruct (byte_hex (entropy w (entropyPos w + 4)%nat)) as (H4a & H4b & H4c & H4d & H4e & H4f & H4g).
  destruct (byte_hex (entropy w (entropyPos w + 5)%nat)) as (H5a & H5b & H5c & H5d & H5e & H5f & H5g).
  destruct (byte_hex (entropy w (entropyPos w + 6)%nat)) as (H6a & H6b & H6c & H6d & H6e & H6f & H6g).
  destruct (byte_hex (entropy w (entropyPos w + 7)%nat)) as (H7a & H7b & H7c & H7d & H7e & H7f & H7g).
  destruct (byte_hex (entropy w (entropyPos w + 8)%nat)) as (H8a & H8b & H8c & H8d & H8e & H8f & H8g).
  destruct (byte_hex (entropy w (entropyPos w + 9)%nat)) as (H9a & H9b & H9c & H9d & H9e & H9f & H9g).
  destruct (byte_hex (entropy w (entropyPos w + 10)%nat)) as (H10a & H10b & H10c & H10d & H10e & H10f & H10g).
  destruct (byte_hex (entropy w (entropyPos w + 11)%nat)) as (H11a & H11b & H11c & H11d & H11e & H11f & H11g).
  destruct (byte_hex (entropy w (entropyPos w + 12)%nat)) as (H12a & H12b & H12c & H12d & H12e & H12f & H12g).
  destruct (byte_hex (entropy w (entropyPos w + 13)%nat)) as (H13a & H13b & H13c & H13d & H13e & H13f & H13g).
  destruct (byte_hex (entropy w (entropyPos w + 14)%nat)) as (H14a & H14b & H14c & H14d & H14e & H14f & H14g).
  destruct (byte_hex (entropy w (entropyPos w + 15)%nat)) as (H15a & H15b & H15c & H15d & H15e & H15f & H15g).
  cbv zeta in *.
  rewrite H0a, H0b, H1a, H1b, H2a, H2b, H3a, H3b, H4a, H4b, H5a, H5b, H6d, H7a, H7b, H8f, H8g, H8e, H9a, H9b, H10a, H10b, H11a, H11b, H12a, H12b, H13a, H13b, H14a, H14b, H15a, H15b.
  rewrite H6c. reflexivity.
Qed.

Lemma isUUIDv4_plain (u : string) :
  isUUIDv4 u = true -> plainString u = true /\ strings.len u = 36.
Proof.
  intros H. unfold isUUIDv4 in H.
  do 36 (destruct u as [|? u]; [discriminate H|]; cbn [list_ascii_of_string] in H).
  destruct u as [|? u]; [|discriminate H]. cbn [list_ascii_of_string] in H.
  split; [|reflexivity].
  cbn [forallb] in H.
  repeat match goal with
         | H : _ && _ = true |- _ => apply andb_prop in H as [? ?]
         end.
  cbn [plainString]. unfold plainByte.
  repeat (apply andb_true_intro; split); try reflexivity;
    match goal with
    | H : isHexDigit ?x = true |- isHexDigit ?x || _ = true => rewrite H; reflexivity
    | H : Ascii.eqb "-" ?x = true |- _ || Ascii.eqb "-" ?x = true => rewrite H; apply orb_true_r
    end.
Qed.

(** ** The identity manager, state by state *)

Ltac world_simpl :=
  cbn [fst snd dirs files fault dirSize entropy entropyPos clock hostinfo hostinfoCalls
       cmd execs log withLog withDirs withFiles withEntropyPos withHostinfoCalls withExecs
       os.fname os.fdata] in *.

Lemma upwards_head (fuel : nat) (path : string) : In path (os.upwards fuel path).
Proof.
  destruct fuel; simpl; [now left|].
  destruct (String.eqb (filepath.Dir path) path); now left.
Qed.

Lemma madeDirs_self (dirName : string) : dirName ∈ madeDirs dirName.
Proof.
  unfold madeDirs. apply elem_of_list_to_set. apply list_elem_of_In. apply upwards_head.
Qed.

(** Creating the identity: the identifier is the next one of the random
    source, and the file holds its line. *)
Lemma createTelemetryFile_ok (instanceFile : string) (w : World) :
  fault w (SysWriteFile instanceFile) = None ->
  instanceFile ∉ dirs w ->
  filepath.Dir instanceFile ∈ dirs w ->
  createTelemetryFile instanceFile w =
  (Ok (nextUUID w),
   withFiles (<[instanceFile := instanceIDKey +:+ ": " +:+ nextUUID w]> (files w))
     (withEntropyPos (entropyPos w + 16) w)).
Proof.
  intros Hf Hnd Hd. unfold createTelemetryFile, bind, os.WriteFile, nextUUID.
  destruct (uuid.New w) as [u w1] eqn:E. unfold uuid.New in E. injection E as <- <-.
  world_simpl. rewrite Hf.
  rewrite (bool_decide_eq_false_2 _ Hnd), (bool_decide_eq_true_2 _ Hd). reflexivity.
Qed.

Lemma createTelemetryFile_failed (instanceFile : string) (w : World) (e : Errno) :
  fault w (SysWriteFile instanceFile) = Some e ->
  exists l, createTelemetryFile instanceFile w =
            (Err (PathError "open" instanceFile e), withLog l (withEntropyPos (entropyPos w + 16) w)).
Proof.
  intros Hf. unfold createTelemetryFile, bind, os.WriteFile, uuid.New, logw, ret.
  world_simpl. rewrite Hf. eexists. reflexivity.
Qed.

Lemma Stat_not_missing (name : string) (w : World) :
  fault w (SysStat name) <> Some ENOENT -> name ∈ dirs w ->
  exists r, os.Stat name w = (r, w)
            /\ match r with Some e => IsNotExist e | None => false end = false.
Proof.
  intros Hs Hd. unfold os.Stat. destruct (fault w (SysStat name)) as [e|].
  - eexists. split; [reflexivity|]. destruct e; try reflexivity. congruence.
  - rewrite (bool_decide_eq_true_2 _ Hd). eexists. split; reflexivity.
Qed.

Lemma Close_logs (file : option os.File) (fl : list Field) (w : World) :
  exists l, closeDeferred file fl w = (tt, withLog (l ++ log w) w).
Proof.
  unfold closeDeferred, bind, os.Close, logw, ret.
  destruct file as [f|]; [destruct (fault w (SysClose (os.fname f)))|].
  - eexists [_]. reflexivity.
  - exists []. now destruct w.
  - eexists [_]. reflexivity.
Qed.

Section GetInstanceID.

Variable instanceFile : string.
Variable w : World.
Let clean := filepath.Clean instanceFile.
Let dirName := filepath.Dir clean.

(** The directory is absent: it is made, and the identity is created. *)
Lemma getInstanceID_no_directory :
  fault w (SysStat dirName) = None -> dirName ∉ dirs w -> files w !! dirName = None ->
  fault w (SysMkdirAll dirName) = None ->
  fault w (SysWriteFile clean) = None ->
  clean ∉ dirs w -> clean ∉ madeDirs dirName ->
  exists l, getInstanceID instanceFile w =
    (Ok (nextUUID w),
     withLog l (withFiles (<[clean := instanceIDKey +:+ ": " +:+ nextUUID w]> (files w))
                  (withEntropyPos (entropyPos w + 16)
                     (withDirs (dirs w ∪ madeDirs dirName) w)))).
Proof.
  intros Hs Hd Hr Hm Hw Hc1 Hc2.
  unfold getInstanceID. fold clean. fold dirName.
  unfold bind at 1, logw at 1. unfold bind at 1, os.Stat. world_simpl.
  rewrite Hs. unfold os.isRegular. world_simpl. rewrite Hr.
  rewrite (bool_decide_eq_false_2 _ Hd). cbn [orb IsNotExist].
  unfold bind at 1, os.MkdirAll. world_simpl. rewrite Hm.
  unfold os.isRegular. world_simpl. rewrite Hr.
  rewrite createTelemetryFile_ok; world_simpl.
  - eexists. reflexivity.
  - exact Hw.
  - fold (madeDirs dirName). apply not_elem_of_union. split; assumption.
  - fold (madeDirs dirName). apply elem_of_union. right. apply madeDirs_self.
Qed.

Hypothesis stat_ok : fault w (SysStat dirName) <> Some ENOENT.
Hypothesis dir_present : dirName ∈ dirs w.

(** The directory is there and the file is not: the identity is
    created. *)
Lemma getInstanceID_no_file :
  fault w (SysOpen clean) = None -> files w !! clean = None ->
  fault w (SysWriteFile clean) = None -> clean ∉ dirs w ->
  exists l, getInstanceID instanceFile w =
    (Ok (nextUUID w),
     withLog l (withFiles (<[clean := instanceIDKey +:+ ": " +:+ nextUUID w]> (files w))
                  (withEntropyPos (entropyPos w + 16) w))).
Proof.
  intros Ho Hf Hw Hc.
  unfold getInstanceID. fold clean. fold dirName.
  unfold bind at 1, logw at 1. unfold bind at 1.
  match goal with |- context [os.Stat dirName ?w0] =>
    destruct (Stat_not_missing dirName w0 stat_ok dir_present) as (r & -> & ->)
  end.
  unfold bind at 1, os.Open. world_simpl. rewrite Ho, Hf.
  rewrite (bool_decide_eq_false_2 _ Hc). unfold bind at 1. cbn [IsNotExist negb].
  rewrite createTelemetryFile_ok; world_simpl; try assumption.
  unfold bind at 1.
  match goal with |- context [closeDeferred ?f ?fl ?w0] =>
    destruct (Close_logs f fl w0) as (l & ->)
  end.
  eexists. reflexivity.
Qed.

(** The file is there and empty: the identity is created. *)
Lemma getInstanceID_empty_file :
  fault w (SysOpen clean) = None -> files w !! clean = Some EmptyString ->
  fault w (SysFstat clean) = None ->
  fault w (SysWriteFile clean) = None -> clean ∉ dirs w ->
  exists l, getInstanceID instanceFile w =
    (Ok (nextUUID w),
     withLog l (withFiles (<[clean := instanceIDKey +:+ ": " +:+ nextUUID w]> (files w))
                  (withEntropyPos (entropyPos w + 16) w))).
Proof.
  intros Ho Hf Hst Hw Hc.
  unfold getInstanceID. fold clean. fold dirName.
  unfold bind at 1, logw at 1. unfold bind at 1.
  match goal with |- context [os.Stat dirName ?w0] =>
    destruct (Stat_not_missing dirName w0 stat_ok dir_present) as (r & -> & ->)
  end.
  unfold bind at 1, os.Open. world_simpl. rewrite Ho, Hf.
  unfold bind at 1. unfold bind at 1, os.FileStat. world_simpl. rewrite Hst.
  change (strings.len EmptyString =? 0) with true. cbv iota.
  rewrite createTelemetryFile_ok; world_simpl; try assumption.
  unfold bind at 1.
  match goal with |- context [closeDeferred ?f ?fl ?w0] =>
    destruct (Close_logs f fl w0) as (l & ->)
  end.
  eexists. reflexivity.
Qed.

(** The file is there with content: nothing is created, the file system
    stays as it is, and the identifier is what the first line that gives
    one holds. *)
Lemma getInstanceID_content (content : string) :
  fault w (SysOpen clean) <> Some ENOENT -> files w !! clean = Some content ->
  content <> EmptyString ->
  exists l, getInstanceID instanceFile w =
    (match fault w (SysOpen clean) with
     | Some e => Err (PathError "open" clean e)
     | None =>
         match fault w (SysFstat clean) with
         | Some e => Err (PathError "stat" clean e)
         | None =>
             Ok (match fst (forScan customSplitFunc instanceLine (NewScanner content)) with
                 | Some v => v
                 | None => EmptyString
                 end)
         end
     end,
     withLog l w).
Proof.
  intros Ho Hf Hne.
  unfold getInstanceID. fold clean. fold dirName.
  unfold bind at 1, logw at 1. unfold bind at 1.
  match goal with |- context [os.Stat dirName ?w0] =>
    destruct (Stat_not_missing dirName w0 stat_ok dir_present) as (r & -> & ->)
  end.
  unfold bind at 1, os.Open. world_simpl.
  destruct (fault w (SysOpen clean)) as [e|] eqn:Eo.
  - unfold bind at 1.
    replace (IsNotExist (PathError "open" clean e)) with false
      by (destruct e; try reflexivity; congruence).
    cbn [negb]. unfold bind at 1, logw at 1. unfold ret at 1. unfold bind at 1.
    match goal with |- context [closeDeferred ?f ?fl ?w0] =>
      destruct (Close_logs f fl w0) as (l & ->)
    end.
    eexists. reflexivity.
  - rewrite Hf. unfold bind at 1. unfold bind at 1, os.FileStat. world_simpl.
    destruct (fault w (SysFstat clean)) as [e|] eqn:Es.
    + unfold bind at 1, logw at 1. unfold ret at 1. unfold bind at 1.
      match goal with |- context [closeDeferred ?f ?fl ?w0] =>
        destruct (Close_logs f fl w0) as (l & ->)
      end.
      eexists. reflexivity.
    + replace (strings.len content =? 0) with false
        by (destruct content; [congruence | reflexivity]).
      unfold os.NewFileScanner. world_simpl.
      destruct (forScan customSplitFunc instanceLine (NewScanner content)) as [found sc].
      world_simpl. unfold bind at 1.
      destruct (strings.len _ =? 0); unfold logw, ret; unfold bind at 1;
        match goal with |- context [closeDeferred ?f ?fl ?w0] =>
          destruct (Close_logs f fl w0) as (l & ->)
        end;
        eexists; reflexivity.
Qed.

End GetInstanceID.

(** ** The identity file: what is kept and what is created *)

(** C4: when the identity file exists in its directory, is not empty, can
    be opened and examined, and has no line that splits at [:] into two
    parts of which the first is [instanceId], the identity manager returns
    the empty string without an error and leaves the file system, and with
    it every byte of the file, as it is. *)
Theorem identity_without_key_is_kept (instanceFile : string) (w : World) (content : string) :
  let clean := filepath.Clean instanceFile in
  let dirName := filepath.Dir clean in
  dirName ∈ dirs w ->
  files w !! clean = Some content ->
  content <> EmptyString ->
  (forall line, In line (fileLines content) -> ~ isIdentityLine line) ->
  fault w (SysStat dirName) <> Some ENOENT ->
  fault w (SysOpen clean) = None ->
  fault w (SysFstat clean) = None ->
  fst (getInstanceID instanceFile w) = Ok EmptyString
  /\ files (snd (getInstanceID instanceFile w)) = files w
  /\ dirs (snd (getInstanceID instanceFile w)) = dirs w
  /\ files (snd (getInstanceID instanceFile w)) !! clean = Some content.
Proof.
  intros clean dirName Hd Hf Hne Hlines Hs Ho Hst.
  assert (Ho' : fault w (SysOpen clean) <> Some ENOENT) by (rewrite Ho; discriminate).
  destruct (getInstanceID_content instanceFile w Hs Hd content Ho' Hf Hne) as [l ->].
  fold clean. rewrite Ho, Hst. rewrite (forScan_no_identity content Hlines).
  world_simpl. auto.
Qed.

Lemma identity_without_key_is_kept_witness :
  fst (getInstanceID telemetryFile (worldWithFile "owner: percona")) = Ok EmptyString
  /\ files (snd (getInstanceID telemetryFile (worldWithFile "owner: percona")))
     = files (worldWithFile "owner: percona")
  /\ dirs (snd (getInstanceID telemetryFile (worldWithFile "owner: percona")))
     = dirs (worldWithFile "owner: percona")
  /\ files (snd (getInstanceID telemetryFile (worldWithFile "owner: percona")))
       !! filepath.Clean telemetryFile = Some "owner: percona".
Proof.
  apply (identity_without_key_is_kept telemetryFile (worldWithFile "owner: percona")
           "owner: percona").
  - vm_compute. reflexivity.
  - vm_compute. reflexivity.
  - discriminate.
  - intros line [<-|[]] [value Hv]. vm_compute in Hv. discriminate.
  - discriminate.
  - reflexivity.
  - reflexivity.
Defined.

(** C5: from a host without faults where the directory of the identity file
    is absent, the identity manager makes the directory, writes the line
    [instanceId: <uuid>] to the file and returns that identifier, a version
    4 identifier in canonical text; called again on the host it left, it
    returns the same string and writes nothing. *)
Theorem identity_round_trip (instanceFile : string) (w : World) :
  let clean := filepath.Clean instanceFile in
  let dirName := filepath.Dir clean in
  noFault w ->
  dirName ∉ dirs w -> files w !! dirName = None ->
  clean ∉ dirs w -> clean ∉ madeDirs dirName ->
  exists instanceID w1 w2,
    getInstanceID instanceFile w = (Ok instanceID, w1)
    /\ isUUIDv4 instanceID = true
    /\ dirName ∈ dirs w1
    /\ files w1 !! clean = Some ("instanceId: " +:+ instanceID)
    /\ getInstanceID instanceFile w1 = (Ok instanceID, w2)
    /\ files w2 = files w1.
Proof.
  intros clean dirName Hnf Hd Hr Hc1 Hc2.
  destruct (getInstanceID_no_directory instanceFile w (Hnf _) Hd Hr (Hnf _) (Hnf _) Hc1 Hc2)
    as [l H1].
  fold clean dirName in H1.
  pose proof (nextUUID_v4 w) as Hv. destruct (isUUIDv4_plain _ Hv) as [Hp Hlen].
  set (line := instanceIDKey +:+ ": " +:+ nextUUID w) in *.
  set (w1 := withLog l (withFiles (<[clean:=line]> (files w))
                          (withEntropyPos (entropyPos w + 16)
                             (withDirs (dirs w ∪ madeDirs dirName) w)))) in *.
  assert (Hs1 : fault w1 (SysStat dirName) <> Some ENOENT) by (simpl; rewrite Hnf; discriminate).
  assert (Hd1 : dirName ∈ dirs w1).
  { simpl. apply elem_of_union. right. apply madeDirs_self. }
  assert (Ho1 : fault w1 (SysOpen clean) <> Some ENOENT) by (simpl; rewrite Hnf; discriminate).
  assert (Hf1 : files w1 !! clean = Some line) by (simpl; apply lookup_insert_eq).
  assert (Hne : line <> EmptyString) by discriminate.
  destruct (getInstanceID_content instanceFile w1 Hs1 Hd1 line Ho1 Hf1 Hne) as [l2 H2].
  fold clean in H2.
  replace (fault w1 (SysOpen clean)) with (@None Errno) in H2 by (symmetry; apply Hnf).
  replace (fault w1 (SysFstat clean)) with (@None Errno) in H2 by (symmetry; apply Hnf).
  unfold line in H2. rewrite (forScan_written (nextUUID w) Hp) in H2 by lia.
  exists (nextUUID w), w1, (withLog l2 w1).
  split; [exact H1|]. split; [exact Hv|]. split; [exact Hd1|].
  split; [exact Hf1|]. split; [exact H2|]. reflexivity.
Qed.

Lemma identity_round_trip_witness :
  exists instanceID w1 w2,
    getInstanceID telemetryFile quietWorld = (Ok instanceID, w1)
    /\ isUUIDv4 instanceID = true
    /\ filepath.Dir (filepath.Clean telemetryFile) ∈ dirs w1
    /\ files w1 !! filepath.Clean telemetryFile = Some ("instanceId: " +:+ instanceID)
    /\ getInstanceID telemetryFile w1 = (Ok instanceID, w2)
    /\ files w2 = files w1.
Proof.
  apply (identity_round_trip telemetryFile quietWorld).
  - intros call. reflexivity.
  - vm_compute. discriminate.
  - vm_compute. reflexivity.
  - vm_compute. discriminate.
  - vm_compute. discriminate.
Defined.

Lemma afterCalls_kept (instanceFile : string) (w : World) (content : string) (n : nat) :
  let clean := filepath.Clean instanceFile in
  let dirName := filepath.Dir clean in
  dirName ∈ dirs w -> files w !! clean = Some content -> content <> EmptyString ->
  fault w (SysStat dirName) <> Some ENOENT -> fault w (SysOpen clean) <> Some ENOENT ->
  files (afterCalls n instanceFile w) = files w
  /\ dirs (afterCalls n instanceFile w) = dirs w
  /\ entropyPos (afterCalls n instanceFile w) = entropyPos w
  /\ fault (afterCalls n instanceFile w) = fault w.
Proof.
  intros clean dirName Hd Hf Hne Hs Ho.
  induction n as [|n (IHf & IHd & IHe & IHfault)]; [auto|].
  cbn [afterCalls]. set (wn := afterCalls n instanceFile w) in *.
  assert (Hd' : dirName ∈ dirs wn) by now rewrite IHd.
  assert (Hf' : files wn !! clean = Some content) by now rewrite IHf.
  assert (Hs' : fault wn (SysStat dirName) <> Some ENOENT) by now rewrite IHfault.
  assert (Ho' : fault wn (SysOpen clean) <> Some ENOENT) by now rewrite IHfault.
  destruct (getInstanceID_content instanceFile wn Hs' Hd' content Ho' Hf' Hne) as [l ->].
  world_simpl. auto.
Qed.

(** C8: the identity manager generates a fresh identifier and writes it to
    the file exactly when the directory is absent, the file is absent or
    the file is empty; when the file is there and not empty nothing is
    generated and no call, however many follow, changes the file. *)
Theorem identity_is_created_when_missing (instanceFile : string) (w : World) :
  let clean := filepath.Clean instanceFile in
  let dirName := filepath.Dir clean in
  let w' := snd (getInstanceID instanceFile w) in
  let missing :=
    dirName ∉ dirs w \/ files w !! clean = None \/ files w !! clean = Some EmptyString in
  (forall content,
      dirName ∈ dirs w -> files w !! clean = Some content -> content <> EmptyString ->
      fault w (SysStat dirName) <> Some ENOENT -> fault w (SysOpen clean) <> Some ENOENT ->
      (files w' = files w /\ dirs w' = dirs w /\ entropyPos w' = entropyPos w)
      /\ forall n, files (afterCalls n instanceFile w) !! clean = Some content)
  /\ (noFault w -> files w !! dirName = None -> clean ∉ dirs w -> clean ∉ madeDirs dirName ->
      (missing ->
         fst (getInstanceID instanceFile w) = Ok (nextUUID w)
         /\ files w' = <[clean := "instanceId: " +:+ nextUUID w]> (files w)
         /\ entropyPos w' = (entropyPos w + 16)%nat)
      /\ (entropyPos w' <> entropyPos w <-> missing)).
Proof.
  intros clean dirName w' missing. split.
  - intros content Hd Hf Hne Hs Ho. split.
    + destruct (getInstanceID_content instanceFile w Hs Hd content Ho Hf Hne) as [l H].
      unfold w'. rewrite H. world_simpl. auto.
    + intros n.
      destruct (afterCalls_kept instanceFile w content n Hd Hf Hne Hs Ho) as (-> & _).
      exact Hf.
  - intros Hnf Hr Hc1 Hc2.
    assert (Hgen : missing ->
              fst (getInstanceID instanceFile w) = Ok (nextUUID w)
              /\ files w' = <[clean := "instanceId: " +:+ nextUUID w]> (files w)
              /\ entropyPos w' = (entropyPos w + 16)%nat).
    { intros Hm. unfold w'.
      destruct (decide (dirName ∈ dirs w)) as [Hd|Hd].
      - assert (Hs : fault w (SysStat dirName) <> Some ENOENT) by (rewrite Hnf; discriminate).
        destruct Hm as [Hm|[Hm|Hm]]; [contradiction| |].
        + destruct (getInstanceID_no_file instanceFile w Hs Hd (Hnf _) Hm (Hnf _) Hc1) as [l ->].
          world_simpl. auto.
        + destruct (getInstanceID_empty_file instanceFile w Hs Hd (Hnf _) Hm (Hnf _) (Hnf _) Hc1)
            as [l ->].
          world_simpl. auto.
      - destruct (getInstanceID_no_directory instanceFile w (Hnf _) Hd Hr (Hnf _) (Hnf _) Hc1 Hc2)
          as [l ->].
        world_simpl. auto. }
    split; [exact Hgen|]. split.
    + intros Hchanged.
      destruct (decide (dirName ∈ dirs w)) as [Hd|Hd]; [|now left].
      destruct (files w !! clean) as [content|] eqn:Hf; [|right; now left].
      destruct content as [|c content]; [right; now right|].
      exfalso. apply Hchanged.
      assert (Hs : fault w (SysStat dirName) <> Some ENOENT) by (rewrite Hnf; discriminate).
      assert (Ho : fault w (SysOpen clean) <> Some ENOENT) by (rewrite Hnf; discriminate).
      destruct (getInstanceID_content instanceFile w Hs Hd (String c content) Ho Hf ltac:(discriminate))
        as [l H].
      unfold w'. rewrite H. reflexivity.
    + intros Hm. destruct (Hgen Hm) as (_ & _ & He). rewrite He. lia.
Qed.

Lemma identity_is_created_when_missing_witness :
  ((files (snd (getInstanceID telemetryFile (worldWithFile "instanceId: abc")))
    = files (worldWithFile "instanceId: abc")
    /\ dirs (snd (getInstanceID telemetryFile (worldWithFile "instanceId: abc")))
       = dirs (worldWithFile "instanceId: abc")
    /\ entropyPos (snd (getInstanceID telemetryFile (worldWithFile "instanceId: abc")))
       = entropyPos (worldWithFile "instanceId: abc"))
   /\ forall n, files (afterCalls n telemetryFile (worldWithFile "instanceId: abc"))
                  !! filepath.Clean telemetryFile = Some "instanceId: abc")
  /\ (fst (getInstanceID telemetryFile (worldWithFile EmptyString))
      = Ok (nextUUID (worldWithFile EmptyString))
      /\ files (snd (getInstanceID telemetryFile (worldWithFile EmptyString)))
         = <[filepath.Clean telemetryFile
               := "instanceId: " +:+ nextUUID (worldWithFile EmptyString)]>
             (files (worldWithFile EmptyString))
      /\ entropyPos (snd (getInstanceID telemetryFile (worldWithFile EmptyString)))
         = (entropyPos (worldWithFile EmptyString) + 16)%nat).
Proof.
  split.
  - apply (proj1 (identity_is_created_when_missing telemetryFile
                    (worldWithFile "instanceId: abc")) "instanceId: abc").
    + vm_compute. reflexivity.
    + vm_compute. reflexivity.
    + discriminate.
    + discriminate.
    + discriminate.
  - apply (proj2 (identity_is_created_when_missing telemetryFile (worldWithFile EmptyString))).
    + intros call. reflexivity.
    + vm_compute. reflexivity.
    + vm_compute. discriminate.
    + vm_compute. discriminate.
    + right. right. vm_compute. reflexivity.
Defined.

(** * The scrapers at their edges and as wholes

    What the code does beyond the single cases above: what a whole scrape
    runs, returns and logs, what the scanners make of any text, what the
    parsers make of the lines the package tools print, and what the identity
    manager reads, writes and reports on any host. *)

(** ** The families, once more *)

Section Families.

Context {ranges : unicode.CaseRanges}.

(** X1: no name is of both families, so the order in which the scraper
    asks for the two families decides nothing. *)
Theorem families_are_disjoint (name : string) :
  isDebianFamily name && isRHELFamily name = false.
Proof.
  destruct (isDebianFamily name) eqn:E; [|reflexivity].
  now rewrite (families_apart name E).
Qed.

Lemma ScrapeInstalledPackages_family (ctx : Context) (w : World) :
  ScrapeInstalledPackages ctx w =
  let (localOs, w1) := getOSInfo w in
  match familyOf localOs with
  | DebianFamily => scrapeLoop queryDpkg ctx (catalogueOf DebianFamily) [] w1
  | RhelFamily => scrapeLoop queryRpm ctx (catalogueOf RhelFamily) [] w1
  | Unsupported =>
      ([], withLog ({| level := WarnLevel; message := "unsupported package system";
                       fields := [FString "OS" localOs] |} :: log w1) w1)
  end.
Proof.
  unfold ScrapeInstalledPackages, familyOf, catalogueOf. unfold bind at 1.
  destruct (getOSInfo w) as [localOs w1].
  destruct (isDebianFamily localOs); [reflexivity|].
  destruct (isRHELFamily localOs); reflexivity.
Qed.

(** X2: when the host information cannot be had, the operating system is
    [unknown], which is of no family: the scraper returns no package, runs
    no command of a package tool and warns once; all it has done is to ask
    for the host information and to log the warning. *)
Theorem no_host_information_no_packages (ctx : Context) (w : World) (e : error) :
  hostinfo w (hostinfoCalls w) = Err e ->
  ScrapeInstalledPackages ctx w =
    ([], withLog ({| level := WarnLevel; message := "unsupported package system";
                     fields := [FString "OS" "unknown"] |} :: log w)
           (withHostinfoCalls (S (hostinfoCalls w)) w)).
Proof.
  intros H. rewrite ScrapeInstalledPackages_family.
  unfold getOSInfo, bind, GetInfo. rewrite H. reflexivity.
Qed.

End Families.

Section UnknownHost.

#[local] Existing Instance sampleRanges.

Lemma no_host_information_no_packages_witness :
  ScrapeInstalledPackages Background quietWorld =
    ([], withLog ({| level := WarnLevel; message := "unsupported package system";
                     fields := [FString "OS" "unknown"] |} :: log quietWorld)
           (withHostinfoCalls (S (hostinfoCalls quietWorld)) quietWorld)).
Proof.
  apply (no_host_information_no_packages Background quietWorld (InfoError "uname failed")).
  reflexivity.
Defined.

End UnknownHost.

(** ** What a scrape runs and what it warns about *)

Section Traces.

Context {ranges : unicode.CaseRanges}.

Lemma probeWarning_loop (err : error) (packageName : string) :
  probeWarning {| level := WarnLevel; message := "failed to get package info";
                  fields := [FError err; FString "package" packageName] |} = Some packageName.
Proof. reflexivity. Qed.

Lemma parseDpkgOutput_quiet (packageName dpkgOutput : string) (err : option error) (w : World) :
  let w' := snd (parseDpkgOutput packageName dpkgOutput err w) in
  execs w' = execs w /\ hostinfoCalls w' = hostinfoCalls w
  /\ warnedPackages (log w') = warnedPackages (log w).
Proof.
  unfold parseDpkgOutput. destruct err.
  - destruct (strings.Contains _ _); simpl; auto.
  - destruct (forScan _ _ _) as [found scanner].
    destruct (ScannerErr scanner); simpl; auto.
    destruct (0 <? strings.len _); simpl; auto.
Qed.

Lemma parseRpmOutput_quiet (packageName rpmOutput : string) (err : option error) (w : World) :
  let w' := snd (parseRpmOutput packageName rpmOutput err w) in
  execs w' = execs w /\ hostinfoCalls w' = hostinfoCalls w
  /\ warnedPackages (log w') = warnedPackages (log w).
Proof.
  unfold parseRpmOutput. destruct err.
  - destruct (strings.Contains _ _); simpl; auto.
  - destruct (forScan _ _ _) as [found scanner].
    destruct (ScannerErr scanner); simpl; auto.
    destruct (0 <? strings.len _); simpl; auto.
Qed.

(** A probe runs its command, and nothing it logs is a warning of the
    loop. *)
Lemma queryDpkg_trace (ctx : Context) (packageName : string) (w : World) :
  let w' := snd (queryDpkg ctx packageName w) in
  execs w' = dpkgCommand packageName :: execs w /\ hostinfoCalls w' = hostinfoCalls w
  /\ warnedPackages (log w') = warnedPackages (log w).
Proof.
  unfold queryDpkg, bind, logw, CombinedOutput. cbn [fst snd].
  destruct (cmd _ _ _ _) as [output err].
  match goal with |- context [parseDpkgOutput _ _ _ ?w1] =>
    destruct (parseDpkgOutput_quiet packageName output err w1) as (He & Hh & Hl)
  end.
  cbv zeta. rewrite He, Hh, Hl. split; [reflexivity | split; reflexivity].
Qed.

Lemma queryRpm_trace (ctx : Context) (packageName : string) (w : World) :
  let w' := snd (queryRpm ctx packageName w) in
  execs w' = rpmCommand packageName :: execs w /\ hostinfoCalls w' = hostinfoCalls w
  /\ warnedPackages (log w') = warnedPackages (log w).
Proof.
  unfold queryRpm, bind, logw, CombinedOutput. cbn [fst snd].
  destruct (cmd _ _ _ _) as [output err].
  match goal with |- context [parseRpmOutput _ _ _ ?w1] =>
    destruct (parseRpmOutput_quiet packageName output err w1) as (He & Hh & Hl)
  end.
  cbv zeta. rewrite He, Hh, Hl. split; [reflexivity | split; reflexivity].
Qed.

(** One turn of the loop of the scraper. *)
Lemma scrapeLoop_cons (pkgFunc : queryPkgFunc) (ctx : Context) (pName : string)
    (rest : list string) (toReturn : list Package) (w : World) :
  scrapeLoop pkgFunc ctx (pName :: rest) toReturn w =
  let (r, w1) := pkgFunc ctx pName w in
  match r with
  | Ok pkg => scrapeLoop pkgFunc ctx rest (toReturn ++ [pkg]) w1
  | Err err =>
      scrapeLoop pkgFunc ctx rest toReturn
        (if isPackageNotFound err then w1
         else withLog ({| level := WarnLevel; message := "failed to get package info";
                          fields := [FError err; FString "package" pName] |} :: log w1) w1)
  end.
Proof.
  cbn [scrapeLoop]. unfold bind at 1. destruct (pkgFunc ctx pName w) as [[pkg|err] w1].
  - reflexivity.
  - unfold bind at 1. destruct (isPackageNotFound err); reflexivity.
Qed.

Section ScrapeTrace.

Variable pkgFunc : queryPkgFunc.
Variable command : string -> list string.
Variable probe : Context -> World -> nat -> string -> Result Package.
Hypothesis pkgFunc_probe : forall ctx packageName w,
  fst (pkgFunc ctx packageName w) = probe ctx w (List.length (execs w)) packageName
  /\ cmd (snd (pkgFunc ctx packageName w)) = cmd w
  /\ List.length (execs (snd (pkgFunc ctx packageName w))) = S (List.length (execs w)).
Hypothesis probe_oracle : forall ctx w w' k packageName,
  cmd w' = cmd w -> probe ctx w' k packageName = probe ctx w k packageName.
Hypothesis pkgFunc_trace : forall ctx packageName w,
  execs (snd (pkgFunc ctx packageName w)) = command packageName :: execs w
  /\ hostinfoCalls (snd (pkgFunc ctx packageName w)) = hostinfoCalls w
  /\ warnedPackages (log (snd (pkgFunc ctx packageName w))) = warnedPackages (log w).

Lemma scrapeLoop_trace (ctx : Context) (pkgList : list string) (toReturn : list Package)
    (w : World) :
  let w' := snd (scrapeLoop pkgFunc ctx pkgList toReturn w) in
  execs w' = rev (map command pkgList) ++ execs w
  /\ hostinfoCalls w' = hostinfoCalls w
  /\ warnedPackages (log w') =
       rev (unexpectedFailures pkgList
              (probeOutcomes (probe ctx w) (List.length (execs w)) pkgList))
       ++ warnedPackages (log w).
Proof.
  cbv zeta. revert toReturn w; induction pkgList as [|pName rest IH]; intros toReturn w.
  - split; [reflexivity | split; reflexivity].
  - rewrite scrapeLoop_cons. cbn [probeOutcomes map rev unexpectedFailures].
    destruct (pkgFunc_probe ctx pName w) as (Hr & Hc & Hn).
    destruct (pkgFunc_trace ctx pName w) as (He & Hh & Hl).
    destruct (pkgFunc ctx pName w) as [r w1]. cbn [fst snd] in *. rewrite <- Hr.
    assert (Hext : forall w2, cmd w2 = cmd w1 ->
               probeOutcomes (probe ctx w2) (S (List.length (execs w))) rest
               = probeOutcomes (probe ctx w) (S (List.length (execs w))) rest).
    { intros w2 H2. apply probeOutcomes_ext. intros. apply probe_oracle. congruence. }
    destruct r as [pkg|err].
    + destruct (IH (toReturn ++ [pkg]) w1) as (IHe & IHh & IHl).
      rewrite IHe, IHh, IHl, Hn, He, Hh, Hl, (Hext w1 eq_refl), <- app_assoc.
      split; [reflexivity | split; reflexivity].
    + destruct (isPackageNotFound err).
      * destruct (IH toReturn w1) as (IHe & IHh & IHl).
        rewrite IHe, IHh, IHl, Hn, He, Hh, Hl, (Hext w1 eq_refl), <- app_assoc.
        split; [reflexivity | split; reflexivity].
      * match goal with |- context [scrapeLoop _ _ _ _ ?w2] =>
          destruct (IH toReturn w2) as (IHe & IHh & IHl)
        end.
        cbn [execs hostinfoCalls log withLog] in IHe, IHh, IHl.
        rewrite IHe, IHh, IHl, Hn, He, Hh. cbn [warnedPackages].
        rewrite probeWarning_loop, Hl, (Hext (withLog _ w1) eq_refl).
        cbn [rev]. rewrite <- !app_assoc.
        split; [reflexivity | split; reflexivity].
Qed.

End ScrapeTrace.

Lemma getOSInfo_trace (w : World) :
  let w' := snd (getOSInfo w) in
  cmd w' = cmd w /\ execs w' = execs w /\ log w' = log w
  /\ hostinfoCalls w' = S (hostinfoCalls w).
Proof.
  unfold getOSInfo, bind, GetInfo. destruct (hostinfo w (hostinfoCalls w)); simpl; auto.
Qed.

(** The scraper on a host whose family is known: the loop over the
    catalogue of the family, with the probe and the command of the family. *)
Lemma ScrapeInstalledPackages_trace (ctx : Context) (w : World) :
  let family := familyOf (fst (getOSInfo w)) in
  let w' := snd (ScrapeInstalledPackages ctx w) in
  execs w' = rev (map (commandOf family) (catalogueOf family)) ++ execs w
  /\ hostinfoCalls w' = S (hostinfoCalls w)
  /\ warnedPackages (log w') =
       rev (unexpectedFailures (catalogueOf family)
              (probeOutcomes (probeOf family ctx w) (List.length (execs w)) (catalogueOf family)))
       ++ warnedPackages (log w).
Proof.
  cbv zeta. rewrite ScrapeInstalledPackages_family.
  destruct (getOSInfo_trace w) as (Hc & He & Hl & Hh).
  destruct (getOSInfo w) as [localOs w1]. cbn [fst snd] in *.
  destruct (familyOf localOs).
  - destruct (scrapeLoop_trace queryDpkg dpkgCommand dpkgProbe
                queryDpkg_probe dpkgProbe_oracle queryDpkg_trace ctx
                (catalogueOf DebianFamily) [] w1) as (H1 & H2 & H3).
    rewrite H1, H2, H3, He, Hh, Hl. split; [reflexivity|]. split; [reflexivity|].
    f_equal. f_equal. f_equal. apply probeOutcomes_ext. intros. now apply dpkgProbe_oracle.
  - destruct (scrapeLoop_trace queryRpm rpmCommand rpmProbe
                queryRpm_probe rpmProbe_oracle queryRpm_trace ctx
                (catalogueOf RhelFamily) [] w1) as (H1 & H2 & H3).
    rewrite H1, H2, H3, He, Hh, Hl. split; [reflexivity|]. split; [reflexivity|].
    f_equal. f_equal. f_equal. apply probeOutcomes_ext. intros. now apply rpmProbe_oracle.
  - cbn [snd execs hostinfoCalls log withLog warnedPackages catalogueOf map rev
         unexpectedFailures probeOutcomes app].
    rewrite He, Hh, Hl. split; [reflexivity | split; reflexivity].
Qed.

(** X3: a scrape asks for the host information once and calls
    [CombinedOutput] once for every package of the catalogue of the family,
    in the order of the catalogue, each time with the command of the family
    for that package: thirty-one calls, whatever the calls return. On a
    host of no family it makes no such call. *)
Theorem scrape_queries_each_package_once (ctx : Context) (w : World) :
  let family := familyOf (fst (getOSInfo w)) in
  let w' := snd (ScrapeInstalledPackages ctx w) in
  execs w' = rev (map (commandOf family) (catalogueOf family)) ++ execs w
  /\ List.length (execs w') =
       (match family with Unsupported => 0 | _ => 31 end + List.length (execs w))%nat
  /\ hostinfoCalls w' = S (hostinfoCalls w).
Proof.
  cbv zeta. destruct (ScrapeInstalledPackages_trace ctx w) as (He & Hh & _).
  split; [exact He|]. split; [|exact Hh].
  rewrite He, length_app, length_rev, length_map.
  destruct (familyOf (fst (getOSInfo w))); reflexivity.
Qed.

(** X4: a package that is not installed is passed over in silence; the
    loop of the scraper warns about a package exactly when its probe failed
    for another reason, once, in the order of the catalogue. *)
Theorem only_unexpected_failures_are_warned (ctx : Context) (w : World) :
  let family := familyOf (fst (getOSInfo w)) in
  let outcomes :=
    probeOutcomes (probeOf family ctx w) (List.length (execs w)) (catalogueOf family) in
  warnedPackages (log (snd (ScrapeInstalledPackages ctx w))) =
    rev (unexpectedFailures (catalogueOf family) outcomes) ++ warnedPackages (log w).
Proof.
  cbv zeta. now destruct (ScrapeInstalledPackages_trace ctx w) as (_ & _ & Hl).
Qed.

(** ** The names a scrape returns *)

Lemma parseDpkgOutput_name (packageName dpkgOutput : string) (err : option error) (w : World)
    (pkg : Package) :
  fst (parseDpkgOutput packageName dpkgOutput err w) = Ok pkg -> Name pkg = packageName.
Proof.
  unfold parseDpkgOutput. destruct err.
  - destruct (strings.Contains _ _); discriminate.
  - destruct (forScan _ _ _) as [found scanner].
    destruct (ScannerErr scanner); [discriminate|].
    destruct (0 <? strings.len _); [|discriminate].
    now intros [= <-].
Qed.

Lemma parseRpmOutput_name (packageName rpmOutput : string) (err : option error) (w : World)
    (pkg : Package) :
  fst (parseRpmOutput packageName rpmOutput err w) = Ok pkg -> Name pkg = packageName.
Proof.
  unfold parseRpmOutput. destruct err.
  - destruct (strings.Contains _ _); discriminate.
  - destruct (forScan _ _ _) as [found scanner].
    destruct (ScannerErr scanner); [discriminate|].
    destruct (0 <? strings.len _); [|discriminate].
    now intros [= <-].
Qed.

Lemma probeOf_name (family : Family) (ctx : Context) (w : World) (k : nat)
    (packageName : string) (pkg : Package) :
  probeOf family ctx w k packageName = Ok pkg -> Name pkg = packageName.
Proof.
  destruct family; unfold probeOf, dpkgProbe, rpmProbe; [| |discriminate];
    destruct (cmd w _ _ _) as [output err].
  - apply parseDpkgOutput_name.
  - apply parseRpmOutput_name.
Qed.

Lemma found_names_sublist (probe : nat -> string -> Result Package) (k : nat)
    (catalogue : list string) :
  (forall i packageName pkg, probe i packageName = Ok pkg -> Name pkg = packageName) ->
  map Name (foundPackages (probeOutcomes probe k catalogue)) `sublist_of` catalogue.
Proof.
  intros Hname. revert k; induction catalogue as [|p rest IH]; intros k.
  - constructor.
  - cbn [probeOutcomes foundPackages]. destruct (probe k p) as [pkg|err] eqn:E.
    + cbn [foundPackages map]. rewrite (Hname _ _ _ E). constructor. apply IH.
    + cbn [foundPackages]. constructor. apply IH.
Qed.

(** What the scraper returns, by the family of the host. *)
Lemma ScrapeInstalledPackages_found (ctx : Context) (w : World) :
  let family := familyOf (fst (getOSInfo w)) in
  fst (ScrapeInstalledPackages ctx w) =
  foundPackages (probeOutcomes (probeOf family ctx w) (List.length (execs w)) (catalogueOf family)).
Proof.
  cbv zeta. rewrite ScrapeInstalledPackages_family.
  destruct (getOSInfo_trace w) as (Hc & He & _ & _).
  destruct (getOSInfo w) as [localOs w1]. cbn [fst snd] in *.
  destruct (familyOf localOs).
  - rewrite (scrapeLoop_found queryDpkg dpkgProbe queryDpkg_probe dpkgProbe_oracle).
    rewrite He. change (@nil Package ++ ?l) with l. f_equal.
    apply probeOutcomes_ext. intros. now apply dpkgProbe_oracle.
  - rewrite (scrapeLoop_found queryRpm rpmProbe queryRpm_probe rpmProbe_oracle).
    rewrite He. change (@nil Package ++ ?l) with l. f_equal.
    apply probeOutcomes_ext. intros. now apply rpmProbe_oracle.
  - reflexivity.
Qed.

Lemma catalogueOf_NoDup (family : Family) : NoDup (catalogueOf family).
Proof.
  destruct family; apply (bool_decide_unpack _); vm_compute; exact I.
Qed.

(** X5: the names of the packages a scrape returns are names of the
    catalogue of the family, in the order of the catalogue and each at most
    once: no package is reported twice, and never more than the thirty-one
    of a catalogue. *)
Theorem scraped_names_follow_the_catalogue (ctx : Context) (w : World) :
  let family := familyOf (fst (getOSInfo w)) in
  let names := map Name (fst (ScrapeInstalledPackages ctx w)) in
  names `sublist_of` catalogueOf family
  /\ NoDup names
  /\ (List.length names <= 31)%nat.
Proof.
  cbv zeta. rewrite ScrapeInstalledPackages_found.
  set (family := familyOf (fst (getOSInfo w))).
  assert (Hsub : map Name (foundPackages
                   (probeOutcomes (probeOf family ctx w) (List.length (execs w))
                      (catalogueOf family))) `sublist_of` catalogueOf family).
  { apply found_names_sublist. intros i p pkg. apply probeOf_name. }
  split; [exact Hsub|]. split.
  - eapply sublist_NoDup; [apply catalogueOf_NoDup | exact Hsub].
  - apply sublist_length in Hsub. etransitivity; [exact Hsub|].
    destruct family; vm_compute; lia.
Qed.

End Traces.

(** ** Scanning line by line *)

Lemma textLines_cons (a : ascii) (s : string) :
  textLines (String a s) =
  if Ascii.eqb a "010" then EmptyString :: textLines s
  else match textLines s with
       | line :: rest => String a line :: rest
       | [] => [String a EmptyString]
       end.
Proof. reflexivity. Qed.

Lemma breakAt_cons (c a : ascii) (s : string) :
  breakAt c (String a s) =
  if Ascii.eqb a c then (EmptyString, Some s)
  else let (l, r) := breakAt c s in (String a l, r).
Proof. reflexivity. Qed.

(** The first line of a text and the lines of the rest. *)
Lemma textLines_breakAt (a : ascii) (s : string) :
  textLines (String a s) =
  match breakAt "010" (String a s) with
  | (l, Some r) => l :: textLines r
  | (l, None) => [l]
  end.
Proof.
  revert a; induction s as [|b s IH]; intros a.
  - rewrite textLines_cons, breakAt_cons. destruct (Ascii.eqb a "010"); reflexivity.
  - rewrite textLines_cons, (breakAt_cons "010" a). destruct (Ascii.eqb a "010"); [reflexivity|].
    rewrite IH. destruct (breakAt "010" (String b s)) as [l [r|]]; reflexivity.
Qed.

Lemma breakAt_window_found (c : ascii) (s l r : string) (n : nat) :
  breakAt c s = (l, Some r) -> (String.length l < n)%nat ->
  exists r', breakAt c (String.substring 0 n s) = (l, Some r').
Proof.
  revert l n; induction s as [|a s IH]; intros l n; [discriminate|].
  rewrite breakAt_cons. destruct n as [|n]; [lia|].
  cbn [String.substring]. rewrite breakAt_cons.
  destruct (Ascii.eqb a c).
  - intros [= <- <-] _. eauto.
  - destruct (breakAt c s) as [l0 o] eqn:E. intros [= <- ->] Hlen. cbn [String.length] in Hlen.
    destruct (IH l0 n eq_refl ltac:(lia)) as [r' Hr']. rewrite Hr'. eauto.
Qed.

Lemma breakAt_window_none (c : ascii) (s l : string) (o : option string) (n : nat) :
  breakAt c s = (l, o) -> (n <= String.length l)%nat ->
  snd (breakAt c (String.substring 0 n s)) = None.
Proof.
  revert l o n; induction s as [|a s IH]; intros l o n.
  - destruct n; reflexivity.
  - rewrite breakAt_cons. destruct n as [|n]; [reflexivity|].
    cbn [String.substring]. rewrite breakAt_cons.
    destruct (Ascii.eqb a c).
    + intros [= <- _] Hlen. cbn [String.length] in Hlen. lia.
    + destruct (breakAt c s) as [l0 o0] eqn:E. intros [= <- <-] Hlen. cbn [String.length] in Hlen.
      specialize (IH l0 o0 n eq_refl ltac:(lia)).
      destruct (breakAt c (String.substring 0 n s)) as [l1 o1]. cbn [snd] in *. now subst.
Qed.

Lemma breakAt_length (c : ascii) (s l : string) (o : option string) :
  breakAt c s = (l, o) ->
  (String.length l <= String.length s)%nat
  /\ (forall r, o = Some r -> (String.length l + 1 + String.length r = String.length s)%nat).
Proof.
  intros H. destruct o as [r|].
  - apply breakAt_Some in H. subst s. rewrite length_append. cbn [String.length].
    split; [lia|]. intros r' [= <-]. lia.
  - apply breakAt_None in H. subst l. split; [lia | discriminate].
Qed.

Section LineScanner.

(** A split function that cuts at the line feeds and hands out [f] of the
    line. *)
Variable split : SplitFunc.
Variable f : string -> string.
Hypothesis split_more : forall data,
  split data false =
  match breakAt "010" data with
  | (l, Some _) => (strings.len l + 1, Some (f l), None)
  | (_, None) => (0, None, None)
  end.
Hypothesis split_last : forall data,
  data <> EmptyString -> breakAt "010" data = (data, None) ->
  split data true = (strings.len data, Some (f data), None).
Hypothesis split_end : split EmptyString true = (0, None, None).

(** One call of [Scan]. *)
Lemma Scan_line (s : Scanner) :
  scanErr s = None ->
  Scan split s =
  match src s with
  | EmptyString => (false, s)
  | String _ _ =>
      let (l, o) := breakAt "010" (src s) in
      if shortLine l
      then (true, {| src := match o with Some r => r | None => EmptyString end;
                     token := f l; scanErr := None |})
      else (false, {| src := src s; token := EmptyString; scanErr := Some ErrTooLong |})
  end.
Proof.
  intros He. unfold Scan. rewrite He.
  destruct (src s) as [|a rest] eqn:Es.
  - change (strings.len EmptyString =? 0) with true. cbv iota. now rewrite split_end.
  - set (data := String a rest) in *.
    assert (Hne : data <> EmptyString) by discriminate.
    replace (strings.len data =? 0) with false by reflexivity.
    destruct (breakAt "010" data) as [l o] eqn:Eb.
    pose proof (breakAt_length _ _ _ _ Eb) as [Hl Hr].
    unfold shortLine.
    destruct (strings.len data <? maxScanTokenSize) eqn:Elt.
    + apply Z.ltb_lt in Elt.
      replace (strings.len l <? maxScanTokenSize) with true
        by (symmetry; apply Z.ltb_lt; unfold strings.len in *; lia).
      rewrite split_more, Eb. destruct o as [r|].
      * cbn [deliver]. rewrite Es. fold data.
        rewrite (breakAt_Some _ _ _ _ Eb), sliceFrom_after. reflexivity.
      * cbn [deliver]. pose proof (breakAt_None _ _ _ Eb) as ->.
        rewrite (split_last data Hne Eb). cbn [deliver]. rewrite Es. fold data.
        now rewrite sliceFrom_end.
    + apply Z.ltb_ge in Elt. rewrite split_more.
      unfold strings.slice. rewrite Z.sub_0_r. change (Z.to_nat 0) with 0%nat.
      destruct (strings.len l <? maxScanTokenSize) eqn:Es'.
      * apply Z.ltb_lt in Es'. destruct o as [r|].
        -- destruct (breakAt_window_found "010" data l r (Z.to_nat maxScanTokenSize) Eb) as [r' Hr'].
           { unfold strings.len in Es'. unfold maxScanTokenSize in *. lia. }
           rewrite Hr'. cbn [deliver]. rewrite Es. fold data.
           rewrite (breakAt_Some _ _ _ _ Eb), sliceFrom_after. reflexivity.
        -- apply breakAt_None in Eb. subst l. lia.
      * apply Z.ltb_ge in Es'.
        pose proof (breakAt_window_none "010" data l o (Z.to_nat maxScanTokenSize) Eb) as Hn.
        destruct (breakAt "010" (String.substring 0 (Z.to_nat maxScanTokenSize) data)) as [l1 o1].
        cbn [snd] in Hn. rewrite Hn; [reflexivity|].
        unfold strings.len in Es'. unfold maxScanTokenSize in *. lia.
Qed.

(** All the calls of [Scan]. *)
Lemma scanAll_lines (fuel : nat) (s : Scanner) :
  scanErr s = None -> (String.length (src s) < fuel)%nat ->
  scanAll fuel split s =
  let (toks, e) := scannedLines (textLines (src s)) in (map f toks, e).
Proof.
  revert s; induction fuel as [|n IH]; intros s He Hlen; [lia|].
  cbn [scanAll]. rewrite (Scan_line s He).
  destruct (src s) as [|a rest] eqn:Es.
  - cbn [textLines scannedLines map]. now rewrite He.
  - rewrite textLines_breakAt.
    destruct (breakAt "010" (String a rest)) as [l o] eqn:Eb.
    pose proof (breakAt_length _ _ _ _ Eb) as [Hl Hr].
    destruct o as [r|].
    + cbn [scannedLines]. destruct (shortLine l); [|reflexivity].
      unfold Text. cbn [token].
      rewrite IH; cbn [src scanErr]; [|reflexivity|specialize (Hr r eq_refl); lia].
      destruct (scannedLines (textLines r)) as [toks e]. reflexivity.
    + cbn [scannedLines]. destruct (shortLine l); [|reflexivity].
      unfold Text. cbn [token].
      cbn [String.length] in Hlen.
      rewrite IH; cbn [src scanErr String.length]; [reflexivity|reflexivity|lia].
Qed.

End LineScanner.

Lemma customSplitFunc_more (data : string) :
  customSplitFunc data false =
  match breakAt "010" data with
  | (l, Some _) => (strings.len l + 1, Some l, None)
  | (_, None) => (0, None, None)
  end.
Proof.
  unfold customSplitFunc. simpl andb. cbv iota.
  unfold newline. rewrite Index_single.
  destruct (breakAt "010" data) as [l [r|]] eqn:E.
  - replace (0 <=? strings.len l) with true
      by (symmetry; apply Z.leb_le; unfold strings.len; lia).
    apply breakAt_Some in E. subst data. now rewrite slice_upto.
  - reflexivity.
Qed.

Lemma customSplitFunc_last (data : string) :
  data <> EmptyString -> breakAt "010" data = (data, None) ->
  customSplitFunc data true = (strings.len data, Some data, None).
Proof. intros Hne _. destruct data; [congruence | reflexivity]. Qed.

Lemma ScanLines_more (data : string) :
  ScanLines data false =
  match breakAt "010" data with
  | (l, Some _) => (strings.len l + 1, Some (dropCR l), None)
  | (_, None) => (0, None, None)
  end.
Proof.
  unfold ScanLines. simpl andb. cbv iota.
  unfold newline. rewrite Index_single.
  destruct (breakAt "010" data) as [l [r|]] eqn:E.
  - replace (0 <=? strings.len l) with true
      by (symmetry; apply Z.leb_le; unfold strings.len; lia).
    apply breakAt_Some in E. subst data. now rewrite slice_upto.
  - reflexivity.
Qed.

Lemma ScanLines_last (data : string) :
  data <> EmptyString -> breakAt "010" data = (data, None) ->
  ScanLines data true = (strings.len data, Some (dropCR data), None).
Proof.
  intros Hne Hb. unfold ScanLines.
  replace (strings.len data =? 0) with false by (destruct data; [congruence | reflexivity]).
  simpl andb. cbv iota. unfold newline. rewrite Index_single, Hb. reflexivity.
Qed.

(** The tokens of the scanner of the identity file, and those of a scanner
    of lines. *)
Lemma scanAll_customSplitFunc (content : string) (fuel : nat) :
  (String.length content < fuel)%nat ->
  scanAll fuel customSplitFunc (NewScanner content) = scannedLines (textLines content).
Proof.
  intros H.
  rewrite (scanAll_lines customSplitFunc (fun l => l)
             customSplitFunc_more customSplitFunc_last eq_refl fuel (NewScanner content) eq_refl H).
  cbn [src NewScanner]. destruct (scannedLines (textLines content)) as [toks e].
  now rewrite map_id.
Qed.

Lemma scanAll_ScanLines (output : string) (fuel : nat) :
  (String.length output < fuel)%nat ->
  scanAll fuel ScanLines (NewScanner output) =
  let (toks, e) := scannedLines (textLines output) in (map dropCR toks, e).
Proof.
  intros H.
  apply (scanAll_lines ScanLines dropCR ScanLines_more ScanLines_last eq_refl
           fuel (NewScanner output) eq_refl H).
Qed.

Lemma textLines_empty (s : string) : textLines s = [] -> s = EmptyString.
Proof.
  destruct s as [|a s]; [reflexivity|]. rewrite textLines_cons.
  destruct (Ascii.eqb a "010"); [discriminate|]. destruct (textLines s); discriminate.
Qed.

Lemma Join_String (a : ascii) (line sep : string) (rest : list string) :
  strings.Join (String a line :: rest) sep = String a (strings.Join (line :: rest) sep).
Proof. destruct rest; reflexivity. Qed.

(** A text is its lines joined by line feeds, with the line feed that may
    end it. *)
Lemma textLines_Join (s : string) :
  s = strings.Join (textLines s) newline
  \/ s = strings.Join (textLines s) newline +:+ newline.
Proof.
  induction s as [|a s IH]; [now left|].
  rewrite textLines_cons. destruct (Ascii.eqb_spec a "010") as [->|Hne].
  - destruct (textLines s) as [|line rest] eqn:E.
    + apply textLines_empty in E. subst s. now right.
    + rewrite Join_cons by discriminate.
      destruct IH as [IH|IH]; [left|right]; rewrite IH at 1; reflexivity.
  - destruct (textLines s) as [|line rest] eqn:E.
    + apply textLines_empty in E. subst s. now left.
    + rewrite Join_String.
      destruct IH as [IH|IH]; [left|right]; rewrite IH at 1; reflexivity.
Qed.

Lemma textLines_length (s : string) :
  Forall (fun line => (String.length line <= String.length s)%nat) (textLines s).
Proof.
  induction s as [|a s IH]; [constructor|].
  rewrite textLines_cons. cbn [String.length].
  assert (IH' : Forall (fun line => (String.length line <= S (String.length s))%nat) (textLines s)).
  { eapply Forall_impl; [exact IH|]. intros line H. cbn beta in *. lia. }
  destruct (Ascii.eqb a "010").
  - constructor; [cbn; lia | exact IH'].
  - destruct (textLines s) as [|line rest]; [constructor; [cbn; lia | constructor]|].
    inversion IH as [|? ? Hl Hr]; subst. inversion IH' as [|? ? _ Hr']; subst.
    constructor; [cbn [String.length]; lia | exact Hr'].
Qed.

Lemma scannedLines_short (lines : list string) :
  Forall (fun line => shortLine line = true) lines -> scannedLines lines = (lines, None).
Proof.
  induction 1 as [|line rest Hl _ IH]; [reflexivity|].
  cbn [scannedLines]. now rewrite Hl, IH.
Qed.

Lemma textLines_short (s : string) :
  strings.len s < maxScanTokenSize -> scannedLines (textLines s) = (textLines s, None).
Proof.
  intros H. apply scannedLines_short.
  eapply Forall_impl; [apply textLines_length|].
  intros line Hl. cbn beta in Hl. unfold shortLine. apply Z.ltb_lt. unfold strings.len in *. lia.
Qed.

(** The lines a scanner gets to come first among the lines of the text, and
    only a line that does not fit ends the scan with an error. *)
Lemma scannedLines_prefix (lines : list string) :
  exists rest, lines = fst (scannedLines lines) ++ rest
               /\ match snd (scannedLines lines) with
                  | None => rest = []
                  | Some e => e = ErrTooLong
                              /\ exists line rest', rest = line :: rest' /\ shortLine line = false
                  end.
Proof.
  induction lines as [|line lines IH].
  - exists []. split; reflexivity.
  - cbn [scannedLines]. destruct (shortLine line) eqn:E.
    + destruct IH as (rest & Heq & Herr).
      destruct (scannedLines lines) as [toks e]. cbn [fst snd] in *.
      exists rest. split; [now rewrite Heq at 1|exact Herr].
    + exists (line :: lines). split; [reflexivity|]. split; [reflexivity|]. eauto.
Qed.

(** X6: the scanner of the identity file delivers the lines of the file in
    their order: every line feed ends a line, and what follows the last one
    is a line when it is not empty. It stops with [ErrTooLong] at the first
    line of 64 KiB or more. A file shorter than that is read to its end
    without an error, and its lines joined by line feeds are the file again,
    but for the line feed that may end it. *)
Theorem identity_scanner_reads_the_lines (content : string) :
  let scanned := scanAll (S (String.length content)) customSplitFunc (NewScanner content) in
  scanned = scannedLines (textLines content)
  /\ (strings.len content < maxScanTokenSize ->
      scanned = (textLines content, None)
      /\ (content = strings.Join (fst scanned) newline
          \/ content = strings.Join (fst scanned) newline +:+ newline)).
Proof.
  cbv zeta. rewrite scanAll_customSplitFunc by lia. split; [reflexivity|].
  intros H. rewrite (textLines_short content H). split; [reflexivity|].
  apply textLines_Join.
Qed.

Lemma identity_scanner_reads_the_lines_witness :
  scanAll (S (String.length annotatedIdentity)) customSplitFunc (NewScanner annotatedIdentity)
  = (["# percona";
      "instanceId: 1bed5f0d-cc3a-11ee-bd8a-c84bd64e0277" +:+ String "013" EmptyString;
      "instanceId: 00000000-0000-4000-8000-000000000000"], None).
Proof.
  apply (proj2 (identity_scanner_reads_the_lines annotatedIdentity)).
  vm_compute. reflexivity.
Defined.

(** X7: the split function of the identity file cuts where [bufio.ScanLines]
    cuts and ends with the same error; the one difference is that it keeps
    the carriage return a line may end with. *)
Theorem identity_scanner_keeps_carriage_returns (input : string) :
  let n := S (String.length input) in
  scanAll n ScanLines (NewScanner input) =
  (map dropCR (fst (scanAll n customSplitFunc (NewScanner input))),
   snd (scanAll n customSplitFunc (NewScanner input))).
Proof.
  cbv zeta. rewrite scanAll_ScanLines, scanAll_customSplitFunc by lia.
  destruct (scannedLines (textLines input)); reflexivity.
Qed.

(** ** What the parsers make of long lines *)

Lemma outputLines_scanned (output : string) :
  outputLines output =
  let (toks, e) := scannedLines (textLines output) in (map dropCR toks, e).
Proof. unfold outputLines. apply scanAll_ScanLines. lia. Qed.

Lemma scannedLines_err (lines : list string) :
  snd (scannedLines lines) = None \/ snd (scannedLines lines) = Some ErrTooLong.
Proof.
  induction lines as [|line rest IH]; [now left|].
  cbn [scannedLines]. destruct (shortLine line); [|now right].
  destruct (scannedLines rest). exact IH.
Qed.

Lemma outputLines_err (output : string) :
  snd (outputLines output) = None \/ snd (outputLines output) = Some ErrTooLong.
Proof.
  rewrite outputLines_scanned. pose proof (scannedLines_err (textLines output)) as H.
  destruct (scannedLines (textLines output)). exact H.
Qed.

Lemma outputLines_short (output : string) :
  strings.len output < maxScanTokenSize -> snd (outputLines output) = None.
Proof. intros H. now rewrite outputLines_scanned, (textLines_short output H). Qed.

Lemma parsed_err (packageName : string) (found : option string) (scanned : option error)
    (err : error) :
  parsed packageName found scanned = Err err ->
  err = errPackageNotFound \/ scanned = Some err.
Proof.
  unfold parsed. destruct found as [[|a v]|]; [intros [= <-]; now left | discriminate |].
  destruct scanned; intros [= <-]; [now right | now left].
Qed.

(** A parser whose scanner ends without an error logs nothing. *)
Lemma parseDpkgOutput_silent (packageName dpkgOutput : string) (w : World) :
  snd (outputLines dpkgOutput) = None ->
  snd (parseDpkgOutput packageName dpkgOutput None w) = w.
Proof.
  intros H. unfold parseDpkgOutput.
  pose proof (forScan_lines (dpkgLine packageName) dpkgOutput) as [_ He].
  destruct (forScan ScanLines (dpkgLine packageName) (NewScanner dpkgOutput)) as [found scanner].
  cbn [snd] in He. unfold ScannerErr. rewrite He, H.
  destruct (firstSome _ _); destruct (0 <? strings.len _); reflexivity.
Qed.

Lemma parseRpmOutput_silent (packageName rpmOutput : string) (w : World) :
  snd (outputLines rpmOutput) = None ->
  snd (parseRpmOutput packageName rpmOutput None w) = w.
Proof.
  intros H. unfold parseRpmOutput.
  pose proof (forScan_lines (rpmLine packageName) rpmOutput) as [_ He].
  destruct (forScan ScanLines (rpmLine packageName) (NewScanner rpmOutput)) as [found scanner].
  cbn [snd] in He. unfold ScannerErr. rewrite He, H.
  destruct (firstSome _ _); destruct (0 <? strings.len _); reflexivity.
Qed.

(** X8: when the package tool ran without an error, a parser fails either
    because the package is not in the output or because a line of the
    output is too long for the scanner; on an output under 64 KiB only the
    first can happen, and nothing is logged. *)
Theorem parsers_fail_to_read_only_long_lines (packageName output : string) (w : World) :
  (forall err,
      fst (parseDpkgOutput packageName output None w) = Err err
      \/ fst (parseRpmOutput packageName output None w) = Err err ->
      err = errPackageNotFound \/ err = ErrTooLong)
  /\ (strings.len output < maxScanTokenSize ->
      fst (parseDpkgOutput packageName output None w) <> Err ErrTooLong
      /\ fst (parseRpmOutput packageName output None w) <> Err ErrTooLong
      /\ snd (parseDpkgOutput packageName output None w) = w
      /\ snd (parseRpmOutput packageName output None w) = w).
Proof.
  rewrite parseDpkgOutput_lines, parseRpmOutput_lines. split.
  - intros err [H|H]; apply parsed_err in H as [H|H]; auto;
      destruct (outputLines_err output) as [Hn|Ht]; rewrite H in *; [discriminate| |discriminate|];
      injection Ht as ->; now right.
  - intros Hlen. pose proof (outputLines_short output Hlen) as Hs.
    split; [|split; [|split]].
    + intros H. apply parsed_err in H as [H|H]; [discriminate | congruence].
    + intros H. apply parsed_err in H as [H|H]; [discriminate | congruence].
    + now apply parseDpkgOutput_silent.
    + now apply parseRpmOutput_silent.
Qed.

Lemma parsers_fail_to_read_only_long_lines_witness :
  parseDpkgOutput "pkgA" "pkgA rc 1.0-1.jammy" None quietWorld
    = (Err errPackageNotFound, quietWorld).
Proof.
  destruct (parsers_fail_to_read_only_long_lines "pkgA" "pkgA rc 1.0-1.jammy" quietWorld)
    as [Herr Hshort].
  destruct (Hshort ltac:(vm_compute; reflexivity)) as (_ & _ & Hw & _).
  destruct (parseDpkgOutput "pkgA" "pkgA rc 1.0-1.jammy" None quietWorld) as [r w'] eqn:E.
  cbn [fst snd] in *. subst w'.
  destruct r as [pkg|err]; [vm_compute in E; discriminate|].
  destruct (Herr err (or_introl eq_refl)) as [->| ->]; [reflexivity|].
  vm_compute in E. discriminate.
Defined.

(** A text that begins with a line: the scan of the lines stops there when
    the line does not fit. *)
Lemma forScan_long_first_line {A} (body : string -> option A) (output line : string)
    (rest : list string) :
  textLines output = line :: rest -> shortLine line = false ->
  fst (forScan ScanLines body (NewScanner output)) = None
  /\ scanErr (snd (forScan ScanLines body (NewScanner output))) = Some ErrTooLong.
Proof.
  intros Ht Hl. destruct (forScan_lines body output) as [Hf He].
  rewrite Hf, He, outputLines_scanned, Ht. cbn [scannedLines]. rewrite Hl. split; reflexivity.
Qed.

(** X9: an output whose first line is 64 KiB long or longer makes both
    parsers fail with [bufio.ErrTooLong] and a warning, whatever follows
    that line. *)
Theorem long_first_line_fails_the_parsers (packageName output line : string)
    (rest : list string) (w : World) :
  textLines output = line :: rest -> shortLine line = false ->
  parseDpkgOutput packageName output None w =
    (Err ErrTooLong,
     withLog ({| level := WarnLevel; message := "failed to read output from dpkg-query";
                 fields := [FError ErrTooLong] |} :: log w) w)
  /\ parseRpmOutput packageName output None w =
       (Err ErrTooLong,
        withLog ({| level := WarnLevel; message := "failed to read output from rpm";
                    fields := [FError ErrTooLong] |} :: log w) w).
Proof.
  intros Ht Hl. unfold parseDpkgOutput, parseRpmOutput. split.
  - destruct (forScan_long_first_line (dpkgLine packageName) output line rest Ht Hl) as [_ He].
    destruct (forScan ScanLines (dpkgLine packageName) (NewScanner output)) as [found scanner].
    cbn [snd] in He. unfold ScannerErr. rewrite He. reflexivity.
  - destruct (forScan_long_first_line (rpmLine packageName) output line rest Ht Hl) as [_ He].
    destruct (forScan ScanLines (rpmLine packageName) (NewScanner output)) as [found scanner].
    cbn [snd] in He. unfold ScannerErr. rewrite He. reflexivity.
Qed.

Lemma padding_length (n : nat) : String.length (padding n) = n.
Proof. induction n as [|n IH]; simpl; [reflexivity | now rewrite IH]. Qed.

Lemma textLines_padding (n : nat) (rest : string) :
  textLines (padding n +:+ newline +:+ rest) = padding n :: textLines rest.
Proof.
  induction n as [|n IH]; [reflexivity|].
  cbn [padding append]. rewrite textLines_cons.
  change (Ascii.eqb "a" "010") with false. cbv iota. now rewrite IH.
Qed.

Lemma overlongText_lines :
  textLines overlongText
  = [padding (Z.to_nat maxScanTokenSize); "pkgA ii 1.0-1.jammy"; "instanceId: 0a1b"].
Proof. unfold overlongText. now rewrite textLines_padding. Qed.

Lemma padding_long : shortLine (padding (Z.to_nat maxScanTokenSize)) = false.
Proof.
  unfold shortLine, strings.len. rewrite padding_length. apply Z.ltb_ge.
  unfold maxScanTokenSize. lia.
Qed.

Lemma long_first_line_fails_the_parsers_witness :
  parseDpkgOutput "pkgA" overlongText None quietWorld =
    (Err ErrTooLong,
     withLog ({| level := WarnLevel; message := "failed to read output from dpkg-query";
                 fields := [FError ErrTooLong] |} :: log quietWorld) quietWorld)
  /\ parseRpmOutput "pkgA" overlongText None quietWorld =
       (Err ErrTooLong,
        withLog ({| level := WarnLevel; message := "failed to read output from rpm";
                    fields := [FError ErrTooLong] |} :: log quietWorld) quietWorld).
Proof.
  apply (long_first_line_fails_the_parsers "pkgA" overlongText
           (padding (Z.to_nat maxScanTokenSize)) ["pkgA ii 1.0-1.jammy"; "instanceId: 0a1b"]).
  - exact overlongText_lines.
  - exact padding_long.
Defined.


(** ** The versions, part by part *)

Lemma append_assoc (s t u : string) : (s +:+ t) +:+ u = s +:+ (t +:+ u).
Proof. induction s as [|a s IH]; simpl; [reflexivity | now rewrite IH]. Qed.

Lemma append_empty_r (s : string) : s +:+ EmptyString = s.
Proof. induction s as [|a s IH]; simpl; [reflexivity | now rewrite IH]. Qed.

Lemma hasByte_append (c : ascii) (s t : string) :
  hasByte c (s +:+ t) = hasByte c s || hasByte c t.
Proof.
  induction s as [|a s IH]; simpl; [reflexivity|]. now rewrite IH, orb_assoc.
Qed.

Lemma uptoLast_none (c : ascii) (s : string) : hasByte c s = false -> uptoLast c s = None.
Proof.
  induction s as [|a s IH]; simpl; [reflexivity|].
  intros H. apply orb_false_elim in H as [Ha Hs]. now rewrite (IH Hs), Ha.
Qed.

(** What stands before the last [c] of a string. *)
Lemma withoutLastSegment_append (c : ascii) (s last : string) :
  hasByte c last = false -> withoutLastSegment c (s +:+ String c last) = s.
Proof.
  intros H. unfold withoutLastSegment.
  assert (Hu : uptoLast c (s +:+ String c last) = Some s).
  { induction s as [|a s IH]; simpl.
    - now rewrite (uptoLast_none c last H), Ascii.eqb_refl.
    - now rewrite IH. }
  now rewrite Hu.
Qed.

Lemma afterFirst_none (c : ascii) (s : string) : hasByte c s = false -> afterFirst c s = None.
Proof.
  induction s as [|a s IH]; simpl; [reflexivity|].
  intros H. apply orb_false_elim in H as [Ha Hs]. now rewrite Ha, (IH Hs).
Qed.

(** What stands after the first [:] of a string. *)
Lemma withoutEpoch_append (e s : string) :
  hasByte ":" e = false -> withoutEpoch (e +:+ String ":" s) = s.
Proof.
  intros H. unfold withoutEpoch.
  assert (Ha : afterFirst ":" (e +:+ String ":" s) = Some s).
  { induction e as [|a e IH]; simpl; [reflexivity|].
    simpl in H. apply orb_false_elim in H as [Ha He]. now rewrite Ha, (IH He). }
  now rewrite Ha.
Qed.

Lemma withoutEpoch_none (s : string) : hasByte ":" s = false -> withoutEpoch s = s.
Proof. intros H. unfold withoutEpoch. now rewrite (afterFirst_none ":" s H). Qed.

Lemma prefix_cons (c a : ascii) (m s : string) :
  String.prefix (String c m) (String a s) = Ascii.eqb a c && String.prefix m s.
Proof.
  simpl. destruct (ascii_dec c a) as [->|Hne].
  - now rewrite Ascii.eqb_refl.
  - replace (Ascii.eqb a c) with false; [reflexivity|].
    symmetry. apply Ascii.eqb_neq. congruence.
Qed.

Lemma prefix_empty (s : string) : String.prefix EmptyString s = true.
Proof. now destruct s. Qed.

Lemma prefix_append (m s t : string) :
  String.prefix m s = true -> String.prefix m (s +:+ t) = true.
Proof.
  revert s; induction m as [|c m IH]; intros s; [intros _; now destruct (s +:+ t)|].
  destruct s as [|a s]; [discriminate|].
  cbn [append]. rewrite !prefix_cons. intros H. apply andb_prop in H as [Ha Hm].
  now rewrite Ha, (IH s Hm).
Qed.

Lemma index_none_cons (m : string) (a : ascii) (s : string) :
  String.index 0 m (String a s) = None ->
  String.prefix m (String a s) = false /\ String.index 0 m s = None.
Proof.
  cbn [String.index]. destruct (String.prefix m (String a s)); [discriminate|].
  destruct (String.index 0 m s); [discriminate | auto].
Qed.

Lemma Contains_false (s m : string) :
  strings.Contains s m = false -> String.index 0 m s = None.
Proof.
  unfold strings.Contains, strings.Index. destruct (String.index 0 m s) as [i|]; [|reflexivity].
  intros H. apply Z.leb_gt in H. lia.
Qed.

Lemma index_none_Contains (s m : string) :
  String.index 0 m s = None -> strings.Contains s m = false.
Proof. intros H. unfold strings.Contains, strings.Index. now rewrite H. Qed.

(** No occurrence of [+dfsg] begins in [v] and ends in a [+dfsg] that
    follows [v]: the marker has its [+] at its head only. *)
Lemma dfsg_does_not_straddle (a : ascii) (v x : string) :
  String.prefix "+dfsg" (String a v) = false ->
  String.prefix "+dfsg" (String a v +:+ "+dfsg" +:+ x) = false.
Proof.
  destruct v as [|b [|c [|d [|e v]]]]; cbn [append]; rewrite ?prefix_cons, ?prefix_empty;
    cbn [String.prefix]; rewrite ?andb_true_r, ?andb_false_r; intros H;
    try exact H;
    repeat match goal with
           | |- context [Ascii.eqb "+" ?k] =>
               change (Ascii.eqb "+" k) with false; rewrite ?andb_false_l, ?andb_false_r
           end;
    try reflexivity.
Qed.

Lemma cutAt_before_dfsg (v x : string) :
  strings.Contains v "+dfsg" = false -> cutAt "+dfsg" (v +:+ "+dfsg" +:+ x) = v.
Proof.
  intros H. apply Contains_false in H.
  induction v as [|a v IH]; [cbn; now rewrite prefix_empty|].
  apply index_none_cons in H as [Hp Hi].
  change (cutAt "+dfsg" (String a v +:+ "+dfsg" +:+ x))
    with (if String.prefix "+dfsg" (String a v +:+ "+dfsg" +:+ x) then EmptyString
          else String a (cutAt "+dfsg" (v +:+ "+dfsg" +:+ x))).
  now rewrite (dfsg_does_not_straddle a v x Hp), (IH Hi).
Qed.

Lemma cutAt_none (m s : string) : strings.Contains s m = false -> cutAt m s = s.
Proof.
  intros H. apply Contains_false in H. pose proof (index_cutAt m s) as Hc. now rewrite H in Hc.
Qed.

(** X10: for a version as [dpkg-query] prints it, with or without an epoch
    and with or without the mark of repacked sources, the version the dpkg
    parser reports is the version proper: the epoch, the [+dfsg] part and
    the name of the distribution after the last dot are gone, and nothing
    else is. *)
Theorem dpkg_version_of_a_debian_version (epoch : option string) (version : string)
    (repack : option string) (distribution : string) :
  hasByte "." distribution = false ->
  match epoch with
  | Some e => hasByte ":" e = false
  | None => hasByte ":" version = false
            /\ match repack with Some x => hasByte ":" x = false | None => True end
  end ->
  strings.Contains version "+dfsg" = false ->
  dpkgVersion (debianVersion epoch version repack distribution) = version.
Proof.
  intros Hdist Hepoch Hdfsg. rewrite dpkgVersion_spec. unfold debianVersion.
  set (tail := match repack with Some x => "+dfsg" +:+ x | None => EmptyString end).
  set (head := match epoch with Some e => e +:+ ":" | None => EmptyString end).
  replace (head +:+ version +:+ tail +:+ "." +:+ distribution)
    with ((head +:+ version +:+ tail) +:+ String "." distribution)
    by (now rewrite !append_assoc).
  rewrite (withoutLastSegment_append "." _ distribution Hdist).
  assert (Hcut : cutAt "+dfsg" (version +:+ tail) = version).
  { unfold tail. destruct repack as [x|].
    - now apply cutAt_before_dfsg.
    - rewrite append_empty_r. now apply cutAt_none. }
  unfold head. destruct epoch as [e|].
  - rewrite append_assoc. change (":" +:+ version +:+ tail) with (String ":" (version +:+ tail)).
    now rewrite (withoutEpoch_append e _ Hepoch).
  - cbn [append]. destruct Hepoch as [Hv Hx].
    rewrite withoutEpoch_none; [exact Hcut|].
    rewrite hasByte_append, Hv. unfold tail. destruct repack as [x|]; [|reflexivity].
    rewrite hasByte_append, Hx. reflexivity.
Qed.

Lemma dpkg_version_of_a_debian_version_witness :
  dpkgVersion "2:8.0.36-28+dfsg1-1.jammy" = "8.0.36-28"
  /\ dpkgVersion "8.1.0-1-1.bookworm" = "8.1.0-1-1".
Proof.
  split.
  - apply (dpkg_version_of_a_debian_version (Some "2") "8.0.36-28" (Some "1-1") "jammy");
      reflexivity.
  - apply (dpkg_version_of_a_debian_version None "8.1.0-1-1" None "bookworm");
      [reflexivity | split; [reflexivity | exact I] | reflexivity].
Defined.

Lemma cutAt_prefix (m s : string) : exists rest, s = cutAt m s +:+ rest.
Proof.
  induction s as [|a s [rest IH]].
  - exists EmptyString. now destruct m.
  - cbn [cutAt]. destruct (String.prefix m (String a s)).
    + now exists (String a s).
    + exists rest. cbn [append]. now rewrite <- IH.
Qed.

(** What [cutAt] keeps has no occurrence of the marker. *)
Lemma cutAt_clean (c : ascii) (m s : string) :
  String.index 0 (String c m) (cutAt (String c m) s) = None.
Proof.
  induction s as [|a s IH]; [reflexivity|].
  cbn [cutAt]. destruct (String.prefix (String c m) (String a s)) eqn:E; [reflexivity|].
  cbn [String.index]. rewrite IH.
  destruct (String.prefix (String c m) (String a (cutAt (String c m) s))) eqn:E'; [|reflexivity].
  destruct (cutAt_prefix (String c m) s) as [rest Hrest].
  apply (prefix_append _ _ rest) in E'. cbn [append] in E'. rewrite <- Hrest in E'. congruence.
Qed.

Lemma uptoLast_prefix (c : ascii) (s r : string) :
  uptoLast c s = Some r -> exists rest, s = r +:+ rest.
Proof.
  revert r; induction s as [|a s IH]; intros r; simpl; [discriminate|].
  destruct (uptoLast c s) as [r'|].
  - intros [= <-]. destruct (IH r' eq_refl) as [rest ->]. now exists rest.
  - destruct (Ascii.eqb a c); [|discriminate]. intros [= <-]. now exists (String a s).
Qed.

Lemma withoutLastSegment_prefix (c : ascii) (s : string) :
  exists rest, s = withoutLastSegment c s +:+ rest.
Proof.
  unfold withoutLastSegment. destruct (uptoLast c s) as [r|] eqn:E.
  - now apply (uptoLast_prefix c).
  - exists EmptyString. now rewrite append_empty_r.
Qed.

Lemma withoutLastSegment_length (c : ascii) (s : string) :
  (String.length (withoutLastSegment c s) <= String.length s)%nat.
Proof.
  destruct (withoutLastSegment_prefix c s) as [rest H]. rewrite H at 2.
  rewrite length_append. lia.
Qed.

Lemma afterFirst_suffix (c : ascii) (s r : string) :
  afterFirst c s = Some r -> exists before, s = before +:+ r.
Proof.
  revert r; induction s as [|a s IH]; intros r; simpl; [discriminate|].
  destruct (Ascii.eqb a c).
  - intros [= <-]. now exists (String a EmptyString).
  - intros H. destruct (IH r H) as [before ->]. now exists (String a before).
Qed.

Lemma withoutEpoch_suffix (s : string) : exists before, s = before +:+ withoutEpoch s.
Proof.
  unfold withoutEpoch. destruct (afterFirst ":" s) as [r|] eqn:E.
  - now apply (afterFirst_suffix ":").
  - now exists EmptyString.
Qed.

Lemma replaceByte_clean (old new : ascii) (s : string) :
  Ascii.eqb new old = false -> hasByte old (replaceByte old new s) = false.
Proof.
  intros H. induction s as [|a s IH]; [reflexivity|].
  cbn [replaceByte hasByte]. rewrite IH, orb_false_r.
  destruct (Ascii.eqb a old) eqn:E; [exact H | exact E].
Qed.

Lemma replaceByte_length (old new : ascii) (s : string) :
  String.length (replaceByte old new s) = String.length s.
Proof. induction s as [|a s IH]; simpl; [reflexivity | now rewrite IH]. Qed.

(** X11: whatever the version token of a dpkg line is, the version the
    parser makes of it is a part of the token in one piece and has no
    [+dfsg] in it; and the version the rpm parser makes is the version token,
    a dash, and a release part without a dot that is not longer than the
    release token. *)
Theorem reported_versions_are_trimmed (tok version release : string) :
  strings.Contains (dpkgVersion tok) "+dfsg" = false
  /\ (exists before after, tok = before +:+ dpkgVersion tok +:+ after)
  /\ (exists rel,
        rpmVersion version release = version +:+ "-" +:+ rel
        /\ hasByte "." rel = false
        /\ (String.length rel <= String.length release)%nat).
Proof.
  rewrite dpkgVersion_spec, rpmVersion_spec. split; [|split].
  - apply index_none_Contains, cutAt_clean.
  - destruct (withoutLastSegment_prefix "." tok) as [t1 H1].
    destruct (withoutEpoch_suffix (withoutLastSegment "." tok)) as [b H2].
    destruct (cutAt_prefix "+dfsg" (withoutEpoch (withoutLastSegment "." tok))) as [t2 H3].
    exists b, (t2 +:+ t1).
    rewrite H1 at 1. rewrite H2 at 1. rewrite H3 at 1. now rewrite !append_assoc.
  - eexists. split; [reflexivity|]. split.
    + now apply replaceByte_clean.
    + rewrite replaceByte_length. apply withoutLastSegment_length.
Qed.

(** ** The lines the formats of the queries give *)

Lemma breakAt_absent (c : ascii) (s : string) : hasByte c s = false -> breakAt c s = (s, None).
Proof.
  induction s as [|a s IH]; [reflexivity|]. cbn [hasByte]. intros H.
  apply orb_false_elim in H as [Ha Hs]. rewrite breakAt_cons, Ha, (IH Hs). reflexivity.
Qed.

Lemma breakAt_found (c : ascii) (l r : string) :
  hasByte c l = false -> breakAt c (l +:+ String c r) = (l, Some r).
Proof.
  induction l as [|a l IH]; cbn [hasByte append]; intros H.
  - now rewrite breakAt_cons, Ascii.eqb_refl.
  - apply orb_false_elim in H as [Ha Hl]. now rewrite breakAt_cons, Ha, (IH Hl).
Qed.


Lemma noneOf_hasByte (cutset s : string) (c : ascii) :
  noneOf cutset s = true -> strings.inCutset cutset c = true -> hasByte c s = false.
Proof.
  intros Hs Hc. induction s as [|a s IH]; [reflexivity|].
  cbn [noneOf hasByte] in *. apply andb_prop in Hs as [Ha Hs]. rewrite (IH Hs), orb_false_r.
  destruct (Ascii.eqb_spec a c) as [->|]; [|reflexivity]. now rewrite Hc in Ha.
Qed.

Lemma isWord_spec (s : string) :
  isWord s = true ->
  s <> EmptyString /\ noneOf " '" s = true
  /\ hasByte " " s = false /\ hasByte "010" s = false.
Proof.
  unfold isWord. intros H. apply andb_prop in H as [Hne Hn].
  split; [intros ->; discriminate|]. split.
  - clear Hne. induction s as [|a s IH]; [reflexivity|].
    cbn [noneOf] in *. apply andb_prop in Hn as [Ha Hs]. rewrite (IH Hs), andb_true_r.
    cbn [strings.inCutset] in *. unfold newline in Ha. cbn [strings.inCutset] in Ha.
    destruct (Ascii.eqb a " "); [discriminate|]. destruct (Ascii.eqb a "'"); [discriminate|].
    reflexivity.
  - split; apply (noneOf_hasByte _ _ _ Hn); reflexivity.
Qed.

Lemma TrimRight_word (cutset w : string) :
  w <> EmptyString -> noneOf cutset w = true -> strings.TrimRight w cutset = w.
Proof.
  induction w as [|x w IH]; [congruence|]. intros _ H.
  cbn [noneOf] in H. apply andb_prop in H as [Hx Hw]. cbn [strings.TrimRight].
  destruct w as [|y w].
  - cbn [strings.TrimRight]. apply negb_true_iff in Hx. now rewrite Hx.
  - rewrite (IH ltac:(discriminate) Hw). reflexivity.
Qed.

Lemma TrimRight_keep (cutset p w : string) :
  w <> EmptyString -> strings.TrimRight w cutset = w ->
  strings.TrimRight (p +:+ w) cutset = p +:+ w.
Proof.
  intros Hne Hw. induction p as [|c p IH]; [exact Hw|].
  cbn [append strings.TrimRight]. rewrite IH.
  destruct (p +:+ w) eqn:E; [|reflexivity].
  destruct p; [cbn [append] in E; congruence | discriminate].
Qed.

Lemma TrimRight_cut (cutset s : string) (q : ascii) :
  strings.inCutset cutset q = true ->
  strings.TrimRight (s +:+ String q EmptyString) cutset = strings.TrimRight s cutset.
Proof.
  intros Hq. induction s as [|c s IH].
  - cbn [append strings.TrimRight]. now rewrite Hq.
  - cbn [append strings.TrimRight]. now rewrite IH.
Qed.

(** Three words between quotes are the three tokens of the line. *)
Lemma threeTokens_quoted (a b c : string) :
  isWord a = true -> isWord b = true -> isWord c = true ->
  threeTokens (quotedLine a b c) = Some (a, b, c).
Proof.
  intros Ha Hb Hc.
  apply isWord_spec in Ha as (Hane & Han & Has & _).
  apply isWord_spec in Hb as (_ & _ & Hbs & _).
  apply isWord_spec in Hc as (Hcne & Hcn & Hcs & _).
  unfold threeTokens, quotedLine.
  assert (Htrim : strings.Trim ("'" +:+ a +:+ " " +:+ b +:+ " " +:+ c +:+ "'") " '"
                  = a +:+ " " +:+ b +:+ " " +:+ c).
  { unfold strings.Trim.
    replace (strings.TrimLeft ("'" +:+ a +:+ " " +:+ b +:+ " " +:+ c +:+ "'") " '")
      with (a +:+ " " +:+ b +:+ " " +:+ c +:+ "'").
    2:{ destruct a as [|x a]; [congruence|]. cbn [noneOf] in Han.
        apply andb_prop in Han as [Hx _]. apply negb_true_iff in Hx.
        cbn [append strings.TrimLeft]. change (strings.inCutset " '" "'") with true.
        cbv iota. cbn [strings.TrimLeft]. now rewrite Hx. }
    replace (a +:+ " " +:+ b +:+ " " +:+ c +:+ "'")
      with ((a +:+ " " +:+ b +:+ " " +:+ c) +:+ String "'" EmptyString)
      by (now rewrite !append_assoc).
    rewrite TrimRight_cut by reflexivity.
    replace (a +:+ " " +:+ b +:+ " " +:+ c) with ((a +:+ " " +:+ b +:+ " ") +:+ c) at 1
      by (now rewrite !append_assoc).
    rewrite TrimRight_keep; [now rewrite !append_assoc | exact Hcne |].
    now apply TrimRight_word. }
  rewrite Htrim.
  change " " with (String " " EmptyString) at 3.
  rewrite Split_single.
  change (a +:+ " " +:+ b +:+ " " +:+ c) with (a +:+ String " " (b +:+ String " " c)).
  rewrite (breakAt_found " " a _ Has), Split_single, (breakAt_found " " b _ Hbs).
  now rewrite Split_single, (breakAt_absent " " c Hcs).
Qed.

Lemma dropCR_quoted (s : string) :
  dropCR (s +:+ String "'" EmptyString) = s +:+ String "'" EmptyString.
Proof.
  unfold dropCR.
  replace (strings.sliceFrom (s +:+ String "'" EmptyString)
             (strings.len (s +:+ String "'" EmptyString) - 1))
    with (String "'" EmptyString); [now rewrite andb_false_r|].
  unfold strings.sliceFrom, strings.len. rewrite length_append. cbn [String.length].
  replace (Z.to_nat (Z.of_nat (String.length s + 1) - 1)) with (String.length s) by lia.
  rewrite substring_append_r.
  now replace (String.length s + 1 - String.length s)%nat with 1%nat by lia.
Qed.

(** The lines of an output that is one quoted line. *)
Lemma outputLines_quoted (a b c : string) :
  isWord a = true -> isWord b = true -> isWord c = true ->
  strings.len (quotedLine a b c) < maxScanTokenSize ->
  outputLines (quotedLine a b c) = ([quotedLine a b c], None).
Proof.
  intros Ha Hb Hc Hlen.
  apply isWord_spec in Ha as (_ & _ & _ & Han).
  apply isWord_spec in Hb as (_ & _ & _ & Hbn).
  apply isWord_spec in Hc as (_ & _ & _ & Hcn).
  rewrite outputLines_scanned, (textLines_short _ Hlen).
  assert (Hl : textLines (quotedLine a b c) = [quotedLine a b c]).
  { unfold quotedLine. cbn [append]. rewrite textLines_breakAt, breakAt_absent; [reflexivity|].
    repeat (cbn [hasByte]; rewrite ?hasByte_append, ?Han, ?Hbn, ?Hcn). reflexivity. }
  rewrite Hl. cbn [map]. f_equal. f_equal.
  unfold quotedLine.
  replace ("'" +:+ a +:+ " " +:+ b +:+ " " +:+ c +:+ "'")
    with (("'" +:+ a +:+ " " +:+ b +:+ " " +:+ c) +:+ String "'" EmptyString)
    by (now rewrite !append_assoc).
  apply dropCR_quoted.
Qed.

Lemma quotedLine_short (a b c : string) :
  strings.len a + strings.len b + strings.len c < 65000 ->
  strings.len (quotedLine a b c) < maxScanTokenSize.
Proof.
  unfold quotedLine, strings.len. rewrite !length_append. cbn [String.length].
  unfold maxScanTokenSize. lia.
Qed.

Lemma parseDpkgOutput_quoted (packageName version : string) (w : World) :
  isWord packageName = true -> isWord version = true ->
  strings.len packageName + strings.len version < 64000 ->
  dpkgVersion version <> EmptyString ->
  parseDpkgOutput packageName (quotedLine packageName "ii" version) None w
  = (Ok {| Name := packageName; Version := dpkgVersion version |}, w).
Proof.
  intros Hn Hv Hlen Hne.
  assert (Hl : strings.len (quotedLine packageName "ii" version) < maxScanTokenSize).
  { apply quotedLine_short. change (strings.len "ii") with 2. lia. }
  pose proof (outputLines_quoted packageName "ii" version Hn eq_refl Hv Hl) as Ho.
  rewrite (surjective_pairing (parseDpkgOutput _ _ _ _)).
  rewrite parseDpkgOutput_silent by now rewrite Ho.
  rewrite parseDpkgOutput_lines, Ho. cbn [fst snd firstSome].
  rewrite dpkgLine_spec, (threeTokens_quoted packageName "ii" version Hn eq_refl Hv),
    String.eqb_refl.
  cbn [andb String.eqb Ascii.eqb Bool.eqb]. cbv iota. unfold parsed.
  destruct (dpkgVersion version); [congruence | reflexivity].
Qed.

Lemma parseRpmOutput_quoted (packageName version release : string) (w : World) :
  isWord packageName = true -> isWord version = true -> isWord release = true ->
  strings.len packageName + strings.len version + strings.len release < 64000 ->
  parseRpmOutput packageName (quotedLine packageName version release) None w
  = (Ok {| Name := packageName; Version := rpmVersion version release |}, w).
Proof.
  intros Hn Hv Hr Hlen.
  assert (Hl : strings.len (quotedLine packageName version release) < maxScanTokenSize).
  { apply quotedLine_short. lia. }
  pose proof (outputLines_quoted packageName version release Hn Hv Hr Hl) as Ho.
  rewrite (surjective_pairing (parseRpmOutput _ _ _ _)).
  rewrite parseRpmOutput_silent by now rewrite Ho.
  rewrite parseRpmOutput_lines, Ho. cbn [fst snd firstSome].
  rewrite rpmLine_spec, (threeTokens_quoted _ _ _ Hn Hv Hr), String.eqb_refl.
  unfold parsed. pose proof (rpmVersion_nonempty version release) as Hne.
  destruct (rpmVersion version release); [congruence | reflexivity].
Qed.

(** X12: the formats of the two queries put the line between quotes, and
    the parsers read such a line when its three words have less than 64000
    bytes together, so that it fits the buffer of the scanner: for an
    installed package [dpkg-query] prints the name, [ii] and the version,
    and the dpkg parser returns the name with the version it makes of that
    version; [rpm] prints the name, the version and the release, and the rpm
    parser returns the name with the version it makes of the two. Nothing
    is logged. *)
Theorem quoted_lines_are_parsed (packageName version release : string) (w : World) :
  isWord packageName = true -> isWord version = true -> isWord release = true ->
  strings.len packageName + strings.len version + strings.len release < 64000 ->
  (dpkgVersion version <> EmptyString ->
   parseDpkgOutput packageName (quotedLine packageName "ii" version) None w
   = (Ok {| Name := packageName; Version := dpkgVersion version |}, w))
  /\ parseRpmOutput packageName (quotedLine packageName version release) None w
     = (Ok {| Name := packageName; Version := rpmVersion version release |}, w).
Proof.
  intros Hn Hv Hr Hlen. split.
  - apply parseDpkgOutput_quoted; try assumption.
    assert (0 <= strings.len release) by (unfold strings.len; lia). lia.
  - now apply parseRpmOutput_quoted.
Qed.

Lemma quoted_lines_are_parsed_witness :
  parseDpkgOutput "percona-xtrabackup-81" "'percona-xtrabackup-81 ii 2:8.1.0-1-1.jammy'"
    None quietWorld
  = (Ok {| Name := "percona-xtrabackup-81"; Version := "8.1.0-1-1" |}, quietWorld)
  /\ parseRpmOutput "percona-xtrabackup-81" "'percona-xtrabackup-81 8.1.0 1.1.el8'"
       None quietWorld
     = (Ok {| Name := "percona-xtrabackup-81"; Version := "8.1.0-1-1" |}, quietWorld).
Proof.
  split.
  - apply (proj1 (quoted_lines_are_parsed "percona-xtrabackup-81" "2:8.1.0-1-1.jammy" "1"
                    quietWorld eq_refl eq_refl eq_refl ltac:(vm_compute; reflexivity))).
    vm_compute. discriminate.
  - apply (proj2 (quoted_lines_are_parsed "percona-xtrabackup-81" "8.1.0" "1.1.el8"
                    quietWorld eq_refl eq_refl eq_refl ltac:(vm_compute; reflexivity))).
Defined.

(** ** The dpkg parser, line by line *)

Lemma fieldsAt_breakAt (c : ascii) (s : string) :
  fieldsAt c s =
  match breakAt c s with
  | (l, Some r) => l :: fieldsAt c r
  | (l, None) => [l]
  end.
Proof.
  induction s as [|a s IH]; [reflexivity|].
  cbn [fieldsAt breakAt]. destruct (Ascii.eqb a c); [reflexivity|].
  rewrite IH. destruct (breakAt c s) as [l [r|]]; reflexivity.
Qed.

Lemma breakAt_shorter (c : ascii) (s l r : string) :
  breakAt c s = (l, Some r) -> (String.length r < String.length s)%nat.
Proof.
  revert l; induction s as [|a s IH]; intros l; [discriminate|].
  cbn [breakAt]. destruct (Ascii.eqb a c).
  - intros [= _ <-]. simpl. lia.
  - destruct (breakAt c s) as [l' [r'|]]; [|discriminate].
    intros [= _ <-]. specialize (IH l' eq_refl). simpl. lia.
Qed.

(** [Split] at a single byte gives what stands between its occurrences. *)
Lemma Split_fieldsAt (c : ascii) (s : string) :
  strings.Split s (String c EmptyString) = fieldsAt c s.
Proof.
  remember (String.length s) as n eqn:Hn. revert s Hn.
  induction n as [n IH] using lt_wf_ind. intros s ->.
  rewrite Split_single, fieldsAt_breakAt.
  destruct (breakAt c s) as [l [r|]] eqn:E; [|reflexivity].
  f_equal. apply (IH (String.length r)); [|reflexivity].
  now apply (breakAt_shorter c s l r).
Qed.

Lemma inCutset_blankOrQuote (a : ascii) : strings.inCutset " '" a = blankOrQuote a.
Proof. unfold blankOrQuote. cbn [strings.inCutset]. now rewrite orb_false_r. Qed.

Lemma TrimLeft_skipWhile (s : string) :
  strings.TrimLeft s " '"
  = string_of_list_ascii (skipWhile blankOrQuote (list_ascii_of_string s)).
Proof.
  induction s as [|a s IH]; [reflexivity|].
  cbn [strings.TrimLeft list_ascii_of_string skipWhile].
  rewrite inCutset_blankOrQuote. destruct (blankOrQuote a); [exact IH|].
  cbn [string_of_list_ascii]. now rewrite string_of_list_ascii_of_string.
Qed.

Lemma skipWhile_app {A} (drop : A -> bool) (l1 l2 : list A) :
  skipWhile drop (l1 ++ l2) =
  match skipWhile drop l1 with
  | [] => skipWhile drop l2
  | kept => kept ++ l2
  end.
Proof.
  induction l1 as [|a l1 IH]; [reflexivity|].
  cbn [app skipWhile]. destruct (drop a); [exact IH | reflexivity].
Qed.

(** Taking from the end what [drop] takes, byte by byte from the left. *)
Lemma rev_skipWhile_cons {A} (drop : A -> bool) (a : A) (l : list A) :
  rev (skipWhile drop (rev (a :: l))) =
  match rev (skipWhile drop (rev l)) with
  | [] => if drop a then [] else [a]
  | kept => a :: kept
  end.
Proof.
  cbn [rev]. rewrite skipWhile_app.
  destruct (skipWhile drop (rev l)) as [|b kept] eqn:E.
  - cbn [rev skipWhile]. now destruct (drop a).
  - change (rev ((b :: kept) ++ [a])) with (rev ((b :: kept) ++ [a])).
    rewrite rev_app_distr. cbn [rev app].
    destruct (rev kept ++ [b]) eqn:E2; [now destruct (rev kept)|reflexivity].
Qed.

Lemma TrimRight_skipWhile (s : string) :
  strings.TrimRight s " '"
  = string_of_list_ascii (rev (skipWhile blankOrQuote (rev (list_ascii_of_string s)))).
Proof.
  induction s as [|a s IH]; [reflexivity|].
  cbn [strings.TrimRight list_ascii_of_string]. rewrite rev_skipWhile_cons, IH.
  rewrite inCutset_blankOrQuote.
  destruct (rev (skipWhile blankOrQuote (rev (list_ascii_of_string s)))) as [|b kept].
  - cbn [string_of_list_ascii]. now destruct (blankOrQuote a).
  - reflexivity.
Qed.

(** [Trim] with the cutset of the parsers takes the spaces and the quotes
    from both ends. *)
Lemma Trim_trimmedLine (text : string) : strings.Trim text " '" = trimmedLine text.
Proof.
  unfold strings.Trim, trimmedLine.
  rewrite TrimRight_skipWhile, TrimLeft_skipWhile, list_ascii_of_string_of_list_ascii.
  reflexivity.
Qed.

Lemma withoutCR_snoc (s : string) (a : ascii) :
  withoutCR (s +:+ String a EmptyString)
  = if Ascii.eqb a "013" then s else s +:+ String a EmptyString.
Proof.
  induction s as [|b s IH]; [reflexivity|].
  cbn [append withoutCR]. rewrite IH.
  destruct (s +:+ String a EmptyString) eqn:E.
  - destruct s; discriminate.
  - now destruct (Ascii.eqb a "013").
Qed.

Lemma string_snoc (s : string) :
  s = EmptyString \/ exists r a, s = r +:+ String a EmptyString.
Proof.
  induction s as [|b s [->|(r & a & ->)]]; [now left| |]; right.
  - now exists EmptyString, b.
  - now exists (String b r), a.
Qed.

Lemma dropCR_snoc (s : string) (a : ascii) :
  dropCR (s +:+ String a EmptyString)
  = if Ascii.eqb a "013" then s else s +:+ String a EmptyString.
Proof.
  unfold dropCR.
  replace (strings.sliceFrom (s +:+ String a EmptyString)
             (strings.len (s +:+ String a EmptyString) - 1))
    with (String a EmptyString).
  2:{ unfold strings.sliceFrom, strings.len. rewrite length_append. cbn [String.length].
      replace (Z.to_nat (Z.of_nat (String.length s + 1) - 1)) with (String.length s) by lia.
      rewrite substring_append_r.
      now replace (String.length s + 1 - String.length s)%nat with 1%nat by lia. }
  replace (0 <? strings.len (s +:+ String a EmptyString)) with true.
  2:{ symmetry. apply Z.ltb_lt. unfold strings.len. rewrite length_append. simpl. lia. }
  replace (strings.len (s +:+ String a EmptyString) - 1) with (strings.len s).
  2:{ unfold strings.len. rewrite length_append. simpl. lia. }
  rewrite slice_upto. cbn [andb String.eqb].
  destruct (Ascii.eqb a "013"); reflexivity.
Qed.

(** [dropCR] takes the carriage return a line ends with. *)
Lemma dropCR_withoutCR (line : string) : dropCR line = withoutCR line.
Proof.
  destruct (string_snoc line) as [->|(r & a & ->)]; [reflexivity|].
  now rewrite dropCR_snoc, withoutCR_snoc.
Qed.

Lemma outputLines_readLines (output : string) : outputLines output = readLines output.
Proof.
  rewrite outputLines_scanned. unfold readLines.
  destruct (scannedLines (textLines output)) as [lines e]. f_equal.
  apply map_ext. apply dropCR_withoutCR.
Qed.

(** The body of the loop of the dpkg parser gives the version of a line
    that qualifies, and goes on after any other line. *)
Lemma dpkgLine_installedVersion (packageName text : string) :
  dpkgLine packageName text = installedVersion packageName text.
Proof.
  rewrite dpkgLine_spec. unfold threeTokens, installedVersion.
  rewrite Trim_trimmedLine. change " " with (String " " EmptyString) at 1.
  rewrite Split_fieldsAt.
  destruct (fieldsAt " " (trimmedLine text)) as [|a [|b [|c [|d l]]]]; try reflexivity.
  now rewrite dpkgVersion_spec.
Qed.

Lemma firstSome_ext {A B} (f g : A -> option B) (l : list A) :
  (forall x, f x = g x) -> firstSome f l = firstSome g l.
Proof. intros H. induction l as [|x l IH]; [reflexivity|]. cbn. now rewrite H, IH. Qed.

Lemma parseDpkgOutput_readLines (packageName dpkgOutput : string) (w : World) :
  fst (parseDpkgOutput packageName dpkgOutput None w) =
  parsed packageName (firstSome (installedVersion packageName) (fst (readLines dpkgOutput)))
                     (snd (readLines dpkgOutput)).
Proof.
  rewrite parseDpkgOutput_lines, outputLines_readLines.
  now rewrite (firstSome_ext _ _ _ (dpkgLine_installedVersion packageName)).
Qed.

(** The lines read of a text whose first lines fit the buffer. *)
Lemma scannedLines_app (before rest : list string) :
  Forall (fun l => shortLine l = true) before ->
  fst (scannedLines (before ++ rest)) = before ++ fst (scannedLines rest).
Proof.
  induction 1 as [|l before Hl _ IH]; [reflexivity|].
  cbn [app scannedLines]. rewrite Hl.
  destruct (scannedLines (before ++ rest)) as [toks e]. cbn [fst] in *. now rewrite IH.
Qed.

(** C2: with a nil runner error the dpkg parser reads the output line by
    line, a line ending at a line feed and losing the carriage return before
    it. A line qualifies exactly when, trimmed of the spaces and quotes at
    its ends, it splits at single spaces into three tokens, the first being
    the queried name and the second [ii]; its version token loses the
    segment after the last [.], then the epoch up to the first [:], then
    [+dfsg] and what follows. The first qualifying line decides, whatever
    comes after it. The line [pkgA ii 2:8.1.0-1-1.jammy] gives [8.1.0-1-1]
    for [pkgA], alone, between quotes or after the line of another package,
    and a sole line with another status gives the not-found outcome. *)
Theorem dpkg_first_installed_line (packageName dpkgOutput : string) (w : World) :
  (forall text, dpkgLine packageName text = installedVersion packageName text)
  /\ (forall tok,
        dpkgVersion tok = cutAt "+dfsg" (withoutEpoch (withoutLastSegment "." tok)))
  /\ fst (parseDpkgOutput packageName dpkgOutput None w) =
       parsed packageName
         (firstSome (installedVersion packageName) (fst (readLines dpkgOutput)))
         (snd (readLines dpkgOutput))
  /\ (forall before line after version,
        textLines dpkgOutput = before ++ line :: after ->
        Forall (fun l => shortLine l = true
                         /\ installedVersion packageName (withoutCR l) = None) before ->
        shortLine line = true ->
        installedVersion packageName (withoutCR line) = Some version ->
        fst (parseDpkgOutput packageName dpkgOutput None w) =
          parsed packageName (Some version) None)
  /\ parseDpkgOutput "pkgA" "pkgA ii 2:8.1.0-1-1.jammy" None w
       = (Ok {| Name := "pkgA"; Version := "8.1.0-1-1" |}, w)
  /\ parseDpkgOutput "pkgA" "'pkgA ii 2:8.1.0-1-1.jammy'" None w
       = (Ok {| Name := "pkgA"; Version := "8.1.0-1-1" |}, w)
  /\ parseDpkgOutput "pkgA" dpkgSample None w
       = (Ok {| Name := "pkgA"; Version := "8.1.0-1-1" |}, w)
  /\ (forall line name status version,
        textLines dpkgOutput = [line] ->
        shortLine line = true ->
        fieldsAt " " (trimmedLine (withoutCR line)) = [name; status; version] ->
        status <> "ii" ->
        fst (parseDpkgOutput packageName dpkgOutput None w) = Err errPackageNotFound).
Proof.
  split; [apply dpkgLine_installedVersion|].
  split; [apply dpkgVersion_spec|].
  split; [apply parseDpkgOutput_readLines|].
  split; [|split; [|split; [|split]]];
    [| vm_compute; reflexivity | vm_compute; reflexivity | vm_compute; reflexivity |].
  - intros before line after version Hl Hb Hs Hq.
    rewrite parseDpkgOutput_readLines. unfold readLines. rewrite Hl.
    assert (Hshort : Forall (fun l => shortLine l = true) (before ++ [line])).
    { apply Forall_app. split; [|now repeat constructor].
      eapply Forall_impl; [exact Hb|]. now intros l [H _]. }
    assert (Hsc : fst (scannedLines (before ++ line :: after))
                  = before ++ line :: fst (scannedLines after)).
    { change (line :: after) with ([line] ++ after).
      rewrite app_assoc, scannedLines_app by exact Hshort. now rewrite <- app_assoc. }
    destruct (scannedLines (before ++ line :: after)) as [lines e]. cbn [fst snd] in *.
    subst lines. rewrite map_app, firstSome_skip.
    + cbn [map firstSome]. rewrite Hq. reflexivity.
    + apply Forall_map. eapply Forall_impl; [exact Hb|]. now intros l [_ H].
  - intros line name status version Hl Hs Ht Hne.
    rewrite parseDpkgOutput_readLines. unfold readLines. rewrite Hl.
    cbn [scannedLines]. rewrite Hs. cbn [map fst snd firstSome].
    unfold installedVersion. rewrite Ht.
    replace (String.eqb status "ii") with false by (symmetry; now apply String.eqb_neq).
    rewrite andb_false_r. reflexivity.
Qed.

Lemma dpkg_first_installed_line_witness :
  fst (parseDpkgOutput "pkgA" "pkgA rc 2:8.1.0-1-1.jammy" None quietWorld) = Err errPackageNotFound
  /\ fst (parseDpkgOutput "pkgA" dpkgSample None quietWorld)
      = parsed "pkgA" (Some "8.1.0-1-1") None.
Proof.
  split.
  - apply (proj2 (proj2 (proj2 (proj2 (proj2 (proj2 (proj2
      (dpkg_first_installed_line "pkgA" "pkgA rc 2:8.1.0-1-1.jammy" quietWorld))))))))
      with (line := "pkgA rc 2:8.1.0-1-1.jammy") (name := "pkgA") (status := "rc")
           (version := "2:8.1.0-1-1.jammy").
    + vm_compute. reflexivity.
    + vm_compute. reflexivity.
    + vm_compute. reflexivity.
    + discriminate.
  - apply (proj1 (proj2 (proj2 (proj2
      (dpkg_first_installed_line "pkgA" dpkgSample quietWorld)))))
      with (before := ["pkgB ii 1.0-1.jammy"])
           (line := "  'pkgA ii 2:8.1.0-1-1.jammy'" +:+ String "013" EmptyString)
           (after := ["pkgA ii 9.9-9.jammy"]).
    + vm_compute. reflexivity.
    + repeat constructor.
    + vm_compute. reflexivity.
    + vm_compute. reflexivity.
Defined.

(** ** Whole scrapes *)

Lemma probeOutcomes_map (probe : nat -> string -> Result Package)
    (outcome : string -> Result Package) (k : nat) (catalogue : list string) :
  (forall i packageName, In packageName catalogue -> probe i packageName = outcome packageName) ->
  probeOutcomes probe k catalogue = map outcome catalogue.
Proof.
  revert k; induction catalogue as [|p rest IH]; intros k H; [reflexivity|].
  cbn [probeOutcomes map]. rewrite (H k p (or_introl eq_refl)), IH; [reflexivity|].
  intros i q Hq. apply H. now right.
Qed.

Lemma foundPackages_installed (catalogue : list string) (pkg : string -> Package) :
  foundPackages (map (fun p => Ok (pkg p)) catalogue) = map pkg catalogue.
Proof. induction catalogue as [|p rest IH]; [reflexivity|]. cbn. now rewrite IH. Qed.

Lemma outcomes_failed (catalogue : list string) (outcomes : list (Result Package))
    (silent : bool) :
  Forall (fun r => exists err, r = Err err /\ isPackageNotFound err = silent) outcomes ->
  List.length outcomes = List.length catalogue ->
  foundPackages outcomes = []
  /\ unexpectedFailures catalogue outcomes = if silent then [] else catalogue.
Proof.
  intros H. revert catalogue; induction H as [|r outcomes (err & -> & Herr) _ IH];
    intros [|p catalogue] Hlen; try discriminate.
  - split; [reflexivity | now destruct silent].
  - injection Hlen as Hlen. destruct (IH catalogue Hlen) as [Hf Hu].
    cbn [foundPackages unexpectedFailures]. rewrite Herr, Hf, Hu.
    split; [reflexivity | now destruct silent].
Qed.

Lemma probeOutcomes_length (probe : nat -> string -> Result Package) (k : nat)
    (catalogue : list string) :
  List.length (probeOutcomes probe k catalogue) = List.length catalogue.
Proof. revert k; induction catalogue as [|p rest IH]; intros k; simpl; auto. Qed.

Lemma probeOutcomes_Forall (probe : nat -> string -> Result Package) (k : nat)
    (catalogue : list string) (P : Result Package -> Prop) :
  (forall i packageName, In packageName catalogue -> P (probe i packageName)) ->
  Forall P (probeOutcomes probe k catalogue).
Proof.
  revert k; induction catalogue as [|p rest IH]; intros k H; [constructor|].
  cbn [probeOutcomes]. constructor; [apply H; now left|]. apply IH.
  intros i q Hq. apply H. now right.
Qed.

(** A probe whose tool failed. *)
Lemma probeOf_failed (family : Family) (ctx : Context) (w : World) (k : nat)
    (packageName output : string) (err : error) :
  cmd w k (WithTimeout ctx pkgResultTimeout) (commandOf family packageName)
    = (output, Some err) ->
  family <> Unsupported ->
  probeOf family ctx w k packageName =
  Err (if strings.Contains output (notInstalledMark family) then errPackageNotFound else err).
Proof.
  intros H Hf. destruct family; [| |congruence];
    unfold probeOf, dpkgProbe, rpmProbe, commandOf, dpkgCommand, rpmCommand in *;
    rewrite H; unfold parseDpkgOutput, parseRpmOutput, notInstalledMark;
    destruct (strings.Contains output _); reflexivity.
Qed.

Section FailingTool.

Context {ranges : unicode.CaseRanges}.

(** X13: on a host whose package tool fails for every package of the
    catalogue, the scrape returns no package. When the tool says each time
    that the package is not installed, the scrape warns about none of them;
    when the tool fails for another reason, the tool itself missing for
    one, the scrape warns about every package of the catalogue, in its
    order. *)
Theorem failing_tool_gives_no_packages (ctx : Context) (w : World) (silent : bool) :
  let family := familyOf (fst (getOSInfo w)) in
  (forall k packageName, In packageName (catalogueOf family) ->
     exists output err,
       cmd w k (WithTimeout ctx pkgResultTimeout) (commandOf family packageName)
         = (output, Some err)
       /\ strings.Contains output (notInstalledMark family) = silent
       /\ (silent = false -> isPackageNotFound err = false)) ->
  fst (ScrapeInstalledPackages ctx w) = []
  /\ warnedPackages (log (snd (ScrapeInstalledPackages ctx w))) =
       (if silent then [] else rev (catalogueOf family)) ++ warnedPackages (log w).
Proof.
  intros family H.
  destruct (ScrapeInstalledPackages_trace ctx w) as (_ & _ & Hl).
  rewrite ScrapeInstalledPackages_found, Hl. fold family.
  set (outcomes := probeOutcomes (probeOf family ctx w) (List.length (execs w))
                     (catalogueOf family)).
  assert (Hall : Forall (fun r => exists err, r = Err err /\ isPackageNotFound err = silent)
                   outcomes).
  { apply probeOutcomes_Forall. intros i p Hp.
    destruct (H i p Hp) as (output & err & Hc & Hm & He).
    assert (Hf : family <> Unsupported) by (intros Hu; rewrite Hu in Hp; destruct Hp).
    rewrite (probeOf_failed family ctx w i p output err Hc Hf), Hm.
    eexists. split; [reflexivity|]. destruct silent; [reflexivity | now apply He]. }
  destruct (outcomes_failed (catalogueOf family) outcomes silent Hall
              (probeOutcomes_length _ _ _)) as [Hf Hu].
  rewrite Hf, Hu. split; [reflexivity|]. now destruct silent.
Qed.

End FailingTool.

Section FailingToolSamples.

#[local] Existing Instance sampleRanges.

Lemma failing_tool_gives_no_packages_witness :
  (fst (ScrapeInstalledPackages Background
          (debianWorld (fun p => ("dpkg-query: no packages found matching " +:+ p,
                                  Some (ExecError "exit status 1"))))) = []
   /\ warnedPackages (log (snd (ScrapeInstalledPackages Background
          (debianWorld (fun p => ("dpkg-query: no packages found matching " +:+ p,
                                  Some (ExecError "exit status 1"))))))) = [])
  /\ (fst (ScrapeInstalledPackages Background
             (debianWorld (fun _ => (EmptyString, Some (ExecError "executable file not found")))))
      = []
      /\ warnedPackages (log (snd (ScrapeInstalledPackages Background
             (debianWorld (fun _ => (EmptyString, Some (ExecError "executable file not found")))))))
         = rev (getCommonPackages ++ getDebianPackages)).
Proof.
  split.
  - apply (failing_tool_gives_no_packages Background
             (debianWorld (fun p => ("dpkg-query: no packages found matching " +:+ p,
                                     Some (ExecError "exit status 1")))) true).
    intros k p Hp. eexists. eexists. split; [reflexivity|]. split; [reflexivity | discriminate].
  - apply (failing_tool_gives_no_packages Background
             (debianWorld (fun _ => (EmptyString, Some (ExecError "executable file not found"))))
             false).
    intros k p Hp. eexists. eexists. split; [reflexivity|]. split; reflexivity.
Defined.

End FailingToolSamples.

(** A probe whose tool printed the line of an installed package. *)
Lemma probeOf_installed (family : Family) (ctx : Context) (w : World) (k : nat)
    (packageName version release : string) :
  cmd w k (WithTimeout ctx pkgResultTimeout) (commandOf family packageName)
    = (installedLine family packageName version release, None) ->
  family <> Unsupported ->
  isWord packageName = true -> isWord version = true -> isWord release = true ->
  strings.len packageName + strings.len version + strings.len release < 64000 ->
  reportedVersion family version release <> EmptyString ->
  probeOf family ctx w k packageName =
  Ok {| Name := packageName; Version := reportedVersion family version release |}.
Proof.
  intros H Hf Hn Hv Hr Hlen Hne.
  assert (0 <= strings.len release) by (unfold strings.len; lia).
  destruct family; [| |congruence];
    unfold probeOf, dpkgProbe, rpmProbe, commandOf, dpkgCommand, rpmCommand, installedLine,
      reportedVersion in *;
    rewrite H.
  - rewrite parseDpkgOutput_quoted; try assumption; [reflexivity | lia].
  - now rewrite parseRpmOutput_quoted.
Qed.

Lemma catalogueOf_words (family : Family) :
  Forall (fun p => isWord p = true /\ strings.len p < 1000) (catalogueOf family).
Proof.
  apply Forall_forall. intros p Hp.
  assert (H : forallb (fun p => isWord p && (strings.len p <? 1000)) (catalogueOf family) = true)
    by (destruct family; vm_compute; reflexivity).
  rewrite forallb_forall in H. specialize (H p). apply list_elem_of_In in Hp.
  apply H in Hp. apply andb_prop in Hp as [Hw Hl]. split; [exact Hw | now apply Z.ltb_lt].
Qed.

Section InstalledCatalogue.

Context {ranges : unicode.CaseRanges}.

(** X14: on a host whose package tool prints, for every package of the
    catalogue of its family, the line of an installed package from which the
    parser makes a version that is not empty, the version and the release
    being words of less than 60000 bytes together so that the line fits the
    buffer of the scanner, the scrape returns every package of the
    catalogue, in the order of the catalogue, each with that version. *)
Theorem installed_catalogue_is_reported (ctx : Context) (w : World)
    (versionOf releaseOf : string -> string) :
  let family := familyOf (fst (getOSInfo w)) in
  (forall packageName,
     isWord (versionOf packageName) = true /\ isWord (releaseOf packageName) = true
     /\ strings.len (versionOf packageName) + strings.len (releaseOf packageName) < 60000
     /\ reportedVersion family (versionOf packageName) (releaseOf packageName)
        <> EmptyString) ->
  (forall k packageName, In packageName (catalogueOf family) ->
     cmd w k (WithTimeout ctx pkgResultTimeout) (commandOf family packageName)
     = (installedLine family packageName (versionOf packageName) (releaseOf packageName), None)) ->
  fst (ScrapeInstalledPackages ctx w) =
  map (fun packageName =>
         {| Name := packageName;
            Version := reportedVersion family (versionOf packageName) (releaseOf packageName) |})
      (catalogueOf family).
Proof.
  intros family Hver Hcmd. rewrite ScrapeInstalledPackages_found. fold family.
  rewrite (probeOutcomes_map _
             (fun p => Ok {| Name := p;
                             Version := reportedVersion family (versionOf p) (releaseOf p) |})).
  - apply (foundPackages_installed (catalogueOf family)
             (fun p => {| Name := p;
                          Version := reportedVersion family (versionOf p) (releaseOf p) |})).
  - intros i p Hp. destruct (Hver p) as (Hv & Hr & Hl & Hne).
    pose proof (catalogueOf_words family) as Hw. rewrite Forall_forall in Hw.
    destruct (Hw p ltac:(now apply list_elem_of_In)) as [Hpw Hpl].
    apply probeOf_installed; try assumption.
    + now apply Hcmd.
    + intros Hu. rewrite Hu in Hp. destruct Hp.
    + lia.
Qed.

End InstalledCatalogue.

Section InstalledCatalogueSamples.

#[local] Existing Instance sampleRanges.

Lemma installed_catalogue_is_reported_witness :
  fst (ScrapeInstalledPackages Background
         (debianWorld (fun p => (quotedLine p "ii" "2:8.1.0-1-1.jammy", None))))
  = map (fun p => {| Name := p; Version := "8.1.0-1-1" |})
        (getCommonPackages ++ getDebianPackages).
Proof.
  apply (installed_catalogue_is_reported Background
           (debianWorld (fun p => (quotedLine p "ii" "2:8.1.0-1-1.jammy", None)))
           (fun _ => "2:8.1.0-1-1.jammy") (fun _ => "1")).
  - intros p. split; [reflexivity|]. split; [reflexivity|]. split; [reflexivity|].
    vm_compute. discriminate.
  - intros k p Hp. reflexivity.
Defined.

End InstalledCatalogueSamples.

(** ** Reading the identifier *)

(** The line of an identifier: the key, a colon and a value without
    colon. *)
Lemma instanceLine_value (value : string) :
  hasByte ":" value = false ->
  instanceLine (instanceIDKey +:+ ":" +:+ value) = Some (strings.TrimSpace value).
Proof.
  intros H. unfold instanceLine.
  change ":" with (String ":" EmptyString) at 2. rewrite Split_single.
  change (breakAt ":" (instanceIDKey +:+ ":" +:+ value)) with (instanceIDKey, Some value).
  cbv beta iota. rewrite Split_single, (breakAt_absent ":" value H).
  now rewrite String.eqb_refl.
Qed.

Lemma instanceLine_other (line : string) : ~ isIdentityLine line -> instanceLine line = None.
Proof.
  intros H. destruct (instanceLine line) as [v|] eqn:E; [|reflexivity].
  exfalso. apply H. now apply (instanceLine_identity line v).
Qed.

(** The loop of the identity manager over a file shorter than 64 KiB. *)
Lemma forScan_identity (content : string) :
  strings.len content < maxScanTokenSize ->
  fst (forScan customSplitFunc instanceLine (NewScanner content))
  = firstSome instanceLine (textLines content).
Proof.
  intros H. unfold forScan.
  rewrite (proj1 (scanLoop_scanAll _ customSplitFunc instanceLine (NewScanner content))).
  cbn [src NewScanner]. rewrite scanAll_customSplitFunc by lia.
  now rewrite (textLines_short content H).
Qed.

(** X15: in an identity file shorter than 64 KiB the first line made of the
    key, a colon and a value without colon decides: the identifier is that
    value without the white space around it, a carriage return included;
    the lines after it are not read, and the file stays as it is. *)
Theorem first_identity_line_decides (instanceFile : string) (w : World) (content : string)
    (before after : list string) (value : string) :
  let clean := filepath.Clean instanceFile in
  let dirName := filepath.Dir clean in
  dirName ∈ dirs w ->
  files w !! clean = Some content ->
  fault w (SysStat dirName) <> Some ENOENT ->
  fault w (SysOpen clean) = None ->
  fault w (SysFstat clean) = None ->
  strings.len content < maxScanTokenSize ->
  textLines content = before ++ (instanceIDKey +:+ ":" +:+ value) :: after ->
  Forall (fun line => ~ isIdentityLine line) before ->
  hasByte ":" value = false ->
  fst (getInstanceID instanceFile w) = Ok (strings.TrimSpace value)
  /\ files (snd (getInstanceID instanceFile w)) = files w.
Proof.
  intros clean dirName Hdir Hfile Hstat Hopen Hfstat Hlen Hlines Hbefore Hvalue.
  assert (Hne : content <> EmptyString).
  { intros ->. destruct before; discriminate. }
  assert (Ho : fault w (SysOpen clean) <> Some ENOENT) by (rewrite Hopen; discriminate).
  destruct (getInstanceID_content instanceFile w Hstat Hdir content Ho Hfile Hne) as [l Hg].
  fold clean in Hg. rewrite Hopen, Hfstat in Hg. rewrite Hg. cbn [fst snd files withLog].
  split; [|reflexivity].
  rewrite (forScan_identity content Hlen), Hlines, firstSome_skip.
  - cbn [firstSome]. now rewrite (instanceLine_value value Hvalue).
  - eapply Forall_impl; [exact Hbefore|]. intros line. apply instanceLine_other.
Qed.

Lemma first_identity_line_decides_witness :
  fst (getInstanceID telemetryFile (worldWithFile annotatedIdentity))
    = Ok "1bed5f0d-cc3a-11ee-bd8a-c84bd64e0277"
  /\ files (snd (getInstanceID telemetryFile (worldWithFile annotatedIdentity)))
     = files (worldWithFile annotatedIdentity).
Proof.
  apply (first_identity_line_decides telemetryFile (worldWithFile annotatedIdentity)
           annotatedIdentity ["# percona"]
           ["instanceId: 00000000-0000-4000-8000-000000000000"]
           (" 1bed5f0d-cc3a-11ee-bd8a-c84bd64e0277" +:+ String "013" EmptyString)).
  - vm_compute. reflexivity.
  - vm_compute. reflexivity.
  - discriminate.
  - reflexivity.
  - reflexivity.
  - vm_compute. reflexivity.
  - vm_compute. reflexivity.
  - constructor; [|constructor]. intros [value Hv]. vm_compute in Hv. discriminate.
  - vm_compute. reflexivity.
Defined.

(** ** What the identity manager logs *)

(** The directory is there and the file is not: the identity is created,
    and the deferred call closes a file that was never opened. *)
Lemma getInstanceID_no_file_log (instanceFile : string) (w : World) :
  let clean := filepath.Clean instanceFile in
  let dirName := filepath.Dir clean in
  fault w (SysStat dirName) <> Some ENOENT -> dirName ∈ dirs w ->
  fault w (SysOpen clean) = None -> files w !! clean = None ->
  fault w (SysWriteFile clean) = None -> clean ∉ dirs w ->
  getInstanceID instanceFile w =
    (Ok (nextUUID w),
     withLog ({| level := ErrorLevel; message := "failed to close Percona telemetry file";
                 fields := [FString "file" instanceFile; FError ErrInvalid] |}
              :: {| level := DebugLevel; message := "processing Percona telemetry file";
                    fields := [FString "file" instanceFile] |}
              :: log w)
       (withFiles (<[clean := instanceIDKey +:+ ": " +:+ nextUUID w]> (files w))
          (withEntropyPos (entropyPos w + 16) w))).
Proof.
  intros clean dirName Hs Hd Ho Hf Hw Hc.
  unfold getInstanceID. fold clean. fold dirName.
  unfold bind at 1, logw at 1. unfold bind at 1.
  match goal with |- context [os.Stat dirName ?w0] =>
    destruct (Stat_not_missing dirName w0 Hs Hd) as (r & -> & ->)
  end.
  unfold bind at 1, os.Open. world_simpl. rewrite Ho, Hf.
  rewrite (bool_decide_eq_false_2 _ Hc). unfold bind at 1. cbn [IsNotExist negb].
  rewrite createTelemetryFile_ok; world_simpl; try assumption.
  reflexivity.
Qed.

(** X16: when the directory of the identity file is there and the file is
    not, the identity manager returns a new identifier, the one it makes
    the file for, and still logs an error: the call that closes the file is
    deferred before the outcome of opening it is looked at, so it closes a
    file that was never opened. *)
Theorem missing_file_logs_a_failed_close (instanceFile : string) (w : World) :
  let clean := filepath.Clean instanceFile in
  let dirName := filepath.Dir clean in
  dirName ∈ dirs w -> files w !! clean = None -> clean ∉ dirs w ->
  fault w (SysStat dirName) <> Some ENOENT ->
  fault w (SysOpen clean) = None ->
  fault w (SysWriteFile clean) = None ->
  fst (getInstanceID instanceFile w) = Ok (nextUUID w)
  /\ log (snd (getInstanceID instanceFile w)) =
       {| level := ErrorLevel; message := "failed to close Percona telemetry file";
          fields := [FString "file" instanceFile; FError ErrInvalid] |}
       :: {| level := DebugLevel; message := "processing Percona telemetry file";
             fields := [FString "file" instanceFile] |}
       :: log w.
Proof.
  intros clean dirName Hd Hf Hc Hs Ho Hw.
  rewrite (getInstanceID_no_file_log instanceFile w Hs Hd Ho Hf Hw Hc).
  split; reflexivity.
Qed.

Lemma missing_file_logs_a_failed_close_witness :
  fst (getInstanceID telemetryFile
         (withDirs {[ "/usr/local/percona"; "/usr/local"; "/usr"; "/" ]} quietWorld))
    = Ok "03142536-4758-497a-8b9c-adbecfe0f102"
  /\ log (snd (getInstanceID telemetryFile
                 (withDirs {[ "/usr/local/percona"; "/usr/local"; "/usr"; "/" ]} quietWorld)))
     = [ {| level := ErrorLevel; message := "failed to close Percona telemetry file";
            fields := [FString "file" telemetryFile; FError ErrInvalid] |};
         {| level := DebugLevel; message := "processing Percona telemetry file";
            fields := [FString "file" telemetryFile] |} ].
Proof.
  apply (missing_file_logs_a_failed_close telemetryFile
           (withDirs {[ "/usr/local/percona"; "/usr/local"; "/usr"; "/" ]} quietWorld)).
  - vm_compute. reflexivity.
  - vm_compute. reflexivity.
  - vm_compute. discriminate.
  - discriminate.
  - reflexivity.
  - reflexivity.
Defined.

Lemma Logs_bind {A B} (c : M A) (k : A -> M B) (mid : A -> Prop) (post : B -> Prop) :
  Logs c mid -> (forall a, mid a -> Logs (k a) post) -> Logs (bind c k) post.
Proof.
  intros Hc Hk w. unfold bind. destruct (Hc w) as [[add1 H1] Hm].
  destruct (c w) as [a w1]. cbn [fst snd] in *.
  destruct (Hk a Hm w1) as [[add2 H2] Hp].
  split; [|exact Hp]. exists (add2 ++ add1). now rewrite H2, H1, app_assoc.
Qed.

Lemma Logs_ret {A} (a : A) (post : A -> Prop) : post a -> Logs (ret a) post.
Proof. intros H w. split; [now exists [] | exact H]. Qed.

Lemma Logs_logw lvl msg fs : Logs (logw lvl msg fs) (fun _ => True).
Proof. intros w. split; [|exact I]. now eexists [_]. Qed.

Lemma Logs_Stat (name : string) : Logs (os.Stat name) (fun _ => True).
Proof.
  intros w. split; [|exact I]. exists []. unfold os.Stat.
  destruct (fault w _); [reflexivity|]. now destruct (_ || _).
Qed.

Lemma Logs_MkdirAll (path : string) (perm : Z) :
  Logs (os.MkdirAll path perm)
    (fun err => match err with Some e => isOsFailure e = true | None => True end).
Proof.
  intros w. unfold os.MkdirAll. destruct (fault w _); [split; [now exists []|reflexivity]|].
  destruct (os.isRegular path w); split; try (now exists []); try reflexivity; exact I.
Qed.

Lemma Logs_Open (name : string) :
  Logs (os.Open name)
    (fun r => match snd r with
              | Some e => isOsFailure e = true
              | None => fst r <> None
              end).
Proof.
  intros w. unfold os.Open. destruct (fault w _); [split; [now exists []|reflexivity]|].
  destruct (files w !! name); [split; [now exists []|discriminate]|].
  destruct (bool_decide _); split; try (now exists []); [discriminate|reflexivity].
Qed.

Lemma Logs_FileStat (f : os.File) :
  Logs (os.FileStat (Some f))
    (fun st => match st with Err e => isOsFailure e = true | Ok _ => True end).
Proof.
  intros w. unfold os.FileStat. destruct (fault w _); [split; [now exists []|reflexivity]|].
  destruct (os.fdata f); split; try (now exists []); exact I.
Qed.

Lemma Logs_closeDeferred (file : option os.File) (fl : list Field) :
  Logs (closeDeferred file fl) (fun _ => True).
Proof.
  intros w. split; [|exact I]. destruct (Close_logs file fl w) as [l ->].
  now exists l.
Qed.

Lemma Reports_bind {A} (c : M A) (k : A -> M (Result string)) (mid : A -> Prop) :
  Logs c mid -> (forall a, mid a -> Reports (k a)) -> Reports (bind c k).
Proof.
  intros Hc Hk w. unfold bind. destruct (Hc w) as [[add1 H1] Hm].
  destruct (c w) as [a w1]. cbn [fst snd] in *.
  destruct (Hk a Hm w1) as (add2 & H2 & Hr).
  exists (add2 ++ add1). split; [now rewrite H2, H1, app_assoc|].
  destruct (fst (k a w1)) as [instanceID|e].
  - intros Hi. destruct (Hr Hi) as (entry & Hin & Hl). exists entry.
    split; [apply in_or_app; now left | exact Hl].
  - destruct Hr as (Hos & entry & Hin & Hl). split; [exact Hos|]. exists entry.
    split; [apply in_or_app; now left | exact Hl].
Qed.

(** What is deferred runs after the outcome is known and does not change
    it. *)
Lemma Reports_defer (c : M (Result string)) (d : M unit) :
  Reports c -> Logs d (fun _ => True) -> Reports (let* r := c in d ;; ret r).
Proof.
  intros Hc Hd w. unfold bind, ret. destruct (Hc w) as (add1 & H1 & Hr).
  destruct (c w) as [r w1]. cbn [fst snd] in *.
  destruct (Hd w1) as [[add2 H2] _]. destruct (d w1) as [u w2]. cbn [fst snd] in *.
  exists (add2 ++ add1). split; [now rewrite H2, H1, app_assoc|].
  destruct r as [instanceID|e].
  - intros Hi. destruct (Hr Hi) as (entry & Hin & Hl). exists entry.
    split; [apply in_or_app; now right | exact Hl].
  - destruct Hr as (Hos & entry & Hin & Hl). split; [exact Hos|]. exists entry.
    split; [apply in_or_app; now right | exact Hl].
Qed.

Lemma Reports_failure (msg : string) (fs : list Field) (e : error) :
  isOsFailure e = true -> Reports (logw ErrorLevel msg (fs ++ [FError e]) ;; ret (Err e)).
Proof.
  intros He w. eexists [_]. split; [reflexivity|]. cbn [fst]. split; [exact He|].
  eexists. split; [now left|]. split; [reflexivity|].
  cbn [fields]. apply in_or_app. right. now left.
Qed.

Lemma nextUUID_nonempty (w : World) : nextUUID w <> EmptyString.
Proof. intros H. pose proof (nextUUID_v4 w) as Hv. rewrite H in Hv. discriminate. Qed.

(** Creating the identity either writes the line of the next identifier or
    fails with the failure of the write, which it logs. *)
Lemma createTelemetryFile_cases (instanceFile : string) (w : World) :
  (exists e, createTelemetryFile instanceFile w =
             (Err e,
              withLog ({| level := ErrorLevel; message := "failed to write Percona telemetry file";
                          fields := [FString "file" instanceFile; FError e] |} :: log w)
                (withEntropyPos (entropyPos w + 16) w))
             /\ isOsFailure e = true)
  \/ (exists w', createTelemetryFile instanceFile w = (Ok (nextUUID w), w') /\ log w' = log w).
Proof.
  unfold createTelemetryFile, bind, uuid.New, os.WriteFile, nextUUID, uuid.New, logw, ret.
  cbn [fst snd dirs files fault entropy entropyPos log withEntropyPos].
  destruct (fault w _) as [errno|]; [left; eexists; split; reflexivity|].
  destruct (bool_decide _); [left; eexists; split; reflexivity|].
  destruct (negb _); [left; eexists; split; reflexivity|].
  right. eexists. split; reflexivity.
Qed.

Lemma Reports_createTelemetryFile (instanceFile : string) :
  Reports (createTelemetryFile instanceFile).
Proof.
  intros w. destruct (createTelemetryFile_cases instanceFile w) as [(e & -> & He)|(w' & -> & Hl)].
  - eexists [_]. split; [reflexivity|]. cbn [fst]. split; [exact He|].
    eexists. split; [now left|]. split; [reflexivity|]. cbn [fields]. right. now left.
  - exists []. split; [exact Hl|]. cbn [fst]. intros H. now destruct (nextUUID_nonempty w).
Qed.

Lemma Reports_found (found : option string) (l : list Field) :
  let instanceID := match found with Some v => v | None => EmptyString end in
  Reports ((if strings.len instanceID =? 0
            then logw ErrorLevel "failed to get Percona telemetry instanceID, it is empty" l
            else ret tt) ;;
           ret (Ok instanceID)).
Proof.
  cbv zeta. intros w. unfold bind, ret.
  destruct (match found with Some v => v | None => EmptyString end) as [|a s].
  - eexists [_]. split; [reflexivity|]. intros _. eexists. split; [now left|]. split; reflexivity.
  - exists []. split; [reflexivity|]. discriminate.
Qed.

(** X17: the identity manager does not fail in silence. A failure is the
    failure of a call of [os], never one of reading the file or an error of
    the scanner, and comes with an entry of the error level that bears the
    error; an empty identifier comes with an entry of the error level that
    says so. Nothing is taken from the log. *)
Theorem identity_failures_are_logged (instanceFile : string) (w : World) :
  exists added,
    log (snd (getInstanceID instanceFile w)) = added ++ log w
    /\ match fst (getInstanceID instanceFile w) with
       | Err e =>
           isOsFailure e = true
           /\ exists entry,
                In entry added /\ level entry = ErrorLevel /\ In (FError e) (fields entry)
       | Ok instanceID =>
           instanceID = EmptyString ->
           exists entry,
             In entry added /\ level entry = ErrorLevel
             /\ message entry = "failed to get Percona telemetry instanceID, it is empty"
       end.
Proof.
  revert w. change (Reports (getInstanceID instanceFile)).
  unfold getInstanceID. cbv zeta.
  eapply Reports_bind; [apply Logs_logw|]. intros _ _.
  eapply Reports_bind; [apply Logs_Stat|]. intros err _.
  destruct (match err with Some e => IsNotExist e | None => false end).
  - eapply Reports_bind; [apply Logs_MkdirAll|]. intros [e|] He.
    + exact (Reports_failure _ [_; _] e He).
    + apply Reports_createTelemetryFile.
  - eapply Reports_bind; [apply Logs_Open|]. intros [file [e|]] Hopen; cbn [fst snd] in Hopen.
    + apply Reports_defer; [|apply Logs_closeDeferred].
      destruct (negb (IsNotExist e)).
      * exact (Reports_failure _ [_] e Hopen).
      * apply Reports_createTelemetryFile.
    + destruct file as [f|]; [|congruence].
      apply Reports_defer; [|apply Logs_closeDeferred].
      eapply Reports_bind; [apply Logs_FileStat|]. intros [size|e] Hst.
      * destruct (size =? 0); [apply Reports_createTelemetryFile|].
        destruct (forScan customSplitFunc instanceLine (os.NewFileScanner (Some f))) as [found sc].
        apply Reports_found.
      * exact (Reports_failure _ [_] e Hst).
Qed.

(** X18: the identity manager does not look at the error of its scanner. When
    the first line of the identity file is 64 KiB long or longer the scan
    ends there, and the identity manager returns the empty identifier
    without an error, also when a later line holds an identifier; the file
    stays as it is. *)
Theorem long_first_line_hides_the_identity (instanceFile : string) (w : World)
    (content line : string) (rest : list string) :
  let clean := filepath.Clean instanceFile in
  let dirName := filepath.Dir clean in
  dirName ∈ dirs w ->
  files w !! clean = Some content ->
  fault w (SysStat dirName) <> Some ENOENT ->
  fault w (SysOpen clean) = None ->
  fault w (SysFstat clean) = None ->
  textLines content = line :: rest -> shortLine line = false ->
  fst (getInstanceID instanceFile w) = Ok EmptyString
  /\ files (snd (getInstanceID instanceFile w)) = files w.
Proof.
  intros clean dirName Hdir Hfile Hstat Hopen Hfstat Hlines Hlong.
  assert (Hne : content <> EmptyString) by (intros ->; discriminate).
  assert (Ho : fault w (SysOpen clean) <> Some ENOENT) by (rewrite Hopen; discriminate).
  destruct (getInstanceID_content instanceFile w Hstat Hdir content Ho Hfile Hne) as [l Hg].
  fold clean in Hg. rewrite Hopen, Hfstat in Hg. rewrite Hg. cbn [fst snd files withLog].
  split; [|reflexivity].
  unfold forScan.
  rewrite (proj1 (scanLoop_scanAll _ customSplitFunc instanceLine (NewScanner content))).
  cbn [src NewScanner]. rewrite scanAll_customSplitFunc by lia.
  rewrite Hlines. cbn [scannedLines]. rewrite Hlong. reflexivity.
Qed.

Lemma long_first_line_hides_the_identity_witness :
  fst (getInstanceID telemetryFile (worldWithFile overlongText)) = Ok EmptyString
  /\ files (snd (getInstanceID telemetryFile (worldWithFile overlongText)))
     = files (worldWithFile overlongText).
Proof.
  apply (long_first_line_hides_the_identity telemetryFile (worldWithFile overlongText)
           overlongText (padding (Z.to_nat maxScanTokenSize))
           ["pkgA ii 1.0-1.jammy"; "instanceId: 0a1b"]).
  - change (dirs (worldWithFile overlongText)) with (dirs (worldWithFile EmptyString)).
    vm_compute. reflexivity.
  - change (filepath.Clean telemetryFile) with telemetryFile.
    apply lookup_singleton_eq.
  - discriminate.
  - reflexivity.
  - reflexivity.
  - exact overlongText_lines.
  - exact padding_long.
Defined.

(** ** What the identity manager writes *)

Lemma KeepsFiles_logw lvl msg fs : KeepsFiles (logw lvl msg fs).
Proof. intros w. split; reflexivity. Qed.

Lemma KeepsFiles_ret {A} (a : A) : KeepsFiles (ret a).
Proof. intros w. split; reflexivity. Qed.

Lemma KeepsFiles_Stat name : KeepsFiles (os.Stat name).
Proof.
  intros w. unfold os.Stat. destruct (fault w _); [split; reflexivity|].
  destruct (_ || _); split; reflexivity.
Qed.

Lemma KeepsFiles_MkdirAll path perm : KeepsFiles (os.MkdirAll path perm).
Proof.
  intros w. unfold os.MkdirAll. destruct (fault w _); [split; reflexivity|].
  destruct (os.isRegular path w); [split; reflexivity|].
  split; [reflexivity|]. cbn [snd dirs withDirs]. apply union_subseteq_l.
Qed.

Lemma KeepsFiles_Open name : KeepsFiles (os.Open name).
Proof.
  intros w. unfold os.Open. destruct (fault w _); [split; reflexivity|].
  destruct (files w !! name); [split; reflexivity|].
  destruct (bool_decide _); split; reflexivity.
Qed.

Lemma KeepsFiles_FileStat file : KeepsFiles (os.FileStat file).
Proof.
  intros w. unfold os.FileStat. destruct file as [f|]; [|split; reflexivity].
  destruct (fault w _); [split; reflexivity|]. destruct (os.fdata f); split; reflexivity.
Qed.

Lemma KeepsFiles_closeDeferred file fl : KeepsFiles (closeDeferred file fl).
Proof. intros w. destruct (Close_logs file fl w) as [l ->]. split; reflexivity. Qed.

Lemma KeepsFiles_bind {A B} (c : M A) (k : A -> M B) :
  KeepsFiles c -> (forall a, KeepsFiles (k a)) -> KeepsFiles (bind c k).
Proof.
  intros Hc Hk w. unfold bind. destruct (Hc w) as [Hf Hd].
  destruct (c w) as [a w1]. cbn [snd] in *. destruct (Hk a w1) as [Hf' Hd'].
  split; [congruence | now transitivity (dirs w1)].
Qed.

Lemma KeepsFiles_failure lvl msg fs (e : error) :
  KeepsFiles (logw lvl msg fs ;; ret (Err (T := string) e)).
Proof. apply KeepsFiles_bind; [apply KeepsFiles_logw | intros; apply KeepsFiles_ret]. Qed.

Lemma WritesIdentity_keeps (path : string) (c : M (Result string)) :
  KeepsFiles c -> WritesIdentity path c.
Proof.
  intros H w. destruct (H w) as [Hf Hd]. split; [exact Hd|]. rewrite Hf.
  split; [reflexivity|]. destruct (fst (c w)); [now left | exact I].
Qed.

Lemma WritesIdentity_bind {A} (path : string) (c : M A) (k : A -> M (Result string)) :
  KeepsFiles c -> (forall a, WritesIdentity path (k a)) -> WritesIdentity path (bind c k).
Proof.
  intros Hc Hk w. unfold bind. destruct (Hc w) as [Hf Hd].
  destruct (c w) as [a w1]. cbn [snd] in *. destruct (Hk a w1) as (Hd' & Ho & Hw).
  rewrite Hf in Ho, Hw. split; [now transitivity (dirs w1) | split; assumption].
Qed.

(** What is deferred runs after the outcome is known and does not change
    it. *)
Lemma WritesIdentity_defer (path : string) (c : M (Result string)) (d : M unit) :
  WritesIdentity path c -> KeepsFiles d -> WritesIdentity path (let* r := c in d ;; ret r).
Proof.
  intros Hc Hd w. unfold bind, ret. destruct (Hc w) as (Hd1 & Ho & Hw).
  destruct (c w) as [r w1]. cbn [fst snd] in *. destruct (Hd w1) as [Hf2 Hd2].
  destruct (d w1) as [u w2]. cbn [fst snd] in *. rewrite Hf2.
  split; [now transitivity (dirs w1) | split; assumption].
Qed.

Lemma WritesIdentity_createTelemetryFile (path : string) :
  WritesIdentity path (createTelemetryFile path).
Proof.
  intros w.
  destruct (createTelemetryFile_cases path w) as [(e & -> & _)|(w' & Hc & _)].
  - cbn [fst snd dirs files withLog withEntropyPos]. split; [reflexivity|]. split; [reflexivity|].
    exact I.
  - pose proof (nextUUID_v4 w) as Hu. revert Hc.
    unfold createTelemetryFile, bind, uuid.New, os.WriteFile, nextUUID, logw, ret in *.
    cbn [fst snd dirs files fault entropy entropyPos log withEntropyPos] in *.
    destruct (fault w _); [discriminate|].
    destruct (bool_decide _); [discriminate|].
    destruct (negb _); [discriminate|]. intros _.
    cbn [fst snd dirs files withFiles withEntropyPos].
    split; [reflexivity|]. split; [intros other Ho; now apply lookup_insert_ne|].
    right. split; [exact Hu | reflexivity].
Qed.

Lemma WritesIdentity_getInstanceID (instanceFile : string) :
  WritesIdentity (filepath.Clean instanceFile) (getInstanceID instanceFile).
Proof.
  unfold getInstanceID. cbv zeta.
  apply WritesIdentity_bind; [apply KeepsFiles_logw|]. intros _.
  apply WritesIdentity_bind; [apply KeepsFiles_Stat|]. intros err.
  destruct (match err with Some e => IsNotExist e | None => false end).
  - apply WritesIdentity_bind; [apply KeepsFiles_MkdirAll|]. intros [e|].
    + apply WritesIdentity_keeps, KeepsFiles_failure.
    + apply WritesIdentity_createTelemetryFile.
  - apply WritesIdentity_bind; [apply KeepsFiles_Open|]. intros [file err'].
    apply WritesIdentity_defer; [|apply KeepsFiles_closeDeferred].
    destruct err' as [e|].
    + destruct (negb (IsNotExist e)); [|apply WritesIdentity_createTelemetryFile].
      apply WritesIdentity_keeps, KeepsFiles_failure.
    + apply WritesIdentity_bind; [apply KeepsFiles_FileStat|]. intros [size|e].
      * destruct (size =? 0); [apply WritesIdentity_createTelemetryFile|].
        destruct (forScan customSplitFunc instanceLine (os.NewFileScanner file)) as [found sc].
        apply WritesIdentity_keeps.
        apply KeepsFiles_bind; [|intros; apply KeepsFiles_ret].
        destruct (strings.len _ =? 0); [apply KeepsFiles_logw | apply KeepsFiles_ret].
      * apply WritesIdentity_keeps, KeepsFiles_failure.
Qed.

(** X19: whatever the host and its faults, the identity manager takes no
    directory away and changes no file but the identity file; and when it
    returns an identifier, the identity file either is as it was or holds
    the key, a colon, a space and that identifier, which is then a version 4
    identifier in canonical text. *)
Theorem only_the_identity_file_is_written (instanceFile : string) (w : World) :
  let clean := filepath.Clean instanceFile in
  let w' := snd (getInstanceID instanceFile w) in
  dirs w ⊆ dirs w'
  /\ (forall path, path <> clean -> files w' !! path = files w !! path)
  /\ (forall instanceID,
        fst (getInstanceID instanceFile w) = Ok instanceID ->
        files w' !! clean = files w !! clean
        \/ (isUUIDv4 instanceID = true
            /\ files w' !! clean = Some ("instanceId: " +:+ instanceID))).
Proof.
  cbv zeta. destruct (WritesIdentity_getInstanceID instanceFile w) as (Hd & Ho & Hw).
  split; [exact Hd|]. split; [exact Ho|].
  intros instanceID Hr. rewrite Hr in Hw. destruct Hw as [Hf|[Hu Hf]]; rewrite Hf.
  - now left.
  - right. split; [exact Hu | apply lookup_insert_eq].
Qed.

(** ** The host scraper, call by call *)

(** The host a scrape of the host metrics leaves. *)
Lemma ScrapeHostMetrics_world (w w1 : World) (instanceID : string) :
  getInstanceID telemetryFile w = (Ok instanceID, w1) ->
  snd (ScrapeHostMetrics w) = withHostinfoCalls (S (S (hostinfoCalls w1))) w1.
Proof.
  intros H. unfold ScrapeHostMetrics. unfold bind at 1. rewrite H.
  unfold Now, getOSInfo, getHardwareInfo, getDeploymentInfo, GetInfo, bind, ret.
  cbn [fst snd hostinfo hostinfoCalls withHostinfoCalls].
  destruct (hostinfo w1 (hostinfoCalls w1));
    cbn [fst snd hostinfo hostinfoCalls withHostinfoCalls];
    destruct (hostinfo w1 (S (hostinfoCalls w1))); reflexivity.
Qed.

(** X20: a scrape of the host metrics, as a whole. When the identity
    manager succeeds the record bears the time of the clock, the path of the
    identity file and exactly the four metrics [instanceId], [OS],
    [deployment] and [hardware_arch], and the host information was asked for
    twice; when it fails its error is returned wrapped, and the host
    information was not asked for. *)
Theorem host_scrape_in_full (w : World) :
  let w' := snd (ScrapeHostMetrics w) in
  match fst (ScrapeHostMetrics w) with
  | Ok m =>
      Timestamp m = clock w /\ Filename m = telemetryFile
      /\ dom (Metrics m) = ({[ "instanceId"; "OS"; "deployment"; "hardware_arch" ]} : gset string)
      /\ hostinfoCalls w' = S (S (hostinfoCalls w))
  | Err err =>
      (exists cause,
         fst (getInstanceID telemetryFile w) = Err cause
         /\ err = Wrapped "can't get Percona telemetry instanceID" cause)
      /\ hostinfoCalls w' = hostinfoCalls w
  end.
Proof.
  cbv zeta. pose proof (getInstanceID_sameHost telemetryFile w) as Hs.
  destruct (getInstanceID telemetryFile w) as [[instanceID|cause] w1] eqn:E.
  - destruct Hs as (_ & Hc & _). cbn [snd] in Hc.
    rewrite (ScrapeHostMetrics_world _ _ _ E), (ScrapeHostMetrics_ok _ _ _ E).
    cbn [clock hostinfoCalls withHostinfoCalls Timestamp Filename Metrics].
    rewrite Hc. split; [reflexivity|]. split; [reflexivity|]. split; [|reflexivity].
    unfold instanceIDKey. rewrite !dom_insert_L, dom_empty_L. set_solver.
  - destruct Hs as (_ & Hc & _). cbn [snd] in Hc.
    rewrite (ScrapeHostMetrics_err _ _ _ E). cbn [fst snd].
    split; [|exact Hc]. now exists cause.
Qed.

(** ** One identity for every scrape *)

Lemma telemetryFile_clean : filepath.Clean telemetryFile = telemetryFile.
Proof. vm_compute. reflexivity. Qed.

(** The identity manager on a host that holds the line of an identifier. *)
Lemma getInstanceID_written (instanceFile : string) (w : World) (u : string) :
  let clean := filepath.Clean instanceFile in
  let dirName := filepath.Dir clean in
  noFault w -> dirName ∈ dirs w ->
  files w !! clean = Some (instanceIDKey +:+ ": " +:+ u) ->
  isUUIDv4 u = true ->
  exists l, getInstanceID instanceFile w = (Ok u, withLog l w).
Proof.
  intros clean dirName Hnf Hd Hf Hu.
  assert (Hs : fault w (SysStat dirName) <> Some ENOENT) by (rewrite Hnf; discriminate).
  assert (Ho : fault w (SysOpen clean) <> Some ENOENT) by (rewrite Hnf; discriminate).
  destruct (getInstanceID_content instanceFile w Hs Hd _ Ho Hf ltac:(discriminate)) as [l Hg].
  fold clean in Hg. rewrite !Hnf in Hg.
  destruct (isUUIDv4_plain u Hu) as [Hplain Hlen].
  rewrite forScan_written in Hg by (try exact Hplain; lia).
  now exists l.
Qed.

Lemma afterScrapes_identity (w : World) (u : string) (n : nat) :
  let dirName := filepath.Dir telemetryFile in
  noFault w -> dirName ∈ dirs w ->
  files w !! telemetryFile = Some (instanceIDKey +:+ ": " +:+ u) ->
  isUUIDv4 u = true ->
  noFault (afterScrapes n w) /\ dirName ∈ dirs (afterScrapes n w)
  /\ files (afterScrapes n w) !! telemetryFile = Some (instanceIDKey +:+ ": " +:+ u).
Proof.
  intros dirName Hnf Hd Hf Hu. induction n as [|n (IHn & IHd & IHf)]; [auto|].
  cbn [afterScrapes].
  destruct (getInstanceID_written telemetryFile (afterScrapes n w) u) as [l Hg];
    rewrite ?telemetryFile_clean; try assumption.
  rewrite (ScrapeHostMetrics_world _ _ _ Hg). auto.
Qed.

(** X21: on a host without faults where the directory of the identity file
    is absent, the first scrape of the host metrics creates the identity,
    and every scrape after it, however many, reports that same identifier,
    a version 4 identifier in canonical text. *)
Theorem identity_is_stable_across_scrapes (w : World) (n : nat) :
  let dirName := filepath.Dir telemetryFile in
  noFault w ->
  dirName ∉ dirs w -> files w !! dirName = None -> telemetryFile ∉ dirs w ->
  isUUIDv4 (nextUUID w) = true
  /\ exists m,
       fst (ScrapeHostMetrics (afterScrapes n w)) = Ok m
       /\ Metrics m !! "instanceId" = Some (nextUUID w).
Proof.
  intros dirName Hnf Hd Hr Hc. split; [apply nextUUID_v4|].
  assert (Hid : forall w0 w1 u, getInstanceID telemetryFile w0 = (Ok u, w1) ->
            exists m, fst (ScrapeHostMetrics w0) = Ok m /\ Metrics m !! "instanceId" = Some u).
  { intros w0 w1 u Hg. eexists. split; [apply (ScrapeHostMetrics_ok _ _ _ Hg)|].
    cbn [Metrics]. unfold instanceIDKey.
    rewrite !lookup_insert_ne by discriminate. now rewrite lookup_insert_eq. }
  destruct (getInstanceID_no_directory telemetryFile w) as [l Hg];
    rewrite ?telemetryFile_clean; fold dirName; try apply Hnf; try assumption.
  { vm_compute. discriminate. }
  rewrite telemetryFile_clean in Hg. fold dirName in Hg.
  destruct n as [|n]; [now apply (Hid _ _ _ Hg)|].
  set (w1 := snd (ScrapeHostMetrics w)).
  assert (Hw1 : noFault w1 /\ dirName ∈ dirs w1
                /\ files w1 !! telemetryFile = Some (instanceIDKey +:+ ": " +:+ nextUUID w)).
  { unfold w1. rewrite (ScrapeHostMetrics_world _ _ _ Hg).
    cbn [fault dirs files withHostinfoCalls withLog withFiles withEntropyPos withDirs].
    split; [exact Hnf|]. split.
    - apply elem_of_union. right. apply madeDirs_self.
    - apply lookup_insert_eq. }
  destruct Hw1 as (Hnf1 & Hd1 & Hf1).
  assert (Hshift : forall k, afterScrapes (S k) w = afterScrapes k w1).
  { induction k as [|k IH]; [reflexivity|]. cbn [afterScrapes] in *. now rewrite IH. }
  rewrite Hshift.
  destruct (afterScrapes_identity w1 (nextUUID w) n Hnf1 Hd1 Hf1 (nextUUID_v4 w))
    as (Hnfn & Hdn & Hfn).
  destruct (getInstanceID_written telemetryFile (afterScrapes n w1) (nextUUID w)) as [l' Hg'];
    rewrite ?telemetryFile_clean; try assumption.
  - apply nextUUID_v4.
  - now apply (Hid _ _ _ Hg').
Qed.

Lemma identity_is_stable_across_scrapes_witness :
  exists m,
    fst (ScrapeHostMetrics (afterScrapes 3 quietWorld)) = Ok m
    /\ Metrics m !! "instanceId" = Some "03142536-4758-497a-8b9c-adbecfe0f102".
Proof.
  apply (identity_is_stable_across_scrapes quietWorld 3).
  - intros call. reflexivity.
  - vm_compute. discriminate.
  - vm_compute. reflexivity.
  - vm_compute. discriminate.
Defined.
